(** * PyGCL: contrastive losses, contrast models and evaluation splits

    A shallow embedding of the parts of GCL/losses/infonce.py,
    GCL/losses/jsd.py, GCL/models/contrast_model.py, GCL/eval/eval.py and
    GCL/eval/svm.py that the specification talks about.

    Tensors hold real numbers: every float of a tensor is read as the
    real it denotes, so the theorems about losses are about the formulas
    the code evaluates and say nothing about rounding.  Where the program
    would produce inf or nan (a division by zero, the logarithm of zero)
    the model produces the real that [Rdiv] and [ln] give there.  The
    float arguments of [get_split] decide integer sizes, so their
    arithmetic is modelled with its rounding (see there).  A Python
    exception is a [Raise], Python's [None] is [VNone]. *)

From Stdlib Require Import String Ascii.
From Stdlib Require Import Reals Lra Lia ZArith QArith Qround Qabs Qpower Bool Arith.
From Stdlib Require Lqa.
From Stdlib Require Import DecimalString.
From Stdlib Require Import List Permutation Sorted.
Import ListNotations.

#[local] Set Warnings "-register-all".
Local Open Scope R_scope.

(** ** Exceptions *)

Inductive error : Type :=
| TypeError (msg : string)
| IndexError (msg : string)
| RuntimeError (msg : string)
| AttributeError (msg : string)
| AssertionError
| ValueError
| OverflowError (msg : string)
| KeyError (msg : string).

Inductive result (A : Type) : Type :=
| Ok (a : A)
| Raise (e : error).

Arguments Ok {A} a.
Arguments Raise {A} e.

Definition bind {A B : Type} (r : result A) (k : A -> result B) : result B :=
  match r with
  | Ok a => k a
  | Raise e => Raise e
  end.

Notation "x <- r ;; k" := (bind r (fun x => k))
  (at level 61, r at next level, right associativity).
Notation "' p <- r ;; k" := (bind r (fun x => let p := x in k))
  (at level 61, p pattern, r at next level, right associativity).

Definition raises {A : Type} (r : result A) : Prop :=
  exists e, r = Raise e.

(** ** Lists of reals *)

Fixpoint map2 {A B C : Type} (f : A -> B -> C) (la : list A) (lb : list B) : list C :=
  match la, lb with
  | a :: la', b :: lb' => f a b :: map2 f la' lb'
  | _, _ => []
  end.

Definition Rsum (l : list R) : R := fold_right Rplus 0 l.

Definition dot (u v : list R) : R := Rsum (map2 Rmult u v).

Definition b2r (b : bool) : R := if b then 1 else 0.

(** ** Tensors of rank 0, 1 and 2

    A matrix carries its number of columns, so that a matrix with no row
    still has a shape. *)

Inductive tensor : Type :=
| Scalar (x : R)
| Vec (v : list R)
| Mat (ncols : nat) (rows : list (list R)).

(** What a Python expression evaluates to, as far as the losses go. *)
Inductive value : Type :=
| VNone
| VTensor (t : tensor).

Definition as_tensor (v : value) : result tensor :=
  match v with
  | VTensor t => Ok t
  | VNone => Raise (TypeError "unsupported operand type: NoneType")
  end.

(** Truncation toward zero, [Tensor.int()] on one entry. *)
Definition Rtrunc (x : R) : Z :=
  if Rle_dec 0 x then Int_part x else (- Int_part (- x))%Z.

Module Torch.

Definition map_tensor (f : R -> R) (t : tensor) : tensor :=
  match t with
  | Scalar x => Scalar (f x)
  | Vec v => Vec (map f v)
  | Mat c m => Mat c (map (map f) m)
  end.

Definition exp : tensor -> tensor := map_tensor Rtrigo_def.exp.
Definition log : tensor -> tensor := map_tensor ln.
Definition neg : tensor -> tensor := map_tensor Ropp.
Definition int : tensor -> tensor := map_tensor (fun x => IZR (Rtrunc x)).

(** Broadcasting of one dimension: equal sizes, or one of them is 1. *)
Definition bdim (a b : nat) : result nat :=
  if (a =? b)%nat then Ok a
  else if (a =? 1)%nat then Ok b
  else if (b =? 1)%nat then Ok a
  else Raise (RuntimeError "The size of tensor a must match the size of tensor b").

Definition bzip {A : Type} (f : A -> A -> A) (la lb : list A) : list A :=
  if (length la =? length lb)%nat then map2 f la lb
  else match la, lb with
       | [a], _ => map (f a) lb
       | _, [b] => map (fun a => f a b) la
       | _, _ => []
       end.

(** Elementwise binary operators [+], [-], [*], [/] with broadcasting. *)
Definition binop (f : R -> R -> R) (t1 t2 : tensor) : result tensor :=
  match t1, t2 with
  | Scalar x, _ => Ok (map_tensor (f x) t2)
  | _, Scalar y => Ok (map_tensor (fun x => f x y) t1)
  | Vec u, Vec v =>
      _ <- bdim (length u) (length v) ;;
      Ok (Vec (bzip f u v))
  | Mat c1 a, Mat c2 b =>
      c <- bdim c1 c2 ;;
      _ <- bdim (length a) (length b) ;;
      Ok (Mat c (bzip (bzip f) a b))
  | Mat c a, Vec v =>
      c' <- bdim c (length v) ;;
      Ok (Mat c' (map (fun r => bzip f r v) a))
  | Vec v, Mat c b =>
      c' <- bdim (length v) c ;;
      Ok (Mat c' (map (fun r => bzip f v r) b))
  end.

Definition add : tensor -> tensor -> result tensor := binop Rplus.
Definition sub : tensor -> tensor -> result tensor := binop Rminus.
Definition mul : tensor -> tensor -> result tensor := binop Rmult.
Definition div : tensor -> tensor -> result tensor := binop Rdiv.

(** [t.sum()] *)
Definition sum (t : tensor) : tensor :=
  match t with
  | Scalar x => Scalar x
  | Vec v => Scalar (Rsum v)
  | Mat _ m => Scalar (Rsum (map Rsum m))
  end.

Definition dim_out_of_range : error :=
  IndexError "Dimension out of range".

(** [t.sum(dim=1)] *)
Definition sum_dim1 (t : tensor) : result tensor :=
  match t with
  | Mat _ m => Ok (Vec (map Rsum m))
  | _ => Raise dim_out_of_range
  end.

(** [t.sum(dim=1, keepdim=True)] *)
Definition sum_dim1_keepdim (t : tensor) : result tensor :=
  match t with
  | Mat _ m => Ok (Mat 1 (map (fun r => [Rsum r]) m))
  | _ => Raise dim_out_of_range
  end.

Definition numel (t : tensor) : nat :=
  match t with
  | Scalar _ => 1
  | Vec v => length v
  | Mat c m => length m * c
  end.

(** [t.mean()] *)
Definition mean (t : tensor) : tensor :=
  match sum t with
  | Scalar s => Scalar (s / INR (numel t))
  | other => other
  end.

(** [t.diag()] *)
Definition diag (t : tensor) : result tensor :=
  match t with
  | Scalar _ => Raise (RuntimeError "diag(): Supports 1D or 2D tensors")
  | Vec v =>
      let n := length v in
      Ok (Mat n (map (fun i => map (fun j => if (i =? j)%nat then nth i v 0 else 0)
                                 (seq 0 n)) (seq 0 n)))
  | Mat c m =>
      Ok (Vec (map (fun i => nth i (nth i m []) 0) (seq 0 (Nat.min (length m) c))))
  end.

(** [torch.clamp(t, min=m)] with [m] a tensor of rank 0 *)
Definition clamp_min (t m : tensor) : result tensor :=
  binop Rmax t m.

Definition shapes_cannot_be_multiplied : error :=
  RuntimeError "mat1 and mat2 shapes cannot be multiplied".

(** [a @ b.t()]; [t()] leaves a tensor of rank below 2 as it is. *)
Definition matmul_t (a b : tensor) : result tensor :=
  match a, b with
  | Mat c1 ra, Mat c2 rb =>
      if (c1 =? c2)%nat
      then Ok (Mat (length rb) (map (fun u => map (fun v => dot u v) rb) ra))
      else Raise shapes_cannot_be_multiplied
  | Mat c ra, Vec v =>
      if (c =? length v)%nat
      then Ok (Vec (map (fun u => dot u v) ra))
      else Raise shapes_cannot_be_multiplied
  | Vec u, Mat c rb =>
      if (length u =? c)%nat
      then Ok (Vec (map (fun v => dot u v) rb))
      else Raise shapes_cannot_be_multiplied
  | Vec u, Vec v =>
      if (length u =? length v)%nat
      then Ok (Scalar (dot u v))
      else Raise shapes_cannot_be_multiplied
  | _, _ => Raise (RuntimeError "both arguments to matmul need to be at least 1D")
  end.

(** [torch.eye(n)] *)
Definition eye (n : nat) : tensor :=
  Mat n (map (fun i => map (fun j => b2r (i =? j)%nat) (seq 0 n)) (seq 0 n)).

End Torch.

Module F.

Definition eps : R := 1e-12.

Definition norm2 (r : list R) : R := sqrt (Rsum (map (fun x => x * x) r)).

Definition normalize_row (r : list R) : list R :=
  map (fun x => x / Rmax (norm2 r) eps) r.

(** [F.normalize(h)]: p = 2, dim = 1, eps = 1e-12 *)
Definition normalize (t : tensor) : result tensor :=
  match t with
  | Mat c m => Ok (Mat c (map normalize_row m))
  | _ => Raise Torch.dim_out_of_range
  end.

(** [F.softplus(x)]: beta = 1, threshold = 20 *)
Definition softplus1 (x : R) : R :=
  if Rlt_dec 20 x then x else ln (1 + Rtrigo_def.exp x).

Definition softplus : tensor -> tensor := Torch.map_tensor softplus1.

End F.

(** ** ContrastInstance

    Modelled from the spec: the class ContrastInstance of
    GCL/models/sampler.py, which is not among the sources.  It carries an
    anchor and a sample embedding matrix and two optional masks; [unpack]
    hands the four back in this order. *)

Record ContrastInstance : Type := mkContrastInstance {
  anchor : tensor;
  sample : tensor;
  pos_mask : value;
  neg_mask : value
}.

Definition unpack (ci : ContrastInstance) : tensor * tensor * value * value :=
  (anchor ci, sample ci, pos_mask ci, neg_mask ci).

(** [mask.int()] on an optional mask *)
Definition mask_int (m : value) : result tensor :=
  match m with
  | VTensor t => Ok (Torch.int t)
  | VNone => Raise (AttributeError "'NoneType' object has no attribute 'int'")
  end.

(** ** GCL/losses/infonce.py *)

Definition similarity (h1 h2 : tensor) : result tensor :=
  h1 <- F.normalize h1 ;;
  h2 <- F.normalize h2 ;;
  Torch.matmul_t h1 h2.

Module InfoNCE.

Definition compute (tau : R) (contrast_instance : ContrastInstance) : result value :=
  let '(anchor, sample, pos_mask, neg_mask) := unpack contrast_instance in
  s <- similarity anchor sample ;;
  sim <- Torch.div s (Scalar tau) ;;
  pos_mask <- as_tensor pos_mask ;;
  neg_mask <- as_tensor neg_mask ;;
  mask <- Torch.add pos_mask neg_mask ;;
  exp_sim <- Torch.mul (Torch.exp sim) mask ;;
  row_sum <- Torch.sum_dim1_keepdim exp_sim ;;
  log_prob <- Torch.sub sim (Torch.log row_sum) ;;
  loss <- Torch.mul log_prob pos_mask ;;
  loss_sum <- Torch.sum_dim1 loss ;;
  pos_count <- Torch.sum_dim1 pos_mask ;;
  loss <- Torch.div loss_sum pos_count ;;
  Ok (VTensor (Torch.neg (Torch.mean loss))).

Definition compute_default_positive (tau : R) (contrast_instance : ContrastInstance)
  : result value :=
  let anchor := anchor contrast_instance in
  let sample := sample contrast_instance in
  s <- similarity anchor sample ;;
  s <- Torch.div s (Scalar tau) ;;
  let sim := Torch.exp s in
  pos <- Torch.diag sim ;;
  row_sum <- Torch.sum_dim1 sim ;;
  d <- Torch.diag sim ;;
  neg <- Torch.sub row_sum d ;;
  total <- Torch.add pos neg ;;
  loss <- Torch.div pos total ;;
  let loss := Torch.neg (Torch.log loss) in
  Ok (VTensor (Torch.mean loss)).

End InfoNCE.

Module RobustInfoNCE.

(** The body is [pass]: the call returns [None]. *)
Definition compute (tau p q _lambda : R) (contrast_instance : ContrastInstance)
  : result value :=
  Ok VNone.

End RobustInfoNCE.

Module DebiasedInfoNCE.

(** Lines 72 to 84: everything up to [log_prob]. *)
Definition log_prob (tau tau_plus : R) (contrast_instance : ContrastInstance)
  : result (tensor * value) :=
  let '(anchor, sample, pos_mask, neg_mask) := unpack contrast_instance in
  neg_int <- mask_int neg_mask ;;
  let num_neg := Torch.sum neg_int in
  s <- similarity anchor sample ;;
  sim <- Torch.div s (Scalar tau) ;;
  let exp_sim := Torch.exp sim in
  pos_t <- as_tensor pos_mask ;;
  pos_e <- Torch.mul exp_sim pos_t ;;
  pos_sum <- Torch.sum_dim1 pos_e ;;
  pos_int <- mask_int pos_mask ;;
  pos_count <- Torch.sum_dim1 pos_int ;;
  pos <- Torch.div pos_sum pos_count ;;
  neg_t <- as_tensor neg_mask ;;
  neg_e <- Torch.mul exp_sim neg_t ;;
  neg_sum <- Torch.sum_dim1 neg_e ;;
  a <- Torch.mul (Torch.neg num_neg) (Scalar tau_plus) ;;
  a <- Torch.mul a pos ;;
  a <- Torch.add a neg_sum ;;
  ng <- Torch.div a (Scalar (1 - tau_plus)) ;;
  floor <- Torch.mul num_neg (Scalar (Rtrigo_def.exp (- 1 / tau))) ;;
  ng <- Torch.clamp_min ng floor ;;
  total <- Torch.add pos ng ;;
  total <- Torch.sum_dim1_keepdim total ;;
  lp <- Torch.sub sim (Torch.log total) ;;
  Ok (lp, pos_mask).

(** Lines 85 to 87: the masked mean of [log_prob] that is returned. *)
Definition masked_mean (log_prob : tensor) (pos_mask : value) : result value :=
  pos_mask <- as_tensor pos_mask ;;
  loss <- Torch.mul log_prob pos_mask ;;
  loss_sum <- Torch.sum_dim1 loss ;;
  pos_count <- Torch.sum_dim1 pos_mask ;;
  loss <- Torch.div loss_sum pos_count ;;
  Ok (VTensor (Torch.mean loss)).

Definition compute (tau tau_plus : R) (contrast_instance : ContrastInstance)
  : result value :=
  '(lp, pos_mask) <- log_prob tau tau_plus contrast_instance ;;
  masked_mean lp pos_mask.

(** The body is [pass]: the call returns [None]. *)
Definition compute_default_positive (tau tau_plus : R)
  (contrast_instance : ContrastInstance) : result value :=
  Ok VNone.

End DebiasedInfoNCE.

Module HardnessInfoNCE.

(** The body is [pass]: the call returns [None]. *)
Definition compute_default_positive (tau tau_plus beta : R)
  (contrast_instance : ContrastInstance) : result value :=
  Ok VNone.

End HardnessInfoNCE.

Module ReweightedInfoNCE.

Definition compute_default_positive (tau : R) (contrast_instance : ContrastInstance)
  : result value :=
  Raise (RuntimeError
    "Reweighted sampler does not support computation with default positive samples").

End ReweightedInfoNCE.

(** ** GCL/losses/jsd.py *)

Module JSD.

(** The default discriminator, [lambda x, y: x @ y.t()] *)
Definition default_discriminator (x y : tensor) : result tensor :=
  Torch.matmul_t x y.

Definition compute (discriminator : tensor -> tensor -> result tensor)
  (contrast_instance : ContrastInstance) : result value :=
  let '(anchor, sample, pos_mask, neg_mask) := unpack contrast_instance in
  neg_int <- mask_int neg_mask ;;
  let num_neg := Torch.sum neg_int in
  pos_int <- mask_int pos_mask ;;
  let num_pos := Torch.sum pos_int in
  similarity <- discriminator anchor sample ;;
  pos_mask <- as_tensor pos_mask ;;
  pos_sim <- Torch.mul (Torch.neg similarity) pos_mask ;;
  e_pos <- Torch.sub (Scalar (ln 2)) (F.softplus pos_sim) ;;
  E_pos <- Torch.div (Torch.sum e_pos) num_pos ;;
  neg_mask <- as_tensor neg_mask ;;
  neg_sim <- Torch.mul similarity neg_mask ;;
  e_neg <- Torch.add (F.softplus (Torch.neg neg_sim)) neg_sim ;;
  e_neg <- Torch.sub e_neg (Scalar (ln 2)) ;;
  E_neg <- Torch.div (Torch.sum e_neg) num_neg ;;
  r <- Torch.sub E_neg E_pos ;;
  Ok (VTensor r).

End JSD.

(** ** GCL/models/contrast_model.py *)

Definition is_none (v : value) : bool :=
  match v with
  | VNone => true
  | VTensor _ => false
  end.

(** The keyword arguments a contrast model passes to its sampler; an
    argument that is left out is [None]. *)
Record sampler_call : Type := mkCall {
  call_anchor : value;
  call_sample : value;
  call_pos_mask : value;
  call_neg_mask : value;
  call_extra_pos_mask : value;
  call_extra_neg_mask : value;
  call_neg_sample : value;
  call_batch : option (list Z)
}.

(** A sampler object: what [isinstance(sampler, DefaultSampler)] answers
    and what calling it returns.  The sampler classes live in
    GCL/models/sampler.py, which is not among the sources. *)
Record Sampler : Type := mkSampler {
  is_DefaultSampler : bool;
  sample_pairs : sampler_call -> result ContrastInstance
}.

Definition size0 (t : tensor) : result nat :=
  match t with
  | Scalar _ => Raise (IndexError "Dimension specified as 0 but tensor has no dimensions")
  | Vec v => Ok (length v)
  | Mat _ m => Ok (length m)
  end.

(** Modelled from the spec: the default sampler (section 4.1): anchor and
    sample must have the same number of rows, the positive mask is the
    identity matrix and the negative mask is ones minus identity, unless
    masks are supplied. *)
Definition DefaultSampler_call (c : sampler_call) : result ContrastInstance :=
  a <- as_tensor (call_anchor c) ;;
  s <- as_tensor (call_sample c) ;;
  n_a <- size0 a ;;
  n_s <- size0 s ;;
  if negb (n_a =? n_s)%nat then Raise ValueError
  else
    let pos := match call_pos_mask c with
               | VNone => Torch.eye n_a
               | VTensor p => p
               end in
    neg <- match call_neg_mask c with
           | VNone => Torch.sub (Scalar 1) pos
           | VTensor n => Ok n
           end ;;
    Ok (mkContrastInstance a s (VTensor pos) (VTensor neg)).

Definition DefaultSampler : Sampler := mkSampler true DefaultSampler_call.

(** [int_tensor.max().item()] *)
Definition max_item (l : list Z) : result Z :=
  match l with
  | [] => Raise (RuntimeError "max(): Expected reduction dim to be specified for input.numel() == 0")
  | x :: l' => Ok (fold_left Z.max l' x)
  end.

(** [a + b] and [a * 0.5] on what a loss returned *)
Definition py_add (a b : value) : result value :=
  a <- as_tensor a ;;
  b <- as_tensor b ;;
  r <- Torch.add a b ;;
  Ok (VTensor r).

Definition py_mul_float (a : value) (x : R) : result value :=
  a <- as_tensor a ;;
  r <- Torch.mul a (Scalar x) ;;
  Ok (VTensor r).

Definition py_assert (b : bool) : result unit :=
  if b then Ok tt else Raise AssertionError.

Module DualBranchContrast.

Section Model.

(** [K] is what [**self.kwargs] holds. *)
Variable K : Type.

Record model : Type := mkModel {
  loss : ContrastInstance -> K -> result value;
  mode : string;
  sampler : Sampler;
  kwargs : K
}.

Record inputs : Type := mkInputs {
  h1 : value;
  h2 : value;
  g1 : value;
  g2 : value;
  batch : option (list Z);
  h3 : value;
  h4 : value;
  extra_pos_mask : value;
  extra_neg_mask : value;
  pos_mask1 : value;
  pos_mask2 : value;
  neg_mask1 : value;
  neg_mask2 : value
}.

(** Lines 52 to 88: the sanity check and the two sampler calls. *)
Definition instances (self : model) (x : inputs)
  : result (ContrastInstance * ContrastInstance) :=
  let call := sample_pairs (sampler self) in
  if is_DefaultSampler (sampler self)
     && negb (is_none (extra_neg_mask x) && is_none (extra_pos_mask x))
  then Raise (RuntimeError
         "Default sampler does not support additional positive and negative samples")
  else if (mode self =? "L2L")%string then
    _ <- py_assert (negb (is_none (h1 x)) && negb (is_none (h2 x))) ;;
    ci1 <- call (mkCall (h1 x) (h2 x) (pos_mask1 x) (neg_mask1 x)
                   (extra_pos_mask x) (extra_neg_mask x) VNone None) ;;
    ci2 <- call (mkCall (h2 x) (h1 x) (pos_mask2 x) (neg_mask2 x)
                   (extra_pos_mask x) (extra_neg_mask x) VNone None) ;;
    Ok (ci1, ci2)
  else if (mode self =? "G2G")%string then
    _ <- py_assert (negb (is_none (g1 x)) && negb (is_none (g2 x))) ;;
    ci1 <- call (mkCall (g1 x) (g2 x) (pos_mask1 x) (neg_mask1 x)
                   (extra_pos_mask x) (extra_neg_mask x) VNone None) ;;
    ci2 <- call (mkCall (g2 x) (g1 x) (pos_mask2 x) (neg_mask2 x)
                   (extra_pos_mask x) (extra_neg_mask x) VNone None) ;;
    Ok (ci1, ci2)
  else
    single <- match batch x with
              | None => Ok true
              | Some b => m <- max_item b ;; Ok (m + 1 <=? 1)%Z
              end ;;
    if single : bool then
      _ <- py_assert (forallb (fun v => negb (is_none v))
                        [h1 x; h2 x; g1 x; g2 x; h3 x; h4 x]) ;;
      ci1 <- call (mkCall (g1 x) (h2 x) VNone VNone
                     (extra_pos_mask x) (extra_neg_mask x) (h4 x) None) ;;
      ci2 <- call (mkCall (g2 x) (h1 x) VNone VNone
                     (extra_pos_mask x) (extra_neg_mask x) (h3 x) None) ;;
      Ok (ci1, ci2)
    else
      _ <- py_assert (forallb (fun v => negb (is_none v))
                        [h1 x; h2 x; g1 x; g2 x]
                      && match batch x with Some _ => true | None => false end) ;;
      ci1 <- call (mkCall (g1 x) (h2 x) VNone VNone
                     (extra_pos_mask x) (extra_neg_mask x) VNone (batch x)) ;;
      ci2 <- call (mkCall (g2 x) (h1 x) VNone VNone
                     (extra_pos_mask x) (extra_neg_mask x) VNone (batch x)) ;;
      Ok (ci1, ci2).

(** Lines 90 and 91: the two direction losses [l1] and [l2]. *)
Definition direction_losses (self : model) (x : inputs) : result (value * value) :=
  '(ci1, ci2) <- instances self x ;;
  l1 <- loss self ci1 (kwargs self) ;;
  l2 <- loss self ci2 (kwargs self) ;;
  Ok (l1, l2).

(** Line 93: [(l1 + l2) * 0.5] *)
Definition average (l1 l2 : value) : result value :=
  s <- py_add l1 l2 ;;
  py_mul_float s 0.5.

Definition forward (self : model) (x : inputs) : result value :=
  '(l1, l2) <- direction_losses self x ;;
  average l1 l2.

End Model.

Arguments mkModel {K}.
Arguments loss {K}.
Arguments mode {K}.
Arguments sampler {K}.
Arguments kwargs {K}.
Arguments instances {K}.
Arguments direction_losses {K}.
Arguments forward {K}.

End DualBranchContrast.

(** ** GCL/eval/eval.py: get_split

    The ratios are Python floats, that is doubles.  A double is given here
    by the rational it denotes, and the sum and the products that
    [get_split] computes on floats are rounded to the nearest double, ties
    to even, as the machine rounds them.  The double that a decimal
    literal such as 0.7 denotes is [double (7 # 10)].  Sizes and indices
    are integers. *)

(** The integer nearest to a rational, ties to the even one *)
Definition Qround_half_even (x : Q) : Z :=
  let f := Qfloor x in
  match Qcompare (x - inject_Z f) (1 # 2) with
  | Lt => f
  | Gt => (f + 1)%Z
  | Eq => if Z.even f then f else (f + 1)%Z
  end.

(** [floor(log2 |x|)] for a rational that is not zero *)
Definition ilog2 (x : Q) : Z :=
  let e0 := (Z.log2 (Z.abs (Qnum x)) - Z.log2 (Zpos (Qden x)) - 1)%Z in
  (e0 + Z.log2 (Qfloor (Qabs x / 2 ^ e0)))%Z.

(** The double nearest to a rational: 53 significant bits and a binary
    exponent of -1074 at least (below 2^-1022 the doubles are evenly
    spaced).  The exponent is not bounded above: a result of magnitude
    2^1024 or more is what the machine holds as inf. *)
Definition double (x : Q) : Q :=
  if Qeq_bool x 0 then 0%Q
  else let e := Z.max (ilog2 x - 52) (-1074) in
       Qred (inject_Z (Qround_half_even (x / 2 ^ e)) * 2 ^ e).

Definition is_inf (x : Q) : bool := Qle_bool (2 ^ 1024) (Qabs x).

(** [float(n)]: what an int becomes when it meets a float *)
Definition py_float (n : Z) : result Q :=
  let x := double (inject_Z n) in
  if is_inf x then Raise (OverflowError "int too large to convert to float")
  else Ok x.

(** [n * x] for an int [n] and a float [x] *)
Definition int_mul_float (n : Z) (x : Q) : result Q :=
  nf <- py_float n ;;
  Ok (double (nf * x)).

(** [int(q)]: truncation toward zero *)
Definition py_int (q : Q) : Z := Z.quot (Qnum q) (Zpos (Qden q)).

(** [int(x)] for a float [x] *)
Definition int_of_float (x : Q) : result Z :=
  if is_inf x then Raise (OverflowError "cannot convert float infinity to integer")
  else Ok (py_int x).

(** One bound of a slice of a sequence of length [n]: a negative bound
    counts from the end, and the result is clipped to [0, n]. *)
Definition slice_bound (n : nat) (i : Z) : nat :=
  let len := Z.of_nat n in
  let j := if (i <? 0)%Z then (i + len)%Z else i in
  Z.to_nat (Z.min len (Z.max 0 j)).

(** [l[lo:hi]]; [None] is a bound that is left out. *)
Definition py_slice {A : Type} (l : list A) (lo hi : option Z) : list A :=
  let n := length l in
  let a := match lo with Some i => slice_bound n i | None => O end in
  let b := match hi with Some i => slice_bound n i | None => n end in
  firstn (b - a) (skipn a l).

(** A random generator: [torch.randperm(n)] draws a permutation of
    0, ..., n-1 and moves the generator on. *)
Record Generator : Type := mkGenerator {
  gen_state : Type;
  randperm : nat -> gen_state -> list nat * gen_state;
  randperm_perm : forall n g, Permutation (fst (randperm n g)) (seq 0 n)
}.

(** A mapping from 'train', 'valid' and 'test' to index lists, in the order
    the keys were inserted. *)
Definition split_dict : Type := list (string * list nat).

Definition lookup (d : split_dict) (key : string) : option (list nat) :=
  option_map snd (find (fun kv => (fst kv =? key)%string) d).

Inductive split_result : Type :=
| OneSplit (d : split_dict)
| ManySplits (ds : list split_dict).

Section GetSplit.

Variable G : Generator.

Definition torch_randperm (n : Z) (g : gen_state G)
  : result (list nat) * gen_state G :=
  if (n <? 0)%Z
  then (Raise (RuntimeError "randperm: n must be non-negative"), g)
  else let (p, g') := randperm G (Z.to_nat n) g in (Ok p, g').

(** The body of the loop, run [k] more times *)
Fixpoint split_loop (k : nat) (num_samples train_size test_size : Z)
  (out : list split_dict) (g : gen_state G)
  : result (list split_dict) * gen_state G :=
  match k with
  | O => (Ok out, g)
  | S k' =>
      match torch_randperm num_samples g with
      | (Raise e, g') => (Raise e, g')
      | (Ok indices, g') =>
          let d := [ ("train"%string, py_slice indices None (Some train_size));
                     ("valid"%string,
                       py_slice indices (Some train_size) (Some (test_size + train_size)%Z));
                     ("test"%string,
                       py_slice indices (Some (test_size + train_size)%Z) None) ] in
          split_loop k' num_samples train_size test_size (out ++ [d]) g'
      end
  end.

(** Lines 32 and 33: [int(num_samples * train_ratio)] and
    [int(num_samples * test_ratio)] *)
Definition split_sizes (num_samples : Z) (train_ratio test_ratio : Q)
  : result (Z * Z) :=
  train <- int_mul_float num_samples train_ratio ;;
  train_size <- int_of_float train ;;
  test <- int_mul_float num_samples test_ratio ;;
  test_size <- int_of_float test ;;
  Ok (train_size, test_size).

Definition get_split (num_samples num_splits : Z) (train_ratio test_ratio : Q)
  (g : gen_state G) : result split_result * gen_state G :=
  if negb (Qle_bool 1 (double (train_ratio + test_ratio))) then
    match split_sizes num_samples train_ratio test_ratio with
    | Raise e => (Raise e, g)
    | Ok (train_size, test_size) =>
        match split_loop (Z.to_nat num_splits) num_samples train_size test_size [] g with
        | (Raise e, g') => (Raise e, g')
        | (Ok out, g') =>
            if (1 <? num_splits)%Z then (Ok (ManySplits out), g')
            else match out with
                 | d :: _ => (Ok (OneSplit d), g')
                 | [] => (Raise (IndexError "list index out of range"), g')
                 end
        end
    end
  else (Raise AssertionError, g).

End GetSplit.

(** ** Calls with keyword arguments *)

(** The Python objects the evaluators are built from. *)
Inductive pyobj : Type :=
| PNone
| PBool (b : bool)
| PCallable (name : string)
| PList (items : list pyobj)
| PDict (items : list (string * pyobj))
| PInstance (class : string).

Definition truthy (o : pyobj) : bool :=
  match o with
  | PNone => false
  | PBool b => b
  | PList l => negb (length l =? 0)%nat
  | PDict l => negb (length l =? 0)%nat
  | PCallable _ | PInstance _ => true
  end.

Definition callable (o : pyobj) : bool :=
  match o with
  | PCallable _ => true
  | _ => false
  end.

(** A parameter of a signature: its name and its default, if it has one. *)
Record param : Type := mkParam {
  param_name : string;
  param_default : option pyobj
}.

Definition kw_lookup (kwargs : list (string * pyobj)) (name : string) : option pyobj :=
  option_map snd (find (fun kv => (fst kv =? name)%string) kwargs).

Definition has_param (sig : list param) (name : string) : bool :=
  existsb (fun p => (param_name p =? name)%string) sig.

(** Binding the keyword arguments of a call to a signature without
    [**kwargs]: a keyword that names no parameter is a TypeError, and so is
    a parameter that gets no value and has no default. *)
Fixpoint first_unexpected (sig : list param) (kwargs : list (string * pyobj))
  : option string :=
  match kwargs with
  | [] => None
  | (k, _) :: rest => if has_param sig k then first_unexpected sig rest else Some k
  end.

Fixpoint bind_params (sig : list param) (kwargs : list (string * pyobj))
  : result (list (string * pyobj)) :=
  match sig with
  | [] => Ok []
  | p :: sig' =>
      match kw_lookup kwargs (param_name p), param_default p with
      | Some v, _ | None, Some v =>
          rest <- bind_params sig' kwargs ;;
          Ok ((param_name p, v) :: rest)
      | None, None =>
          Raise (TypeError ("__init__() missing 1 required positional argument: '"
                            ++ param_name p ++ "'"))
      end
  end.

Definition call_with_keywords (sig : list param) (kwargs : list (string * pyobj))
  : result (list (string * pyobj)) :=
  match first_unexpected sig kwargs with
  | Some k =>
      Raise (TypeError ("__init__() got an unexpected keyword argument '" ++ k ++ "'"))
  | None => bind_params sig kwargs
  end.

Definition arg (bound : list (string * pyobj)) (name : string) : pyobj :=
  match kw_lookup bound name with
  | Some v => v
  | None => PNone
  end.

(** ** GCL/eval/eval.py: BaseSKLearnEvaluator *)

Module BaseSKLearnEvaluator.

(** The parameters of [__init__] after [self] *)
Definition signature : list param :=
  [ mkParam "evaluator" None;
    mkParam "metric" None;
    mkParam "split" None;
    mkParam "param_grid" (Some PNone);
    mkParam "search_cv" (Some PNone);
    mkParam "refit" (Some PNone) ].

(** The attributes [__init__] sets on [self] *)
Definition body (self : list (string * pyobj)) (a : list (string * pyobj))
  : list (string * pyobj) :=
  let metric := arg a "metric" in
  let metric := if callable metric then PList [metric] else metric in
  self ++ [ ("evaluator", arg a "evaluator");
            ("param_grid", arg a "param_grid");
            ("split", arg a "split");
            ("search_cv", arg a "search_cv");
            ("refit", arg a "refit");
            ("metric", metric) ]%string.

Definition __init__ (self : list (string * pyobj)) (kwargs : list (string * pyobj))
  : result (list (string * pyobj)) :=
  a <- call_with_keywords signature kwargs ;;
  Ok (body self a).

End BaseSKLearnEvaluator.

(** ** GCL/eval/svm.py *)

Module SVMEvaluator.

Definition __init__ (metrics split linear params param_grid
                 grid_search_scoring grid_search_params : pyobj)
  : result (list (string * pyobj)) :=
  let evaluator := if truthy linear then PInstance "LinearSVC" else PInstance "SVC" in
  let self := [ ("evaluator", evaluator) ]%string in
  BaseSKLearnEvaluator.__init__ self
    [ ("evaluator", evaluator);
      ("metrics", metrics);
      ("split", split);
      ("params", params);
      ("param_grid", param_grid);
      ("grid_search_scoring", grid_search_scoring);
      ("grid_search_params", grid_search_params) ]%string.

End SVMEvaluator.

(** ** The formulas of the specification

    Masks are given as boolean matrices and turned into the 0/1 tensors
    the losses work on. *)

Definition mask_tensor (ncols : nat) (M : list (list bool)) : tensor :=
  Mat ncols (map (map b2r) M).

Definition Rmean (l : list R) : R := Rsum l / INR (length l).

Section Formulas.

Variables A S : list (list R).
Variables P N : list (list bool).

Definition entry (M : list (list bool)) (i j : nat) : bool :=
  nth j (nth i M []) false.

(** The columns [j] of row [i] with [M[i,j] = 1] *)
Definition columns (M : list (list bool)) (i : nat) : list nat :=
  filter (fun j => entry M i j) (seq 0 (length S)).

(** The columns [k] of row [i] with [P[i,k] = 1] or [N[i,k] = 1] *)
Definition columns_either (i : nat) : list nat :=
  filter (fun k => entry P i k || entry N i k) (seq 0 (length S)).

(** The pairs [(i, j)] with [M[i,j] = 1] *)
Definition pairs (M : list (list bool)) : list (nat * nat) :=
  flat_map (fun i => map (pair i) (columns M i)) (seq 0 (length A)).

(** A row divided by its Euclidean norm *)
Definition unit_row (r : list R) : list R :=
  map (fun x => x / F.norm2 r) r.

(** InfoNCE: the dot product of the unit-normalized rows, divided by tau *)
Definition unit_sim (tau : R) (i j : nat) : R :=
  dot (unit_row (nth i A [])) (unit_row (nth j S [])) / tau.

(** The same with the rows normalized the way [F.normalize] does it *)
Definition normalized_sim (tau : R) (i j : nat) : R :=
  dot (F.normalize_row (nth i A [])) (F.normalize_row (nth j S [])) / tau.

(** mean over anchor rows of
    -(1/|P_row|) * sum over positive columns j of
       [sim(i,j) - log(sum over columns k, positive or negative, of exp(sim(i,k)))] *)
Definition InfoNCE_formula (sim : nat -> nat -> R) : R :=
  Rmean (map (fun i =>
                - (1 / INR (length (columns P i)))
                * Rsum (map (fun j =>
                               sim i j
                               - ln (Rsum (map (fun k => Rtrigo_def.exp (sim i k))
                                             (columns_either i))))
                          (columns P i)))
           (seq 0 (length A))).

(** JSD: the raw dot product of an anchor row and a sample row *)
Definition raw_sim (i j : nat) : R :=
  dot (nth i A []) (nth j S []).

(** E_neg - E_pos, each a mean over the pairs of one mask *)
Definition JSD_formula : R :=
  let E_pos := Rmean (map (fun '(i, j) => ln 2 - F.softplus1 (- raw_sim i j))
                        (pairs P)) in
  let E_neg := Rmean (map (fun '(i, j) =>
                             F.softplus1 (- raw_sim i j) + raw_sim i j - ln 2)
                        (pairs N)) in
  E_neg - E_pos.

End Formulas.

(** A [rows] x [cols] matrix *)
Definition has_shape {X : Type} (rows cols : nat) (M : list (list X)) : Prop :=
  length M = rows /\ Forall (fun r => length r = cols) M.

(** Every row of the mask holds a 1 *)
Definition every_row_has_one (M : list (list bool)) : bool :=
  forallb (existsb (fun b => b)) M.

(** The mask holds a 1 somewhere *)
Definition mask_has_one (M : list (list bool)) : bool :=
  existsb (existsb (fun b => b)) M.

(** No entry is 1 in both masks *)
Definition disjoint_masks (P N : list (list bool)) : bool :=
  forallb (fun pn => forallb (fun bb => negb (fst bb && snd bb))
                       (combine (fst pn) (snd pn)))
          (combine P N).

(** The identity mask and its complement, as [torch.eye(n)] and [1 - eye] *)
Definition ones_minus_eye (n : nat) : tensor :=
  Mat n (map (fun i => map (fun j => 1 - b2r (i =? j)%nat) (seq 0 n)) (seq 0 n)).

(** ** Tabulated matrices and sample inputs *)

(** The matrix whose entry [(i, j)] is [f i j] *)
Definition tab {X : Type} (n m : nat) (f : nat -> nat -> X) : list (list X) :=
  map (fun i => map (f i) (seq 0 m)) (seq 0 n).

(** A generator that always draws the identity permutation *)
Definition identity_generator : Generator :=
  mkGenerator unit (fun n g => (seq 0 n, g)) (fun n g => Permutation_refl _).

(** Two one-hot rows, the identity mask and its complement *)
Definition one_hot_rows : list (list R) := [[0; 1]; [1; 0]].
Definition identity_mask : list (list bool) := [[true; false]; [false; true]].
Definition off_diagonal_mask : list (list bool) := [[false; true]; [true; false]].

(** A dual-branch model in L2L mode with the default sampler and the
    InfoNCE loss at temperature 1/2, and a call with one embedding matrix
    for both branches. *)
Definition L2L_InfoNCE_model : DualBranchContrast.model unit :=
  DualBranchContrast.mkModel (fun ci _ => InfoNCE.compute (1 / 2) ci)
    "L2L" DefaultSampler tt.

Definition symmetric_inputs : DualBranchContrast.inputs :=
  let h := VTensor (Mat 2 one_hot_rows) in
  DualBranchContrast.mkInputs h h VNone VNone None VNone VNone
    VNone VNone VNone VNone VNone VNone.


(** One anchor and one sample, paired by both masks *)
Definition single_row : list (list R) := [[1]].
Definition single_mask : list (list bool) := [[true]].

(** An anchor row of norm 1e-13 against the samples 1 and -1, the first
    positive and the second negative *)
Definition short_row : list (list R) := [[1e-13]].
Definition two_samples : list (list R) := [[1]; [-1]].
Definition first_column : list (list bool) := [[true; false]].
Definition second_column : list (list bool) := [[false; true]].

(** ** What a split mapping is expected to be

    The mapping has the keys 'train', 'valid' and 'test', in this order;
    its lists hold [a], [b] and the remaining indices of 0, ..., n-1, each
    index once. *)
Definition partitions (n a b : nat) (d : split_dict) : Prop :=
  exists train valid test : list nat,
    d = [("train", train); ("valid", valid); ("test", test)]%string
    /\ Permutation (train ++ valid ++ test) (seq 0 n)
    /\ length train = a /\ length valid = b /\ length test = (n - a - b)%nat.

(** ** GCL/models/contrast_model.py: the other contrast models *)

(** [DualBranchContrast.__init__]: the sampler that is given, else the
    default sampler for L2L and G2G without intra-view negatives, else what
    [get_dense_sampler] returns (it lives in GCL/models, which is not among
    the sources, and is a parameter here). *)
Definition DualBranchContrast__init__ {K : Type}
  (get_dense_sampler : string -> bool -> result Sampler)
  (loss : ContrastInstance -> K -> result value) (mode : string)
  (intraview_negs : bool) (sampler : option Sampler) (kwargs : K)
  : result (DualBranchContrast.model K) :=
  match sampler with
  | Some s => Ok (DualBranchContrast.mkModel loss mode s kwargs)
  | None =>
      if ((mode =? "L2L")%string || (mode =? "G2G")%string) && negb intraview_negs
      then Ok (DualBranchContrast.mkModel loss mode DefaultSampler kwargs)
      else
        s <- get_dense_sampler mode intraview_negs ;;
        Ok (DualBranchContrast.mkModel loss mode s kwargs)
  end.

(** The call with the two branches exchanged: [h1] with [h2], [g1] with
    [g2], [h3] with [h4] and the masks of direction 1 with those of
    direction 2. *)
Definition swap_branches (x : DualBranchContrast.inputs) : DualBranchContrast.inputs :=
  DualBranchContrast.mkInputs
    (DualBranchContrast.h2 x) (DualBranchContrast.h1 x)
    (DualBranchContrast.g2 x) (DualBranchContrast.g1 x)
    (DualBranchContrast.batch x)
    (DualBranchContrast.h4 x) (DualBranchContrast.h3 x)
    (DualBranchContrast.extra_pos_mask x) (DualBranchContrast.extra_neg_mask x)
    (DualBranchContrast.pos_mask2 x) (DualBranchContrast.pos_mask1 x)
    (DualBranchContrast.neg_mask2 x) (DualBranchContrast.neg_mask1 x).

Module SingleBranchContrast.

Section Model.

Variable K : Type.

Record model : Type := mkModel {
  loss : ContrastInstance -> K -> result value;
  mode : string;
  sampler : Sampler;
  kwargs : K
}.

Definition __init__ (get_dense_sampler : string -> bool -> result Sampler)
  (loss : ContrastInstance -> K -> result value) (mode : string)
  (intraview_negs : bool) (kwargs : K) : result model :=
  _ <- py_assert (mode =? "G2L")%string ;;
  s <- get_dense_sampler mode intraview_negs ;;
  Ok (mkModel loss mode s kwargs).

Definition forward (self : model) (h g : value) (batch : option (list Z))
  (hn extra_pos_mask extra_neg_mask : value) : result value :=
  ci <- match batch with
        | None =>
            _ <- py_assert (negb (is_none hn)) ;;
            sample_pairs (sampler self) (mkCall g h VNone VNone VNone VNone hn None)
        | Some b =>
            sample_pairs (sampler self) (mkCall g h VNone VNone VNone VNone VNone (Some b))
        end ;;
  loss self ci (kwargs self).

End Model.

Arguments mkModel {K}.
Arguments loss {K}.
Arguments mode {K}.
Arguments sampler {K}.
Arguments kwargs {K}.
Arguments __init__ {K}.
Arguments forward {K}.

End SingleBranchContrast.

(** [ContrastInstance(anchor=a, sample=s)] on two arguments that may be
    [None]; the models below only build it from arguments they have
    asserted not to be [None]. *)
Definition plain_instance (a s : value) : result ContrastInstance :=
  a <- as_tensor a ;;
  s <- as_tensor s ;;
  Ok (mkContrastInstance a s VNone VNone).

(** The sampler called with an anchor and a sample only, and with a batch
    vector besides *)
Definition call_pair (a s : value) : sampler_call :=
  mkCall a s VNone VNone VNone VNone VNone None.

Definition call_batched (a s : value) (batch : list Z) : sampler_call :=
  mkCall a s VNone VNone VNone VNone VNone (Some batch).

Module BootstrapContrast.

Record model : Type := mkModel {
  loss : ContrastInstance -> result value;
  mode : string;
  sampler : Sampler
}.

Record inputs : Type := mkInputs {
  h1_pred : value;
  h2_pred : value;
  h1_target : value;
  h2_target : value;
  g1_pred : value;
  g2_pred : value;
  g1_target : value;
  g2_target : value;
  batch : option (list Z);
  extra_pos_mask : value
}.

Definition all_given (l : list value) : bool :=
  forallb (fun v => negb (is_none v)) l.

(** Lines 113 to 129: the two contrast instances. *)
Definition instances (self : model) (x : inputs)
  : result (ContrastInstance * ContrastInstance) :=
  let call := sample_pairs (sampler self) in
  if (mode self =? "L2L")%string then
    _ <- py_assert (all_given [h1_pred x; h2_pred x; h1_target x; h2_target x]) ;;
    ci1 <- call (call_pair (h1_target x) (h2_pred x)) ;;
    ci2 <- call (call_pair (h2_target x) (h1_pred x)) ;;
    Ok (ci1, ci2)
  else if (mode self =? "G2G")%string then
    _ <- py_assert (all_given [g1_pred x; g2_pred x; g1_target x; g2_target x]) ;;
    ci1 <- call (call_pair (g1_target x) (g2_pred x)) ;;
    ci2 <- call (call_pair (g2_target x) (g1_pred x)) ;;
    Ok (ci1, ci2)
  else
    _ <- py_assert (all_given [h1_pred x; h2_pred x; g1_target x; g2_target x]) ;;
    let single_graph :=
      ci1 <- plain_instance (g1_target x) (h2_pred x) ;;
      ci2 <- plain_instance (g2_target x) (h1_pred x) ;;
      Ok (ci1, ci2) in
    match batch x with
    | None => single_graph
    | Some b =>
        m <- max_item b ;;
        if (m + 1 <=? 1)%Z then single_graph
        else
          ci1 <- call (call_batched (g1_target x) (h2_pred x) b) ;;
          ci2 <- call (call_batched (g2_target x) (h1_pred x) b) ;;
          Ok (ci1, ci2)
    end.

Definition forward (self : model) (x : inputs) : result value :=
  '(ci1, ci2) <- instances self x ;;
  l1 <- loss self ci1 ;;
  l2 <- loss self ci2 ;;
  DualBranchContrast.average l1 l2.

(** The call with the two views exchanged *)
Definition swap_views (x : inputs) : inputs :=
  mkInputs (h2_pred x) (h1_pred x) (h2_target x) (h1_target x)
    (g2_pred x) (g1_pred x) (g2_target x) (g1_target x)
    (batch x) (extra_pos_mask x).

End BootstrapContrast.

Module WithinEmbedContrast.

Definition forward (loss : ContrastInstance -> result value) (h1 h2 : tensor)
  : result value :=
  l1 <- loss (mkContrastInstance h1 h2 VNone VNone) ;;
  l2 <- loss (mkContrastInstance h2 h1 VNone VNone) ;;
  DualBranchContrast.average l1 l2.

End WithinEmbedContrast.

(** ** The other loss methods of infonce.py and jsd.py *)

(** [t.mean(dim=1)] *)
Definition torch_mean_dim1 (t : tensor) : result tensor :=
  match t with
  | Mat c m => Ok (Vec (map (fun r => Rsum r / INR c) m))
  | _ => Raise Torch.dim_out_of_range
  end.

Definition HardnessInfoNCE_compute (tau tau_plus beta : R)
  (contrast_instance : ContrastInstance) : result value :=
  let '(anchor, sample, pos_mask, neg_mask) := unpack contrast_instance in
  neg_int <- mask_int neg_mask ;;
  let num_neg := Torch.sum neg_int in
  s <- similarity anchor sample ;;
  sim <- Torch.div s (Scalar tau) ;;
  let exp_sim := Torch.exp sim in
  pos_t <- as_tensor pos_mask ;;
  pos_e <- Torch.mul exp_sim pos_t ;;
  pos_sum <- Torch.sum_dim1 pos_e ;;
  pos_int <- mask_int pos_mask ;;
  pos_count <- Torch.sum_dim1 pos_int ;;
  pos <- Torch.div pos_sum pos_count ;;
  neg_t <- as_tensor neg_mask ;;
  sim_neg <- Torch.mul sim neg_t ;;
  scaled <- Torch.mul (Scalar beta) sim_neg ;;
  let imp := Torch.exp scaled in
  neg_e <- Torch.mul exp_sim neg_t ;;
  weighted <- Torch.mul imp neg_e ;;
  weighted_sum <- Torch.sum_dim1 weighted ;;
  imp_mean <- torch_mean_dim1 imp ;;
  reweight_neg <- Torch.div weighted_sum imp_mean ;;
  a <- Torch.mul (Torch.neg num_neg) (Scalar tau_plus) ;;
  a <- Torch.mul a pos ;;
  a <- Torch.add a reweight_neg ;;
  ng <- Torch.div a (Scalar (1 - tau_plus)) ;;
  floor <- Torch.mul num_neg (Scalar (Rtrigo_def.exp (- 1 / tau))) ;;
  ng <- Torch.clamp_min ng floor ;;
  total <- Torch.add pos ng ;;
  total <- Torch.sum_dim1_keepdim total ;;
  log_prob <- Torch.sub sim (Torch.log total) ;;
  loss <- Torch.mul log_prob pos_t ;;
  loss_sum <- Torch.sum_dim1 loss ;;
  pos_total <- Torch.sum_dim1 pos_t ;;
  loss <- Torch.div loss_sum pos_total ;;
  Ok (VTensor (Torch.mean loss)).

Definition JSD_compute_default_positive
  (discriminator : tensor -> tensor -> result tensor)
  (contrast_instance : ContrastInstance) : result value :=
  let '(anchor, sample, _, _) := unpack contrast_instance in
  num_nodes <- size0 anchor ;;
  let pos_mask := Torch.eye num_nodes in
  neg_mask <- Torch.sub (Scalar 1) pos_mask ;;
  let num_neg := Torch.sum (Torch.int neg_mask) in
  let num_pos := Torch.sum (Torch.int pos_mask) in
  similarity <- discriminator anchor sample ;;
  pos_sim <- Torch.mul (Torch.neg similarity) pos_mask ;;
  e_pos <- Torch.sub (Scalar (ln 2)) (F.softplus pos_sim) ;;
  E_pos <- Torch.div (Torch.sum e_pos) num_pos ;;
  neg_sim <- Torch.mul similarity neg_mask ;;
  e_neg <- Torch.add (F.softplus (Torch.neg neg_sim)) neg_sim ;;
  e_neg <- Torch.sub e_neg (Scalar (ln 2)) ;;
  E_neg <- Torch.div (Torch.sum e_neg) num_neg ;;
  r <- Torch.sub E_neg E_pos ;;
  Ok (VTensor r).

Module DebiasedJSD.

Definition compute (discriminator : tensor -> tensor -> result tensor)
  (tau_plus : R) (contrast_instance : ContrastInstance) : result value :=
  let '(anchor, sample, pos_mask, neg_mask) := unpack contrast_instance in
  neg_int <- mask_int neg_mask ;;
  let num_neg := Torch.sum neg_int in
  pos_int <- mask_int pos_mask ;;
  let num_pos := Torch.sum pos_int in
  similarity <- discriminator anchor sample ;;
  pos_mask <- as_tensor pos_mask ;;
  pos_sim <- Torch.mul similarity pos_mask ;;
  E_pos <- Torch.sub (Scalar (ln 2)) (F.softplus (Torch.neg pos_sim)) ;;
  correction <- Torch.add (F.softplus (Torch.neg pos_sim)) pos_sim ;;
  correction <- Torch.mul (Scalar (tau_plus / (1 - tau_plus))) correction ;;
  E_pos <- Torch.sub E_pos correction ;;
  E_pos <- Torch.div (Torch.sum E_pos) num_pos ;;
  neg_mask <- as_tensor neg_mask ;;
  neg_sim <- Torch.mul similarity neg_mask ;;
  E_neg <- Torch.add (F.softplus (Torch.neg neg_sim)) neg_sim ;;
  E_neg <- Torch.sub E_neg (Scalar (ln 2)) ;;
  E_neg <- Torch.div E_neg (Scalar (1 - tau_plus)) ;;
  E_neg <- Torch.div (Torch.sum E_neg) num_neg ;;
  r <- Torch.sub E_neg E_pos ;;
  Ok (VTensor r).

End DebiasedJSD.

(** A matrix of reals turned into a mask tensor as it is *)
Definition real_mask (ncols : nat) (M : list (list R)) : value :=
  VTensor (Mat ncols M).

(** [t.T] *)
Definition torch_T (t : tensor) : tensor :=
  match t with
  | Mat c m => Mat (length m) (map (fun j => map (fun r => nth j r 0) m) (seq 0 c))
  | other => other
  end.

Definition ReweightedInfoNCE_compute (tau : R) (contrast_instance : ContrastInstance)
  : result value :=
  let '(anchor, sample, pos_mask, neg_mask) := unpack contrast_instance in
  s <- similarity anchor sample ;;
  s <- Torch.div s (Scalar tau) ;;
  let sim := Torch.exp s in
  n <- size0 anchor ;;
  neg_mask <- as_tensor neg_mask ;;
  neg_count <- Torch.sum_dim1 neg_mask ;;
  norm_factor <- Torch.div (Scalar (INR n)) neg_count ;;
  pos <- Torch.diag sim ;;
  masked <- Torch.mul neg_mask sim ;;
  scaled <- Torch.mul norm_factor (torch_T masked) ;;
  let neg := torch_T scaled in
  total <- Torch.add pos neg ;;
  loss <- Torch.div pos total ;;
  let loss := Torch.neg (Torch.log loss) in
  Ok (VTensor (Torch.mean loss)).

(** ** GCL/eval/eval.py: from_PyG_split *)

(** A boolean mask of rank 1 or 2 *)
Inductive bool_tensor : Type :=
| BVec (l : list bool)
| BMat (ncols : nat) (rows : list (list bool)).

(** The fields of a PyG data object that [from_PyG_split] reads.  A [Data]
    object keeps no attribute whose value is [None] (storing [None] under
    a name removes the attribute), so a mask is either a tensor or absent;
    an absent mask is [None] here. *)
Record Data : Type := mkData {
  train_mask : option bool_tensor;
  val_mask : option bool_tensor;
  test_mask : option bool_tensor;
  num_nodes : nat
}.

(** [torch.arange(n)[mask]]: the positions at which a mask of length [n]
    is set *)
Definition select (n : nat) (mask : bool_tensor) : result (list nat) :=
  match mask with
  | BVec l =>
      if (length l =? n)%nat
      then Ok (filter (fun i => nth i l false) (seq 0 n))
      else Raise (IndexError "The shape of the mask does not match the shape of the indexed tensor")
  | BMat _ _ => Raise (IndexError "too many indices for tensor of dimension 1")
  end.

(** [mask[:, i]] *)
Definition column (mask : bool_tensor) (i : nat) : result bool_tensor :=
  match mask with
  | BMat c rows =>
      if (i <? c)%nat then Ok (BVec (map (fun r => nth i r false) rows))
      else Raise (IndexError "index is out of bounds for dimension 1")
  | BVec _ => Raise (IndexError "too many indices for tensor of dimension 1")
  end.

(** [s[:-5]] *)
Definition drop_last5 (s : string) : string :=
  string_of_list_ascii (py_slice (list_ascii_of_string s) None (Some (-5)%Z)).

(** What the data object stores under one of the three mask names *)
Definition data_item (data : Data) (name : string) : option bool_tensor :=
  if (name =? "train_mask")%string then train_mask data
  else if (name =? "val_mask")%string then val_mask data
  else if (name =? "test_mask")%string then test_mask data
  else None.

Definition no_attribute (name : string) : error :=
  AttributeError ("'GlobalStorage' object has no attribute '" ++ name ++ "'").

(** [data.name]: [Ok (Some m)] is the tensor stored under the name;
    [Ok None] would be a value that is [None], which a [Data] object never
    yields; reading an absent attribute raises AttributeError. *)
Definition getattr (data : Data) (name : string) : result (option bool_tensor) :=
  match data_item data name with
  | Some m => Ok (Some m)
  | None => Raise (no_attribute name)
  end.

(** One run of the inner loop: the mapping for split [i] *)
Fixpoint split_entries (data : Data) (i : nat) (names : list string)
  : result split_dict :=
  match names with
  | [] => Ok []
  | name :: rest =>
      match data_item data name with
      | None => Raise (KeyError name)
      | Some m =>
          idx <- match m with
                 | BVec _ => select (num_nodes data) m
                 | BMat _ _ => col <- column m i ;; select (num_nodes data) col
                 end ;;
          others <- split_entries data i rest ;;
          Ok ((drop_last5 name, idx) :: others)
      end
  end.

Fixpoint split_columns (data : Data) (columns : list nat) : result (list split_dict) :=
  match columns with
  | [] => Ok []
  | i :: rest =>
      d <- split_entries data i ["train_mask"; "val_mask"; "test_mask"]%string ;;
      ds <- split_columns data rest ;;
      Ok (d :: ds)
  end.

(** Line 59 reads the three masks in the order train, test, val and line
    60 raises a ValueError if one of the values read is [None]. *)
Definition from_PyG_split (data : Data) : result split_result :=
  train <- getattr data "train_mask" ;;
  test <- getattr data "test_mask" ;;
  val <- getattr data "val_mask" ;;
  match train, test, val with
  | Some tr, Some te, Some va =>
      let num_samples := num_nodes data in
      match tr with
      | BVec _ =>
          train <- select num_samples tr ;;
          valid <- select num_samples va ;;
          test <- select num_samples te ;;
          Ok (OneSplit [("train", train); ("valid", valid); ("test", test)]%string)
      | BMat c _ =>
          out <- split_columns data (seq 0 c) ;;
          Ok (ManySplits out)
      end
  | _, _, _ => Raise ValueError
  end.

(** ** GCL/eval/eval.py: BaseEvaluator.__init__ *)

(** The [stop_metric] argument: [None], an integer, or another object *)
Inductive stop_arg : Type :=
| StopNone
| StopInt (k : Z)
| StopObject (o : pyobj).

(** [isinstance(stop_metric, int)]; a bool is an int *)
Definition as_int (s : stop_arg) : option Z :=
  match s with
  | StopInt k => Some k
  | StopObject (PBool b) => Some (if b then 1 else 0)%Z
  | _ => None
  end.

Definition stop_value (s : stop_arg) : pyobj :=
  match s with
  | StopNone => PNone
  | StopInt _ => PNone
  | StopObject o => o
  end.

(** [l[k]] with an integer index, negative ones counting from the end *)
Definition py_index {X : Type} (l : list X) (k : Z) : result X :=
  let j := if (k <? 0)%Z then (k + Z.of_nat (length l))%Z else k in
  if (j <? 0)%Z then Raise (IndexError "list index out of range")
  else match nth_error l (Z.to_nat j) with
       | Some x => Ok x
       | None => Raise (IndexError "list index out of range")
       end.

Module BaseEvaluator.

Record attributes : Type := mkAttributes {
  cv : pyobj;
  split : pyobj;
  metric : pyobj;
  stop_metric : pyobj
}.

Definition __init__ (split metric : pyobj) (stop_metric : stop_arg) (cv : pyobj)
  : result attributes :=
  let stop_metric :=
    match cv, stop_metric with
    | PNone, StopNone => StopInt 0
    | _, _ => stop_metric
    end in
  let wrapped := if callable metric then PList [metric] else metric in
  match as_int stop_metric with
  | Some k =>
      match wrapped with
      | PList items =>
          chosen <- py_index items k ;;
          Ok (mkAttributes cv split metric chosen)
      | _ => Raise ValueError
      end
  | None => Ok (mkAttributes cv split metric (stop_value stop_metric))
  end.

End BaseEvaluator.

(** ** What the index lists of a converted split are expected to be *)

(** [idx] lists, in increasing order, the positions at which [l] is set. *)
Definition marks (l : list bool) (idx : list nat) : Prop :=
  StronglySorted lt idx /\ forall i, In i idx <-> nth_error l i = Some true.

(** What split [k] reads of a mask: the mask itself when it has rank 1,
    its column [k] when it has rank 2 *)
Definition view (m : bool_tensor) (k : nat) : list bool :=
  match m with
  | BVec l => l
  | BMat _ rows => map (fun r => nth k r false) rows
  end.

(** A mask for [n] nodes that has rank 1, or rank 2 with at least [c]
    columns *)
Definition mask_fits (n c : nat) (m : bool_tensor) : Prop :=
  match m with
  | BVec l => length l = n
  | BMat c' rows => (c <= c')%nat /\ length rows = n
  end.

(** ** utils.py: set_differ and set_intersect

    The tensors are integer tensors of rank 1, as lists of integers. *)

Fixpoint insert_sorted (x : Z) (l : list Z) : list Z :=
  match l with
  | [] => [x]
  | y :: l' => if (x <=? y)%Z then x :: l else y :: insert_sorted x l'
  end.

Definition sort_ascending (l : list Z) : list Z := fold_right insert_sorted [] l.

(** One copy of every run of equal neighbours *)
Fixpoint drop_repeats (l : list Z) : list Z :=
  match l with
  | x :: l' =>
      match l' with
      | y :: _ => if (x =? y)%Z then drop_repeats l' else x :: drop_repeats l'
      | [] => [x]
      end
  | [] => []
  end.

(** [t.unique(return_counts=True, dim=0)]: the distinct entries in
    ascending order, and how often each occurs *)
Definition unique_with_counts (t : list Z) : list Z * list nat :=
  let uniques := drop_repeats (sort_ascending t) in
  (uniques, map (count_occ Z.eq_dec t) uniques).

(** [t[mask]] for a boolean mask *)
Definition masked {X : Type} (t : list X) (mask : list bool) : list X :=
  map fst (filter snd (combine t mask)).

Definition set_differ (s1 s2 : list Z) : list Z :=
  let combined := s1 ++ s2 in
  let '(uniques, counts) := unique_with_counts combined in
  let difference := masked uniques (map (fun c => (c =? 1)%nat) counts) in
  difference.

Definition set_intersect (s1 s2 : list Z) : list Z :=
  let combined := s1 ++ s2 in
  let '(uniques, counts) := unique_with_counts combined in
  let intersection := masked uniques (map (fun c => (1 <? c)%nat) counts) in
  intersection.

(** ** utils.py: activations and augmentors *)

Module Utils.

(** The exceptions these functions raise *)
Inductive exception : Type :=
| KeyError (key : string)
| NotImplementedError (msg : string)
| IndexError
| AssertionError.

Inductive outcome (A : Type) : Type :=
| Returned (a : A)
| Raised (e : exception).

Arguments Returned {A} a.
Arguments Raised {A} e.

Definition and_then {A B : Type} (r : outcome A) (k : A -> outcome B) : outcome B :=
  match r with
  | Returned a => k a
  | Raised e => Raised e
  end.

(** [d[key]] on a dict given as the list of its items *)
Definition getitem {V : Type} (d : list (string * V)) (key : string) : outcome V :=
  match find (fun kv => (fst kv =? key)%string) d with
  | Some kv => Returned (snd kv)
  | None => Raised (KeyError key)
  end.

(** The classes of torch.nn that [get_activation] knows *)
Inductive activation : Type :=
| ReLU | Hardtanh | ELU | LeakyReLU | PReLU | RReLU.

Definition activations : list (string * activation) :=
  [ ("relu", ReLU); ("hardtanh", Hardtanh); ("elu", ELU);
    ("leakyrelu", LeakyReLU); ("prelu", PReLU); ("rrelu", RReLU) ]%string.

Definition get_activation (name : string) : outcome activation :=
  getitem activations name.

Section Augmentors.

(** [V] is the type of the values of the parameter dict. *)
Variable V : Type.

(** The augmentors of GCL.augmentors, as the calls that build them; [>>] is
    the composition of two augmentors. *)
Inductive augmentor : Type :=
| EdgeRemoving (pe : V)
| EdgeAdding (pe : V)
| NodeDropping (pn : V)
| RWSampling (num_seeds walk_length : V)
| PPRDiffusion (eps : V) (use_cache : bool)
| MarkovDiffusion (sp_eps : V) (use_cache : bool)
| Identity
| FeatureMasking (pf : V)
| FeatureDropout (pf : V)
| Rshift (a b : augmentor).

(** [f'{prefix}{view_id}'] *)
Definition with_view (prefix : string) (view_id : Z) : string :=
  (prefix ++ DecimalString.NilZero.string_of_int (Z.to_int view_id))%string.

Definition get_augmentor (aug_name : string) (view_id : Z)
  (param : list (string * V)) : outcome augmentor :=
  if (aug_name =? "ER")%string then
    and_then (getitem param (with_view "drop_edge_prob" view_id))
      (fun pe => Returned (EdgeRemoving pe))
  else if (aug_name =? "EA")%string then
    and_then (getitem param (with_view "add_edge_prob" view_id))
      (fun pe => Returned (EdgeAdding pe))
  else if (aug_name =? "ND")%string then
    and_then (getitem param (with_view "drop_node_prob" view_id))
      (fun pn => Returned (NodeDropping pn))
  else if (aug_name =? "RWS")%string then
    and_then (getitem param "num_seeds")
      (fun num_seeds =>
         and_then (getitem param "walk_length")
           (fun walk_length => Returned (RWSampling num_seeds walk_length)))
  else if (aug_name =? "PPR")%string then
    and_then (getitem param "sp_eps")
      (fun eps => Returned (PPRDiffusion eps false))
  else if (aug_name =? "MKD")%string then
    and_then (getitem param "sp_eps")
      (fun sp_eps => Returned (MarkovDiffusion sp_eps false))
  else if (aug_name =? "ORI")%string then
    Returned Identity
  else if (aug_name =? "FM")%string then
    and_then (getitem param (with_view "drop_feat_prob" view_id))
      (fun pf => Returned (FeatureMasking pf))
  else if (aug_name =? "FD")%string then
    and_then (getitem param (with_view "drop_feat_prob" view_id))
      (fun pf => Returned (FeatureDropout pf))
  else
    Raised (NotImplementedError ("unsupported augmentation name: " ++ aug_name)).

(** [schema.split('+')] *)
Fixpoint split_plus (schema : string) : list string :=
  match schema with
  | EmptyString => [EmptyString]
  | String c rest =>
      if (c =? "+")%char then EmptyString :: split_plus rest
      else match split_plus rest with
           | first :: others => String c first :: others
           | [] => [String c EmptyString]
           end
  end.

(** [[get_augmentor(x, view_id, param) for x in augs]] *)
Fixpoint get_augmentors (augs : list string) (view_id : Z)
  (param : list (string * V)) : outcome (list augmentor) :=
  match augs with
  | [] => Returned []
  | x :: rest =>
      and_then (get_augmentor x view_id param)
        (fun a =>
           and_then (get_augmentors rest view_id param)
             (fun others => Returned (a :: others)))
  end.

Definition get_compositional_augmentor (schema : string) (view_id : Z)
  (param : list (string * V)) : outcome augmentor :=
  let augs := split_plus schema in
  and_then (get_augmentors augs view_id param)
    (fun augs =>
       match augs with
       | aug :: others => Returned (fold_left Rshift others aug)
       | [] => Raised IndexError
       end).

End Augmentors.

Arguments Identity {V}.
Arguments get_augmentor {V}.
Arguments get_augmentors {V}.
Arguments get_compositional_augmentor {V}.

(** The names [get_augmentor] knows *)
Definition augmentor_names : list string :=
  ["ER"; "EA"; "ND"; "RWS"; "PPR"; "MKD"; "ORI"; "FM"; "FD"]%string.

(** ['+'.join(names)] *)
Fixpoint join_plus (names : list string) : string :=
  match names with
  | [] => EmptyString
  | [x] => x
  | x :: rest => (x ++ "+" ++ join_plus rest)%string
  end.

Fixpoint has_plus (s : string) : bool :=
  match s with
  | EmptyString => false
  | String c rest => (c =? "+")%char || has_plus rest
  end.

(** *** load_node_dataset *)

(** The steps of the transform and the dataset classes of
    torch_geometric and ogb, as the calls that build them *)
Inductive transform_step : Type :=
| NormalizeFeatures
| ToSparseTensor
| ToDense.

Inductive dataset : Type :=
| Coauthor (root name : string) (transform : list transform_step)
| WikiCS (root : string) (transform : list transform_step)
| Amazon (root name : string) (transform : list transform_step)
| PygNodePropPredDataset (root name : string) (transform : list transform_step)
| CitationFull (root name : string) (transform : list transform_step)
| Planetoid (root name : string) (transform : list transform_step).

Definition node_dataset_names : list string :=
  ["Cora"; "CiteSeer"; "PubMed"; "DBLP"; "Karate"; "WikiCS"; "Coauthor-CS";
   "Coauthor-Phy"; "Amazon-Computers"; "Amazon-Photo"; "ogbn-arxiv";
   "ogbg-code"]%string.

Definition mem (x : string) (l : list string) : bool :=
  existsb (String.eqb x) l.

Section Datasets.

(** [osp.expanduser('~')] and [osp.join] *)
Variable home : string.
Variable join : string -> string -> string.

(** The result is [None] when no branch returns. *)
Definition load_node_dataset (path name : string) (to_sparse_tensor to_dense : bool)
  : outcome (option dataset) :=
  if negb (mem name node_dataset_names) then Raised AssertionError
  else
    let name := if (name =? "DBLP")%string then "dblp"%string else name in
    let root_path := home in
    let path := join root_path path in
    let transform := [NormalizeFeatures] in
    let transform := if to_sparse_tensor then transform ++ [ToSparseTensor]
                     else transform in
    let transform := if to_dense then transform ++ [ToDense] else transform in
    if (name =? "Coauthor-CS")%string then
      Returned (Some (Coauthor (join path "Coauthor-CS") "cs" transform))
    else if (name =? "Coauthor-Phy")%string then
      Returned (Some (Coauthor (join path "Coauthor-Phy") "physics" transform))
    else if (name =? "WikiCS")%string then
      Returned (Some (WikiCS (join path "WikiCS") transform))
    else if (name =? "Amazon-Computers")%string then
      Returned (Some (Amazon (join path "Amazon-Computers") "computers" transform))
    else if (name =? "Amazon-Photo")%string then
      Returned (Some (Amazon (join path "Amazon-Photo") "photo" transform))
    else if String.prefix "ogbn" name then
      Returned (Some (PygNodePropPredDataset (join path "OGB") name transform))
    else if (name =? "dblp")%string then
      Returned (Some (CitationFull path name transform))
    else if mem name ["Cora"; "CiteSeer"; "PubMed"]%string then
      Returned (Some (Planetoid path name transform))
    else Returned None.

End Datasets.

End Utils.

(** ** Sample models and inputs *)

Definition inputs_with_extra_mask : DualBranchContrast.inputs :=
  let h := VTensor (Mat 2 one_hot_rows) in
  DualBranchContrast.mkInputs h h VNone VNone None VNone VNone
    (VTensor (Torch.eye 2)) VNone VNone VNone VNone VNone.

Definition two_view_inputs : DualBranchContrast.inputs :=
  DualBranchContrast.mkInputs
    (VTensor (Mat 2 one_hot_rows)) (VTensor (Mat 2 [[1; 0]; [1; 0]]))
    VNone VNone None VNone VNone VNone VNone VNone VNone VNone VNone.

(** A G2L model with a dense sampler (one that is not the default sampler)
    and a call with node embeddings, graph embeddings and a batch vector
    of zeros, but without [h3] and [h4] *)
Definition G2L_model : DualBranchContrast.model unit :=
  DualBranchContrast.mkModel (fun ci _ => InfoNCE.compute (1 / 2) ci)
    "G2L" (mkSampler false DefaultSampler_call) tt.

Definition one_graph_inputs : DualBranchContrast.inputs :=
  let h := VTensor (Mat 2 one_hot_rows) in
  let g := VTensor (Mat 2 [[1; 1]]) in
  DualBranchContrast.mkInputs h h g g (Some [0; 0]%Z) VNone VNone
    VNone VNone VNone VNone VNone VNone.

(** The batch vector is absent, or names more than one graph. *)
Definition plain_batch (batch : option (list Z)) : Prop :=
  match batch with
  | None => True
  | Some b => exists m, max_item b = Ok m /\ (1 < m + 1)%Z
  end.

Definition G2L_single_model : SingleBranchContrast.model unit :=
  SingleBranchContrast.mkModel (fun ci _ => InfoNCE.compute (1 / 2) ci)
    "G2L" (mkSampler false DefaultSampler_call) tt.

(** A bootstrap model in L2L mode with the default sampler and the InfoNCE
    loss, called with two views of two nodes *)
Definition bootstrap_model : BootstrapContrast.model :=
  BootstrapContrast.mkModel (InfoNCE.compute (1 / 2)) "L2L" DefaultSampler.

Definition bootstrap_inputs : BootstrapContrast.inputs :=
  let u := VTensor (Mat 2 one_hot_rows) in
  let v := VTensor (Mat 2 [[1; 0]; [1; 0]]) in
  BootstrapContrast.mkInputs u v u v VNone VNone VNone VNone None VNone.

(** * Theorems *)

(** ** Rounding to a double *)

Section Rounding.

Local Open Scope Q_scope.

Lemma pow2_pos (e : Z) : 0 < 2 ^ e.
Proof. apply Qpower_0_lt. reflexivity. Qed.

Lemma pow2_nonzero (e : Z) : ~ 2 ^ e == 0.
Proof. pose proof (pow2_pos e). Lqa.lra. Qed.

Lemma pow2_plus (a b : Z) : 2 ^ (a + b) == 2 ^ a * 2 ^ b.
Proof. apply Qpower_plus. discriminate. Qed.

Lemma pow2_Z (n : Z) : (0 <= n)%Z -> inject_Z (2 ^ n) == 2 ^ n.
Proof. intros H. now rewrite Zpower_Qpower. Qed.

Lemma pow2_le (a b : Z) : (a <= b)%Z -> 2 ^ a <= 2 ^ b.
Proof. intros H. apply Qpower_le_compat_l; [exact H | discriminate]. Qed.

Lemma pow2_lt (a b : Z) : (a < b)%Z -> 2 ^ a < 2 ^ b.
Proof. intros H. apply Qpower_lt_compat_l; [exact H | reflexivity]. Qed.

Lemma pow2_lt_inv (a b : Z) : 2 ^ a < 2 ^ b -> (a < b)%Z.
Proof. intros H. apply (Qpower_lt_compat_l_inv 2); [exact H | reflexivity]. Qed.

Lemma pow2_le_inv (a b : Z) : 2 ^ a <= 2 ^ b -> (a <= b)%Z.
Proof. intros H. apply (Qpower_le_compat_l_inv 2); [exact H | reflexivity]. Qed.

(** Scaling by a power of two and back *)
Lemma scale_back (x : Q) (e : Z) : x / 2 ^ e * 2 ^ e == x.
Proof. field. apply pow2_nonzero. Qed.

Lemma scale_le (x y : Q) (e : Z) : x <= y -> x / 2 ^ e <= y / 2 ^ e.
Proof.
  intros H. unfold Qdiv. apply Qmult_le_compat_r; [exact H |].
  apply Qinv_le_0_compat. apply Qlt_le_weak, pow2_pos.
Qed.

Lemma scale_pow2 (k e : Z) : 2 ^ k / 2 ^ e == 2 ^ (k - e).
Proof. symmetry. apply Qpower_minus. discriminate. Qed.

Lemma unscale_le (x y : Q) (e : Z) : x <= y -> x * 2 ^ e <= y * 2 ^ e.
Proof.
  intros H. apply Qmult_le_compat_r; [exact H |]. apply Qlt_le_weak, pow2_pos.
Qed.

(** Rounding to the nearest integer *)
Lemma Qround_half_even_cases (y : Q) :
  Qround_half_even y = Qfloor y \/ Qround_half_even y = (Qfloor y + 1)%Z.
Proof.
  unfold Qround_half_even.
  destruct (Qcompare _ _); [destruct (Z.even _) | |]; auto.
Qed.

Lemma Qround_half_even_ge (j : Z) (y : Q) :
  inject_Z j <= y -> (j <= Qround_half_even y)%Z.
Proof.
  intros H. apply Qfloor_resp_le in H. rewrite Qfloor_Z in H.
  destruct (Qround_half_even_cases y) as [-> | ->]; lia.
Qed.

Lemma Qround_half_even_le (j : Z) (y : Q) :
  y <= inject_Z j -> (Qround_half_even y <= j)%Z.
Proof.
  intros H. pose proof (Qfloor_resp_le _ _ H) as Hf. rewrite Qfloor_Z in Hf.
  destruct (Z.eq_dec (Qfloor y) j) as [Heq | Hne].
  - unfold Qround_half_even. rewrite Heq.
    destruct (Qcompare_spec (y - inject_Z j) (1 # 2)) as [E | E | E].
    + Lqa.lra.
    + lia.
    + Lqa.lra.
  - destruct (Qround_half_even_cases y) as [-> | ->]; lia.
Qed.

Lemma Qround_half_even_upper (y : Q) :
  inject_Z (Qround_half_even y) <= y + (1 # 2).
Proof.
  pose proof (Qfloor_le y) as Hf.
  unfold Qround_half_even.
  destruct (Qcompare_spec (y - inject_Z (Qfloor y)) (1 # 2)) as [E | E | E].
  - destruct (Z.even _); [Lqa.lra |]. rewrite inject_Z_plus.
    change (inject_Z 1) with 1. Lqa.lra.
  - Lqa.lra.
  - rewrite inject_Z_plus. change (inject_Z 1) with 1. Lqa.lra.
Qed.

Lemma Qround_half_even_Z (j : Z) : Qround_half_even (inject_Z j) = j.
Proof.
  apply Z.le_antisymm.
  - apply Qround_half_even_le. apply Qle_refl.
  - apply Qround_half_even_ge. apply Qle_refl.
Qed.

Lemma ilog2_spec (x : Q) :
  ~ x == 0 -> 2 ^ ilog2 x <= Qabs x /\ Qabs x < 2 ^ (ilog2 x + 1).
Proof.
  intros Hx. unfold ilog2.
  set (p := Z.abs (Qnum x)). set (q := Zpos (Qden x)).
  set (e0 := (Z.log2 p - Z.log2 q - 1)%Z).
  assert (0 < p)%Z as Hp.
  { subst p. destruct x as [n d]. unfold Qeq in Hx. cbn in *. lia. }
  assert (Qabs x == inject_Z p / inject_Z q) as Habs.
  { destruct x as [n d]. subst p q. cbn [Qabs Qnum Qden]. apply Qmake_Qdiv. }
  assert (0 < inject_Z q) as Hq by (subst q; reflexivity).
  destruct (Z.log2_spec p Hp) as [Hp1 Hp2].
  destruct (Z.log2_spec q) as [Hq1 Hq2]; [subst q; lia |].
  assert (2 ^ e0 <= Qabs x) as Hlow.
  { rewrite Habs. apply Qle_shift_div_l; [exact Hq |].
    apply Qle_trans with (2 ^ e0 * 2 ^ (Z.log2 q + 1)).
    - apply Qmult_le_l; [apply pow2_pos |].
      rewrite <- pow2_Z by (pose proof (Z.log2_nonneg q); lia).
      rewrite <- Zle_Qle. unfold Z.succ in Hq2. lia.
    - rewrite <- pow2_plus. replace (e0 + (Z.log2 q + 1))%Z with (Z.log2 p) by (subst e0; lia).
      rewrite <- pow2_Z by apply Z.log2_nonneg.
      rewrite <- Zle_Qle. exact Hp1. }
  set (y := Qabs x / 2 ^ e0).
  assert (1 <= y) as Hy.
  { subst y. apply Qle_shift_div_l; [apply pow2_pos |]. now rewrite Qmult_1_l. }
  set (t := Qfloor y).
  assert (1 <= t)%Z as Ht.
  { subst t. change 1%Z with (Qfloor 1). now apply Qfloor_resp_le. }
  destruct (Z.log2_spec t) as [Ht1 Ht2]; [lia |].
  assert (Qabs x == y * 2 ^ e0) as Hxy by (subst y; now rewrite scale_back).
  split.
  - rewrite pow2_plus, Hxy, Qmult_comm. apply unscale_le.
    apply Qle_trans with (inject_Z t); [| apply Qfloor_le].
    rewrite <- pow2_Z by apply Z.log2_nonneg. now rewrite <- Zle_Qle.
  - replace (e0 + Z.log2 t + 1)%Z with ((Z.log2 t + 1) + e0)%Z by lia.
    rewrite pow2_plus, Hxy.
    apply Qmult_lt_compat_r; [apply pow2_pos |].
    apply Qlt_le_trans with (inject_Z (t + 1)); [apply Qlt_floor |].
    rewrite <- pow2_Z by (pose proof (Z.log2_nonneg t); lia).
    rewrite <- Zle_Qle. unfold Z.succ in Ht2. lia.
Qed.

Lemma pos_nonzero (x : Q) : 0 < x -> ~ x == 0.
Proof. intros H E. rewrite E in H. discriminate. Qed.

Lemma ilog2_ge (k : Z) (x : Q) : 2 ^ k <= x -> (k <= ilog2 x)%Z.
Proof.
  intros H. pose proof (pow2_pos k) as Hk.
  assert (0 < x) as Hx by Lqa.lra.
  destruct (ilog2_spec x (pos_nonzero x Hx)) as [_ Hup].
  rewrite Qabs_pos in Hup by Lqa.lra.
  assert (2 ^ k < 2 ^ (ilog2 x + 1)) as Hlt by Lqa.lra.
  apply pow2_lt_inv in Hlt. lia.
Qed.

Lemma ilog2_le (k : Z) (x : Q) : 0 < x -> x <= 2 ^ k -> (ilog2 x <= k)%Z.
Proof.
  intros Hx H.
  destruct (ilog2_spec x (pos_nonzero x Hx)) as [Hlow _].
  rewrite Qabs_pos in Hlow by Lqa.lra.
  apply pow2_le_inv. Lqa.lra.
Qed.

(** What [double] computes on a number that is not zero *)
Lemma double_eq (x : Q) :
  ~ x == 0 ->
  let e := Z.max (ilog2 x - 52) (-1074) in
  double x == inject_Z (Qround_half_even (x / 2 ^ e)) * 2 ^ e.
Proof.
  intros Hx e. unfold double.
  destruct (Qeq_bool x 0) eqn:E.
  - apply Qeq_bool_iff in E. contradiction.
  - fold e. apply Qred_correct.
Qed.

Lemma double_zero (x : Q) : x == 0 -> double x == 0.
Proof.
  intros Hx. unfold double. apply Qeq_bool_iff in Hx. rewrite Hx. reflexivity.
Qed.

Lemma double_nonneg (x : Q) : 0 <= x -> 0 <= double x.
Proof.
  intros Hx. destruct (Qeq_dec x 0) as [E | E].
  - rewrite (double_zero x E). apply Qle_refl.
  - rewrite (double_eq x E).
    apply Qmult_le_0_compat; [| apply Qlt_le_weak, pow2_pos].
    change 0 with (inject_Z 0). rewrite <- Zle_Qle.
    apply Qround_half_even_ge. change (inject_Z 0) with 0.
    apply Qle_shift_div_l; [apply pow2_pos |]. now rewrite Qmult_0_l.
Qed.

Lemma double_nonpos (x : Q) : x <= 0 -> double x <= 0.
Proof.
  intros Hx. destruct (Qeq_dec x 0) as [E | E].
  - rewrite (double_zero x E). apply Qle_refl.
  - rewrite (double_eq x E).
    set (e := Z.max _ _). pose proof (pow2_pos e) as He.
    assert (Qround_half_even (x / 2 ^ e) <= 0)%Z as Hm.
    { apply Qround_half_even_le. change (inject_Z 0) with 0.
      apply Qle_shift_div_r; [exact He |]. now rewrite Qmult_0_l. }
    rewrite Zle_Qle in Hm. change (inject_Z 0) with 0 in Hm.
    Lqa.nra.
Qed.

(** Rounding does not cross a power of two that is a double. *)
Lemma double_ge_pow2 (k : Z) (x : Q) :
  (-1074 <= k)%Z -> 2 ^ k <= x -> 2 ^ k <= double x.
Proof.
  intros Hk H. pose proof (pow2_pos k) as Hpk.
  assert (0 < x) as Hx by Lqa.lra.
  rewrite (double_eq x (pos_nonzero x Hx)).
  pose proof (ilog2_ge k x H) as Hil.
  destruct (ilog2_spec x (pos_nonzero x Hx)) as [Hlow _].
  rewrite Qabs_pos in Hlow by Lqa.lra.
  set (e := Z.max (ilog2 x - 52) (-1074)).
  destruct (Z.le_gt_cases e k) as [Hek | Hek].
  - assert (2 ^ (k - e) <= Qround_half_even (x / 2 ^ e))%Z as Hm.
    { apply Qround_half_even_ge. rewrite pow2_Z by lia.
      rewrite <- scale_pow2. now apply scale_le. }
    rewrite Zle_Qle, pow2_Z in Hm by lia.
    apply (unscale_le _ _ e) in Hm. rewrite <- pow2_plus in Hm.
    now replace (k - e + e)%Z with k in Hm by lia.
  - assert (e = (ilog2 x - 52)%Z) as He by lia.
    assert (2 ^ 52 <= Qround_half_even (x / 2 ^ e))%Z as Hm.
    { apply Qround_half_even_ge. rewrite pow2_Z by lia.
      replace 52%Z with (ilog2 x - e)%Z by lia.
      rewrite <- scale_pow2. now apply scale_le. }
    rewrite Zle_Qle, pow2_Z in Hm by lia.
    apply (unscale_le _ _ e) in Hm. rewrite <- pow2_plus in Hm.
    apply Qle_trans with (2 ^ (52 + e)); [apply pow2_le; lia | exact Hm].
Qed.

Lemma double_le_pow2 (k : Z) (x : Q) :
  (-1074 <= k)%Z -> x <= 2 ^ k -> double x <= 2 ^ k.
Proof.
  intros Hk H. pose proof (pow2_pos k) as Hpk.
  destruct (Qlt_le_dec 0 x) as [Hx | Hx].
  - rewrite (double_eq x (pos_nonzero x Hx)).
    pose proof (ilog2_le k x Hx H) as Hil.
    set (e := Z.max (ilog2 x - 52) (-1074)).
    assert (e <= k)%Z as Hek by lia.
    assert (Qround_half_even (x / 2 ^ e) <= 2 ^ (k - e))%Z as Hm.
    { apply Qround_half_even_le. rewrite pow2_Z by lia.
      rewrite <- scale_pow2. now apply scale_le. }
    rewrite Zle_Qle, pow2_Z in Hm by lia.
    apply (unscale_le _ _ e) in Hm. rewrite <- pow2_plus in Hm.
    now replace (k - e + e)%Z with k in Hm by lia.
  - pose proof (double_nonpos x Hx). Lqa.lra.
Qed.

(** An integer below 2^53 is a double. *)
Lemma double_Z (n : Z) : (0 <= n < 2 ^ 53)%Z -> double (inject_Z n) == inject_Z n.
Proof.
  intros [Hn0 Hn]. destruct (Z.eq_dec n 0) as [-> | Hne]; [reflexivity |].
  assert (0 < inject_Z n) as Hx.
  { change 0 with (inject_Z 0). rewrite <- Zlt_Qlt. lia. }
  rewrite (double_eq _ (pos_nonzero _ Hx)).
  assert (ilog2 (inject_Z n) <= 53)%Z as Hil.
  { apply ilog2_le; [exact Hx |]. rewrite <- pow2_Z by lia.
    rewrite <- Zle_Qle. lia. }
  destruct (ilog2_spec _ (pos_nonzero _ Hx)) as [Hlow _].
  rewrite Qabs_pos in Hlow by Lqa.lra.
  assert (ilog2 (inject_Z n) < 53)%Z as Hil'.
  { destruct (Z.eq_dec (ilog2 (inject_Z n)) 53) as [E | E]; [| lia].
    rewrite E, <- pow2_Z, <- Zle_Qle in Hlow by lia. lia. }
  set (e := Z.max (ilog2 (inject_Z n) - 52) (-1074)).
  assert (e <= 0)%Z as He by lia.
  assert (inject_Z n / 2 ^ e == inject_Z (n * 2 ^ (- e))) as Hy.
  { rewrite inject_Z_mult, pow2_Z by lia.
    rewrite Qpower_opp. reflexivity. }
  assert (Qround_half_even (inject_Z n / 2 ^ e) = (n * 2 ^ (- e))%Z) as ->.
  { apply Z.le_antisymm.
    - apply Qround_half_even_le. rewrite Hy. apply Qle_refl.
    - apply Qround_half_even_ge. rewrite Hy. apply Qle_refl. }
  rewrite <- Hy. apply scale_back.
Qed.

Lemma double_lt_1 (x : Q) : double x < 1 -> x < 1.
Proof.
  intros H. destruct (Qlt_le_dec x 1) as [Hx | Hx]; [exact Hx |].
  pose proof (double_ge_pow2 0 x ltac:(lia) Hx) as Hd.
  change (2 ^ 0) with 1 in Hd. Lqa.lra.
Qed.

(** The integer part of a rounded number exceeds the number by less than
    one part in 2^53. *)
Lemma double_floor_upper (x : Q) :
  0 <= x -> inject_Z (Qfloor (double x)) <= x * (1 + 2 ^ (-53)).
Proof.
  intros Hx0. pose proof (pow2_pos (-53)) as Hp53.
  destruct (Qeq_dec x 0) as [E | E].
  { assert (Qfloor (double x) = 0%Z) as ->.
    { unfold double. apply Qeq_bool_iff in E. rewrite E. reflexivity. }
    change (inject_Z 0) with 0. Lqa.nra. }
  assert (0 < x) as Hx by Lqa.lra.
  destruct (ilog2_spec x E) as [Hlow Hup]. rewrite Qabs_pos in Hlow, Hup by Lqa.lra.
  destruct (Z.le_gt_cases (-1074) (ilog2 x - 52)) as [Hn | Hs].
  - apply Qle_trans with (double x); [apply Qfloor_le |].
    rewrite (double_eq x E).
    replace (Z.max (ilog2 x - 52) (-1074)) with (ilog2 x - 52)%Z by lia.
    set (e := (ilog2 x - 52)%Z). set (y := x / 2 ^ e).
    assert (2 ^ 52 <= y) as Hy.
    { subst y. replace 52%Z with (ilog2 x - e)%Z by (subst e; lia).
      rewrite <- scale_pow2. now apply scale_le. }
    pose proof (Qround_half_even_upper y) as Hm.
    assert (x == y * 2 ^ e) as Hxy by (subst y; now rewrite scale_back).
    assert ((1 # 2) <= y * 2 ^ (-53)) as Hhalf.
    { apply Qle_trans with (2 ^ 52 * 2 ^ (-53)).
      - rewrite <- pow2_plus. apply Qle_refl.
      - apply Qmult_le_compat_r; [exact Hy | Lqa.lra]. }
    pose proof (pow2_pos e) as He.
    apply Qle_trans with ((y + (1 # 2)) * 2 ^ e); [now apply unscale_le |].
    apply Qle_trans with ((y + y * 2 ^ (-53)) * 2 ^ e).
    + apply unscale_le. Lqa.lra.
    + apply Qle_lteq. right. rewrite Hxy. ring.
  - assert (double x <= 2 ^ (-1021)) as Hd.
    { apply double_le_pow2; [lia |].
      apply Qle_trans with (2 ^ (ilog2 x + 1)); [Lqa.lra | apply pow2_le; lia]. }
    pose proof (double_nonneg x Hx0) as Hd0.
    assert (Qfloor (double x) = 0%Z) as ->.
    { assert (2 ^ (-1021) < 1) as H1 by (change 1 with (2 ^ 0); apply pow2_lt; lia).
      apply Z.le_antisymm.
      - assert (Qfloor (double x) < 1)%Z; [| lia].
        rewrite Zlt_Qlt. apply Qle_lt_trans with (double x); [apply Qfloor_le |].
        change (inject_Z 1) with 1. Lqa.lra.
      - change 0%Z with (Qfloor 0). now apply Qfloor_resp_le. }
    change (inject_Z 0) with 0. Lqa.nra.
Qed.

Lemma double_ge_1 (x : Q) : 1 <= x -> 1 <= double x.
Proof. intros H. apply (double_ge_pow2 0); [lia | exact H]. Qed.

(** The doubles of some decimal literals and the operations of [get_split]
    on them: [10 * 0.7] is 7.0 (a tie, rounded to even) although the
    double 0.7 is below 7/10, [int(100 * 0.29)] is 28, and [0.7 + 0.3] is
    1.0 although the two doubles sum to less than 1. *)
Lemma double_examples :
  double (1 # 10) = 3602879701896397 # 36028797018963968
  /\ double (7 # 10) = 3152519739159347 # 4503599627370496
  /\ double (29 # 100) = 5224175567749775 # 18014398509481984
  /\ double (3 # 10) = 5404319552844595 # 18014398509481984
  /\ double (10 * double (7 # 10)) = 7
  /\ double (100 * double (29 # 100)) = 8162774324609023 # 281474976710656
  /\ py_int (double (100 * double (29 # 100))) = 28%Z
  /\ double (7 # 10) + double (3 # 10) < 1
  /\ double (double (7 # 10) + double (3 # 10)) = 1.
Proof. vm_compute. repeat split. Qed.

End Rounding.


(** ** Unsupported and unfinished loss methods *)

(** C7: for every temperature and every contrast instance,
    [ReweightedInfoNCE.compute_default_positive] raises its RuntimeError
    and returns nothing. *)
Theorem ReweightedInfoNCE_default_positive_raises :
  forall (tau : R) (ci : ContrastInstance),
    ReweightedInfoNCE.compute_default_positive tau ci
    = Raise (RuntimeError
        "Reweighted sampler does not support computation with default positive samples")
    /\ raises (ReweightedInfoNCE.compute_default_positive tau ci).
Proof.
  intros tau ci. split.
  - reflexivity.
  - eexists. reflexivity.
Qed.

(** C2: the three unfinished methods, [RobustInfoNCE.compute],
    [DebiasedInfoNCE.compute_default_positive] and
    [HardnessInfoNCE.compute_default_positive], raise nothing: for every
    configuration and every contrast instance each of them returns [None]. *)
Theorem unfinished_losses_return_None :
  forall (tau tau_plus beta p q lam : R) (ci : ContrastInstance),
    RobustInfoNCE.compute tau p q lam ci = Ok VNone
    /\ DebiasedInfoNCE.compute_default_positive tau tau_plus ci = Ok VNone
    /\ HardnessInfoNCE.compute_default_positive tau tau_plus beta ci = Ok VNone
    /\ ~ raises (RobustInfoNCE.compute tau p q lam ci)
    /\ ~ raises (DebiasedInfoNCE.compute_default_positive tau tau_plus ci)
    /\ ~ raises (HardnessInfoNCE.compute_default_positive tau tau_plus beta ci).
Proof.
  intros. repeat split; try reflexivity; intros [e He]; discriminate He.
Qed.

(** ** Evaluators *)

Example BaseSKLearnEvaluator_init_accepts_its_own_keywords :
  BaseSKLearnEvaluator.__init__ []
    [ ("evaluator", PInstance "LinearSVC"); ("metric", PCallable "f1");
      ("split", PInstance "KFold") ]%string
  = Ok [ ("evaluator", PInstance "LinearSVC"); ("param_grid", PNone);
         ("split", PInstance "KFold"); ("search_cv", PNone); ("refit", PNone);
         ("metric", PList [PCallable "f1"]) ]%string.
Proof. reflexivity. Qed.

(** C10: whatever arguments [SVMEvaluator] is constructed with, the call of
    the superclass initialiser raises a TypeError, because the keyword
    [metrics] names none of its parameters; no instance is returned. *)
Theorem SVMEvaluator_init_always_raises :
  forall metrics split linear params param_grid gs_scoring gs_params : pyobj,
    SVMEvaluator.__init__ metrics split linear params param_grid gs_scoring gs_params
    = Raise (TypeError "__init__() got an unexpected keyword argument 'metrics'")
    /\ first_unexpected BaseSKLearnEvaluator.signature
         [ ("metrics", metrics); ("params", params);
           ("grid_search_scoring", gs_scoring);
           ("grid_search_params", gs_params) ]%string
       = Some "metrics"%string.
Proof.
  intros. split.
  - unfold SVMEvaluator.__init__, BaseSKLearnEvaluator.__init__, call_with_keywords.
    destruct (truthy linear); reflexivity.
  - reflexivity.
Qed.

(** ** get_split *)

Lemma split_loop_raise_free (G : Generator) (k : nat) :
  forall (n : nat) (tr te : Z) (out : list split_dict) (g : gen_state G),
  exists out' g',
    split_loop G k (Z.of_nat n) tr te out g = (Ok out', g')
    /\ length out' = (length out + k)%nat.
Proof.
  induction k as [|k IH]; intros n tr te out g; simpl.
  - exists out, g. split; [reflexivity | lia].
  - unfold torch_randperm.
    destruct (Z.ltb_spec (Z.of_nat n) 0) as [Hneg | _]; [lia |].
    destruct (randperm G (Z.to_nat (Z.of_nat n)) g) as [p g1].
    match goal with
    | |- context [split_loop G k _ _ _ (out ++ [?d]) g1] =>
        destruct (IH n tr te (out ++ [d]) g1) as (out' & g' & Heq & Hlen)
    end.
    exists out', g'. split; [exact Heq |].
    rewrite Hlen, length_app. simpl. lia.
Qed.

(** C9: when the two ratios sum to 1 or more, [get_split] raises the
    AssertionError of its first line, for every number of samples and of
    splits, and the generator is left as it was: no permutation is drawn. *)
Theorem get_split_rejects_ratios :
  forall (G : Generator) (num_samples num_splits : Z) (train_ratio test_ratio : Q)
         (g : gen_state G),
    (1 <= train_ratio + test_ratio)%Q ->
    get_split G num_samples num_splits train_ratio test_ratio g
    = (Raise AssertionError, g).
Proof.
  intros G n k tr te g Hsum.
  unfold get_split.
  apply double_ge_1, Qle_bool_iff in Hsum. rewrite Hsum. reflexivity.
Qed.


Lemma get_split_rejects_ratios_witness :
  (1 <= (3 # 5) + (1 # 2))%Q
  /\ get_split identity_generator 10 1 (3 # 5) (1 # 2) tt = (Raise AssertionError, tt).
Proof.
  split.
  - unfold Qle. simpl. lia.
  - apply (get_split_rejects_ratios identity_generator 10 1 (3 # 5) (1 # 2) tt).
    unfold Qle. simpl. lia.
Defined.

(** With 10 samples, one split and sizes 5 and 4, the mapping holds 5, 4
    and 1 indices. *)
Lemma get_split_sizes_5_4 (G : Generator) (g : gen_state G) (tr te : Q) :
  Qle_bool 1 (double (tr + te)) = false ->
  split_sizes 10 tr te = Ok (5, 4)%Z ->
  exists (train valid test : list nat) (g' : gen_state G),
    get_split G 10 1 tr te g
    = (Ok (OneSplit [("train", train); ("valid", valid); ("test", test)]%string), g')
    /\ length train = 5%nat /\ length valid = 4%nat /\ length test = 1%nat
    /\ Permutation (train ++ valid ++ test) (seq 0 10).
Proof.
  intros Hassert Hsizes.
  pose proof (randperm_perm G 10 g) as Hperm.
  destruct (randperm G 10 g) as [p g1] eqn:Hdraw. simpl in Hperm.
  pose proof (Permutation_length Hperm) as Hlen. simpl in Hlen.
  unfold get_split. rewrite Hassert, Hsizes.
  change (Z.to_nat 1) with 1%nat.
  cbn [negb split_loop]. unfold torch_randperm.
  change (10 <? 0)%Z with false.
  change (Z.to_nat 10) with 10%nat.
  cbv iota. rewrite Hdraw.
  do 11 (destruct p as [|? p]; try discriminate Hlen).
  do 4 eexists. split; [reflexivity |].
  repeat split; try reflexivity.
  exact Hperm.
Qed.

(** C5: [get_split(10, num_splits=1, train_ratio=0.5, test_ratio=0.4)]
    returns one mapping whose three index lists partition 0..9; 'train'
    holds 5 indices, but 'valid' holds 4 and 'test' holds 1, whatever
    permutation is drawn. *)
Theorem get_split_scenario_sizes :
  forall (G : Generator) (g : gen_state G),
  exists (train valid test : list nat) (g' : gen_state G),
    get_split G 10 1 (1 # 2) (2 # 5) g
    = (Ok (OneSplit [("train", train); ("valid", valid); ("test", test)]%string), g')
    /\ length train = 5%nat /\ length valid = 4%nat /\ length test = 1%nat
    /\ Permutation (train ++ valid ++ test) (seq 0 10).
Proof.
  intros G g. apply get_split_sizes_5_4; vm_compute; reflexivity.
Qed.

(** The ratio 2/5 is not a double; at the double that the literal 0.4
    denotes the sizes are the same. *)
Lemma get_split_docstring_example_doubles :
  forall (G : Generator) (g : gen_state G),
  exists (train valid test : list nat) (g' : gen_state G),
    get_split G 10 1 (double (1 # 2)) (double (2 # 5)) g
    = (Ok (OneSplit [("train", train); ("valid", valid); ("test", test)]%string), g')
    /\ length train = 5%nat /\ length valid = 4%nat /\ length test = 1%nat
    /\ Permutation (train ++ valid ++ test) (seq 0 10).
Proof.
  intros G g. apply get_split_sizes_5_4; vm_compute; reflexivity.
Qed.

(** ** DualBranchContrast *)

(** In L2L mode with the same embeddings in both branches and the same
    masks for both directions, the two sampler calls are the same call. *)
Lemma DualBranchContrast_instances_symmetric (K : Type)
  (self : DualBranchContrast.model K) (x : DualBranchContrast.inputs) :
  DualBranchContrast.mode self = "L2L"%string ->
  DualBranchContrast.h1 x = DualBranchContrast.h2 x ->
  DualBranchContrast.pos_mask1 x = DualBranchContrast.pos_mask2 x ->
  DualBranchContrast.neg_mask1 x = DualBranchContrast.neg_mask2 x ->
  forall ci1 ci2,
    DualBranchContrast.instances self x = Ok (ci1, ci2) -> ci1 = ci2.
Proof.
  intros Hmode Hh Hp Hn ci1 ci2.
  unfold DualBranchContrast.instances.
  rewrite Hmode, Hh, Hp, Hn. cbn [String.eqb Ascii.eqb Bool.eqb].
  destruct (is_DefaultSampler _ && _); [discriminate |].
  destruct (py_assert _); [| discriminate]. cbn [bind].
  destruct (sample_pairs _ _) as [ci | e]; [| discriminate]. cbn [bind].
  intros H. inversion H. reflexivity.
Qed.

(** [(l1 + l2) * 0.5] on two scalar losses *)
Lemma average_scalars (a b : R) :
  DualBranchContrast.average (VTensor (Scalar a)) (VTensor (Scalar b))
  = Ok (VTensor (Scalar ((a + b) * 0.5))).
Proof. reflexivity. Qed.

(** C8: in L2L mode without extra masks, [forward] calls the sampler on
    (h1, h2) with the masks of direction 1 and on (h2, h1) with the masks
    of direction 2.  When the sampler answers both calls and the loss
    gives the scalars [a] and [b] on the answers, the direction losses are
    [a] and [b] and [forward] returns [(a + b) * 0.5].  With [h1 == h2]
    and no mask supplied for either direction the two calls are one and
    the same call, and [a = b]. *)
Theorem DualBranchContrast_L2L_symmetric :
  forall (K : Type) (self : DualBranchContrast.model K)
         (x : DualBranchContrast.inputs) (u v : tensor)
         (ci1 ci2 : ContrastInstance) (a b : R),
    DualBranchContrast.mode self = "L2L"%string ->
    DualBranchContrast.h1 x = VTensor u ->
    DualBranchContrast.h2 x = VTensor v ->
    DualBranchContrast.extra_pos_mask x = VNone ->
    DualBranchContrast.extra_neg_mask x = VNone ->
    sample_pairs (DualBranchContrast.sampler self)
      (mkCall (VTensor u) (VTensor v)
         (DualBranchContrast.pos_mask1 x) (DualBranchContrast.neg_mask1 x)
         VNone VNone VNone None) = Ok ci1 ->
    sample_pairs (DualBranchContrast.sampler self)
      (mkCall (VTensor v) (VTensor u)
         (DualBranchContrast.pos_mask2 x) (DualBranchContrast.neg_mask2 x)
         VNone VNone VNone None) = Ok ci2 ->
    DualBranchContrast.loss self ci1 (DualBranchContrast.kwargs self)
    = Ok (VTensor (Scalar a)) ->
    DualBranchContrast.loss self ci2 (DualBranchContrast.kwargs self)
    = Ok (VTensor (Scalar b)) ->
    DualBranchContrast.direction_losses self x
    = Ok (VTensor (Scalar a), VTensor (Scalar b))
    /\ DualBranchContrast.forward self x = Ok (VTensor (Scalar ((a + b) * 0.5)))
    /\ (u = v ->
        DualBranchContrast.pos_mask1 x = VNone ->
        DualBranchContrast.pos_mask2 x = VNone ->
        DualBranchContrast.neg_mask1 x = VNone ->
        DualBranchContrast.neg_mask2 x = VNone ->
        a = b).
Proof.
  intros K self x u v ci1 ci2 a b Hmode Hh1 Hh2 Hep Hen Hci1 Hci2 Hl1 Hl2.
  assert (DualBranchContrast.direction_losses self x
          = Ok (VTensor (Scalar a), VTensor (Scalar b))) as Hl.
  { unfold DualBranchContrast.direction_losses, DualBranchContrast.instances.
    rewrite Hmode, Hh1, Hh2, Hep, Hen.
    cbn [String.eqb Ascii.eqb Bool.eqb is_none andb negb].
    rewrite andb_false_r. cbn [py_assert bind].
    rewrite Hci1. cbn [bind]. rewrite Hci2. cbn [bind].
    rewrite Hl1. cbn [bind]. rewrite Hl2. reflexivity. }
  split; [exact Hl |]. split.
  - unfold DualBranchContrast.forward. rewrite Hl. cbn [bind].
    apply average_scalars.
  - intros Huv Hp1 Hp2 Hn1 Hn2. subst v.
    rewrite Hp1, Hn1 in Hci1. rewrite Hp2, Hn2, Hci1 in Hci2.
    injection Hci2 as Hci. rewrite Hci, Hl2 in Hl1.
    now injection Hl1.
Qed.

Lemma DualBranchContrast_L2L_symmetric_witness :
  exists a b : R,
    DualBranchContrast.direction_losses L2L_InfoNCE_model symmetric_inputs
    = Ok (VTensor (Scalar a), VTensor (Scalar b))
    /\ DualBranchContrast.forward L2L_InfoNCE_model symmetric_inputs
       = Ok (VTensor (Scalar ((a + b) * 0.5)))
    /\ a = b.
Proof.
  do 2 eexists.
  pose proof (DualBranchContrast_L2L_symmetric unit L2L_InfoNCE_model symmetric_inputs
                (Mat 2 one_hot_rows) (Mat 2 one_hot_rows) _ _ _ _
                eq_refl eq_refl eq_refl eq_refl eq_refl eq_refl eq_refl eq_refl eq_refl)
    as (Hlosses & Hforward & Hsame).
  split; [exact Hlosses |]. split; [exact Hforward |].
  apply Hsame; reflexivity.
Defined.


(** ** Tensors in tabulated form

    The operators of [Torch] map tabulated tensors to tabulated tensors,
    which turns a loss into a formula over indices. *)

Lemma map_nth_seq {X Y : Type} (f : X -> Y) (l : list X) (d : X) :
  map f l = map (fun i => f (nth i l d)) (seq 0 (length l)).
Proof.
  rewrite <- (map_map (fun i => nth i l d) f).
  f_equal. symmetry. apply (nth_ext _ _ d d).
  - now rewrite length_map, length_seq.
  - intros i Hi. rewrite length_map, length_seq in Hi.
    rewrite (nth_indep _ d (nth 0%nat l d)) by now rewrite length_map, length_seq.
    rewrite (map_nth (fun i => nth i l d)), seq_nth by assumption. reflexivity.
Qed.

Lemma map_seq_ext {X : Type} (f g : nat -> X) (a n : nat) :
  (forall i, (a <= i < a + n)%nat -> f i = g i) ->
  map f (seq a n) = map g (seq a n).
Proof.
  intros H. apply map_ext_in. intros i Hi. apply in_seq in Hi. now apply H.
Qed.

Lemma tab_of_matrix {X : Type} (d : X) (n m : nat) (M : list (list X)) :
  has_shape n m M ->
  M = tab n m (fun i j => nth j (nth i M []) d).
Proof.
  intros [Hn Hm]. unfold tab.
  rewrite <- (map_id M) at 1. rewrite (map_nth_seq (fun r => r) M []), Hn.
  apply map_seq_ext. intros i Hi.
  assert (length (nth i M []) = m) as Hlen.
  { rewrite Forall_forall in Hm. apply Hm, nth_In. lia. }
  rewrite <- (map_id (nth i M [])) at 1.
  rewrite (map_nth_seq (fun x => x) _ d), Hlen. reflexivity.
Qed.

Lemma tab_ext {X : Type} (n m : nat) (f g : nat -> nat -> X) :
  (forall i j, (i < n)%nat -> (j < m)%nat -> f i j = g i j) ->
  tab n m f = tab n m g.
Proof.
  intros H. unfold tab. apply map_seq_ext. intros i Hi.
  apply map_seq_ext. intros j Hj. apply H; lia.
Qed.

Lemma length_tab {X : Type} (n m : nat) (f : nat -> nat -> X) :
  length (tab n m f) = n.
Proof. unfold tab. now rewrite length_map, length_seq. Qed.

Lemma map2_map {X Y Z W : Type} (g : Y -> Z -> W) (a : X -> Y) (b : X -> Z)
  (l : list X) :
  map2 g (map a l) (map b l) = map (fun i => g (a i) (b i)) l.
Proof. induction l as [|x l IH]; simpl; [reflexivity | now rewrite IH]. Qed.

Lemma bzip_map (f : R -> R -> R) (a b : nat -> R) (l : list nat) :
  Torch.bzip f (map a l) (map b l) = map (fun i => f (a i) (b i)) l.
Proof.
  unfold Torch.bzip. rewrite !length_map, Nat.eqb_refl. apply map2_map.
Qed.

Lemma bzip_single_r (f : R -> R -> R) (la : list R) (x : R) :
  Torch.bzip f la [x] = map (fun y => f y x) la.
Proof.
  unfold Torch.bzip.
  destruct la as [|a [|a' la]]; reflexivity.
Qed.

Lemma bzip_rows_map (f : R -> R -> R) (a b : nat -> list R) (l : list nat) :
  Torch.bzip (Torch.bzip f) (map a l) (map b l)
  = map (fun i => Torch.bzip f (a i) (b i)) l.
Proof.
  unfold Torch.bzip at 1. rewrite !length_map, Nat.eqb_refl. apply map2_map.
Qed.

Lemma bdim_same (n : nat) : Torch.bdim n n = Ok n.
Proof. unfold Torch.bdim. now rewrite Nat.eqb_refl. Qed.

Lemma bdim_one_r (n : nat) : Torch.bdim n 1 = Ok n.
Proof.
  unfold Torch.bdim. destruct (Nat.eqb_spec n 1) as [-> | _]; [reflexivity |].
  destruct n as [|[|n]]; reflexivity.
Qed.

Lemma binop_tab (f : R -> R -> R) (n m : nat) (a b : nat -> nat -> R) :
  Torch.binop f (Mat m (tab n m a)) (Mat m (tab n m b))
  = Ok (Mat m (tab n m (fun i j => f (a i j) (b i j)))).
Proof.
  unfold Torch.binop. rewrite bdim_same. cbn [bind].
  rewrite !length_tab, bdim_same. cbn [bind].
  unfold tab. rewrite bzip_rows_map.
  do 2 f_equal. apply map_ext. intros i. apply bzip_map.
Qed.

Lemma binop_tab_column (f : R -> R -> R) (n m : nat) (a : nat -> nat -> R)
  (c : nat -> R) :
  Torch.binop f (Mat m (tab n m a)) (Mat 1 (map (fun i => [c i]) (seq 0 n)))
  = Ok (Mat m (tab n m (fun i j => f (a i j) (c i)))).
Proof.
  unfold Torch.binop. rewrite bdim_one_r. cbn [bind].
  rewrite length_tab, length_map, length_seq, bdim_same. cbn [bind].
  unfold tab. rewrite bzip_rows_map.
  do 2 f_equal. apply map_ext. intros i.
  rewrite bzip_single_r. now rewrite map_map.
Qed.

Lemma binop_vec (f : R -> R -> R) (n : nat) (a b : nat -> R) :
  Torch.binop f (Vec (map a (seq 0 n))) (Vec (map b (seq 0 n)))
  = Ok (Vec (map (fun i => f (a i) (b i)) (seq 0 n))).
Proof.
  unfold Torch.binop. rewrite !length_map, bdim_same. cbn [bind].
  now rewrite bzip_map.
Qed.

Lemma sum_dim1_tab (n m : nat) (a : nat -> nat -> R) :
  Torch.sum_dim1 (Mat m (tab n m a))
  = Ok (Vec (map (fun i => Rsum (map (a i) (seq 0 m))) (seq 0 n))).
Proof. unfold Torch.sum_dim1, tab. now rewrite map_map. Qed.

Lemma sum_dim1_keepdim_tab (n m : nat) (a : nat -> nat -> R) :
  Torch.sum_dim1_keepdim (Mat m (tab n m a))
  = Ok (Mat 1 (map (fun i => [Rsum (map (a i) (seq 0 m))]) (seq 0 n))).
Proof. unfold Torch.sum_dim1_keepdim, tab. now rewrite map_map. Qed.

Lemma map_tensor_tab (g : R -> R) (n m : nat) (a : nat -> nat -> R) :
  Torch.map_tensor g (Mat m (tab n m a)) = Mat m (tab n m (fun i j => g (a i j))).
Proof.
  unfold Torch.map_tensor, tab. rewrite map_map. f_equal.
  apply map_ext. intros i. now rewrite map_map.
Qed.

Lemma map_tensor_column (g : R -> R) (n : nat) (c : nat -> R) :
  Torch.map_tensor g (Mat 1 (map (fun i => [c i]) (seq 0 n)))
  = Mat 1 (map (fun i => [g (c i)]) (seq 0 n)).
Proof. unfold Torch.map_tensor. now rewrite map_map. Qed.

Lemma sum_tab (n m : nat) (a : nat -> nat -> R) :
  Torch.sum (Mat m (tab n m a))
  = Scalar (Rsum (map (fun i => Rsum (map (a i) (seq 0 m))) (seq 0 n))).
Proof. unfold Torch.sum, tab. now rewrite map_map. Qed.

Lemma mean_vec (n : nat) (a : nat -> R) :
  Torch.mean (Vec (map a (seq 0 n))) = Scalar (Rsum (map a (seq 0 n)) / INR n).
Proof. unfold Torch.mean. cbn. now rewrite length_map, length_seq. Qed.

Lemma diag_tab (n : nat) (a : nat -> nat -> R) :
  Torch.diag (Mat n (tab n n a)) = Ok (Vec (map (fun i => a i i) (seq 0 n))).
Proof.
  unfold Torch.diag. rewrite length_tab, Nat.min_id. do 2 f_equal.
  apply map_seq_ext. intros i Hi. unfold tab.
  rewrite (nth_indep _ [] (map (a 0%nat) (seq 0 n)))
    by (rewrite length_map, length_seq; lia).
  rewrite (map_nth (fun i => map (a i) (seq 0 n))), seq_nth by lia.
  rewrite (nth_indep _ 0 (a (0 + i)%nat 0%nat))
    by (rewrite length_map, length_seq; lia).
  rewrite (map_nth (a (0 + i)%nat)), seq_nth by lia. reflexivity.
Qed.

Lemma mask_tensor_tab (n m : nat) (M : list (list bool)) :
  has_shape n m M ->
  mask_tensor m M = Mat m (tab n m (fun i j => b2r (entry M i j))).
Proof.
  intros H. unfold mask_tensor. f_equal.
  rewrite (tab_of_matrix false n m M H) at 1.
  unfold tab. rewrite map_map. apply map_ext. intros i. now rewrite map_map.
Qed.

Lemma similarity_tab (d : nat) (A S : list (list R)) :
  similarity (Mat d A) (Mat d S)
  = Ok (Mat (length S)
          (tab (length A) (length S)
             (fun i j => dot (F.normalize_row (nth i A []))
                             (F.normalize_row (nth j S []))))).
Proof.
  unfold similarity. cbn [F.normalize bind Torch.matmul_t].
  rewrite Nat.eqb_refl, length_map. do 2 f_equal.
  rewrite map_map. rewrite (map_nth_seq _ A []). unfold tab.
  apply map_ext. intros i.
  rewrite map_map.
  apply (map_nth_seq
           (fun x => dot (F.normalize_row (nth i A [])) (F.normalize_row x)) S []).
Qed.

(** ** InfoNCE *)

(** What [InfoNCE.compute] evaluates to on matrices of matching shapes,
    entry by entry; [p] and [q] are the entries of the two masks. *)
Lemma InfoNCE_compute_tab (tau : R) (d : nat) (A S : list (list R))
  (p q : nat -> nat -> R) :
  let n := length A in
  let m := length S in
  let sim := normalized_sim A S tau in
  InfoNCE.compute tau
    (mkContrastInstance (Mat d A) (Mat d S)
       (VTensor (Mat m (tab n m p))) (VTensor (Mat m (tab n m q))))
  = Ok (VTensor (Scalar
      (- (Rsum (map (fun i =>
                      Rsum (map (fun j =>
                                   (sim i j
                                    - ln (Rsum (map (fun k =>
                                                       Rtrigo_def.exp (sim i k)
                                                       * (p i k + q i k))
                                                  (seq 0 m))))
                                   * p i j)
                              (seq 0 m))
                      / Rsum (map (p i) (seq 0 m)))
                 (seq 0 n))
          / INR n)))).
Proof.
  intros n m sim.
  unfold InfoNCE.compute, unpack. cbn [anchor sample pos_mask neg_mask].
  rewrite similarity_tab. cbn [bind].
  unfold Torch.div at 1. cbn [Torch.binop]. rewrite map_tensor_tab.
  cbn [bind as_tensor].
  unfold Torch.add. rewrite binop_tab. cbn [bind].
  unfold Torch.exp, Torch.mul. rewrite map_tensor_tab, binop_tab. cbn [bind].
  rewrite sum_dim1_keepdim_tab. cbn [bind].
  unfold Torch.log, Torch.sub. rewrite map_tensor_column, binop_tab_column.
  cbn [bind].
  rewrite binop_tab. cbn [bind].
  rewrite !sum_dim1_tab. cbn [bind].
  unfold Torch.div. rewrite binop_vec. cbn [bind].
  rewrite mean_vec. reflexivity.
Qed.

(** *** Sums over masked columns *)

Lemma Rsum_map_ext_in {X : Type} (f g : X -> R) (l : list X) :
  (forall x, In x l -> f x = g x) -> Rsum (map f l) = Rsum (map g l).
Proof. intros H. f_equal. now apply map_ext_in. Qed.

Lemma Rsum_mask {X : Type} (y : X -> R) (p : X -> bool) (l : list X) :
  Rsum (map (fun j => y j * b2r (p j)) l) = Rsum (map y (filter p l)).
Proof.
  induction l as [|x l IH]; simpl; [reflexivity |].
  unfold Rsum in *. rewrite IH. destruct (p x); simpl; lra.
Qed.

Lemma Rsum_count {X : Type} (p : X -> bool) (l : list X) :
  Rsum (map (fun j => b2r (p j)) l) = INR (length (filter p l)).
Proof.
  induction l as [|x l IH]; [reflexivity |].
  cbn [map filter Rsum fold_right]. fold (Rsum (map (fun j => b2r (p j)) l)).
  rewrite IH. destruct (p x).
  - cbn [length]. rewrite S_INR. simpl. lra.
  - simpl. lra.
Qed.

Lemma Rsum_mask_either {X : Type} (x : X -> R) (p q : X -> bool) (l : list X) :
  (forall k, In k l -> p k && q k = false) ->
  Rsum (map (fun k => x k * (b2r (p k) + b2r (q k))) l)
  = Rsum (map x (filter (fun k => p k || q k) l)).
Proof.
  intros Hdisj. rewrite <- Rsum_mask. apply Rsum_map_ext_in.
  intros k Hk. specialize (Hdisj k Hk).
  destruct (p k), (q k); try discriminate; simpl; lra.
Qed.

Lemma Rsum_map_opp {X : Type} (f : X -> R) (l : list X) :
  Rsum (map (fun i => - f i) l) = - Rsum (map f l).
Proof.
  induction l as [|x l IH]; simpl; [lra |].
  unfold Rsum in *. rewrite IH. lra.
Qed.

Lemma disjoint_masks_entry (P N : list (list bool)) :
  disjoint_masks P N = true ->
  forall i j, entry P i j && entry N i j = false.
Proof.
  unfold disjoint_masks, entry.
  revert N. induction P as [|p P IH]; intros N H i j.
  - destruct i, j; reflexivity.
  - destruct N as [|q N].
    + destruct i, j; cbn; apply andb_false_r.
    + cbn [combine forallb fst snd] in H. apply andb_prop in H as [Hrow Hrest].
      destruct i as [|i]; cbn [nth]; [| now apply IH].
      clear IH Hrest. revert q Hrow j.
      induction p as [|b p IHp]; intros q Hrow j.
      * destruct j; reflexivity.
      * destruct q as [|c q]; [destruct j; cbn; apply andb_false_r |].
        cbn [combine forallb fst snd] in Hrow.
        apply andb_prop in Hrow as [Hbc Hrow].
        destruct j as [|j]; cbn [nth]; [| now apply IHp].
        now apply negb_true_iff in Hbc.
Qed.

Lemma normalize_row_unit (r : list R) :
  F.eps <= F.norm2 r -> F.normalize_row r = unit_row r.
Proof.
  intros H. unfold F.normalize_row, unit_row. now rewrite Rmax_left.
Qed.

Lemma normalized_sim_unit (A S : list (list R)) (tau : R) :
  Forall (fun r => F.eps <= F.norm2 r) A ->
  Forall (fun r => F.eps <= F.norm2 r) S ->
  forall i j, (i < length A)%nat -> (j < length S)%nat ->
    normalized_sim A S tau i j = unit_sim A S tau i j.
Proof.
  intros HA HS i j Hi Hj. unfold normalized_sim, unit_sim.
  rewrite Forall_forall in HA, HS.
  rewrite !normalize_row_unit; [reflexivity | |]; [apply HS | apply HA];
    now apply nth_In.
Qed.

(** On masks that share no entry, [InfoNCE.compute] is the formula of the
    specification with the similarity the code computes: the dot product of
    the rows as [F.normalize] leaves them, divided by tau. *)
Lemma InfoNCE_compute_normalized (tau : R) (n_a n_s d : nat) (A S : list (list R))
  (P N : list (list bool)) :
  has_shape n_a d A -> has_shape n_s d S ->
  has_shape n_a n_s P -> has_shape n_a n_s N ->
  disjoint_masks P N = true ->
  InfoNCE.compute tau
    (mkContrastInstance (Mat d A) (Mat d S)
       (VTensor (mask_tensor n_s P)) (VTensor (mask_tensor n_s N)))
  = Ok (VTensor (Scalar (InfoNCE_formula A S P N (normalized_sim A S tau)))).
Proof.
  intros [HA _] [HS _] HP HN Hdisj.
  rewrite (mask_tensor_tab n_a n_s P HP), (mask_tensor_tab n_a n_s N HN).
  subst n_a n_s. rewrite InfoNCE_compute_tab. do 3 f_equal.
  unfold InfoNCE_formula, Rmean. rewrite length_map, length_seq.
  rewrite <- Rdiv_opp_l. f_equal. rewrite <- Rsum_map_opp.
  apply Rsum_map_ext_in. intros i _.
  rewrite Rsum_mask, Rsum_count.
  rewrite (Rsum_mask_either _ (entry P i) (entry N i))
    by (intros k _; apply disjoint_masks_entry, Hdisj).
  fold (columns_either S P N i). unfold columns.
  change (fun j : nat => entry P i j) with (entry P i).
  unfold Rdiv. ring.
Qed.

Lemma InfoNCE_formula_ext (A S : list (list R)) (P N : list (list bool))
  (s1 s2 : nat -> nat -> R) :
  (forall i j, (i < length A)%nat -> (j < length S)%nat -> s1 i j = s2 i j) ->
  InfoNCE_formula A S P N s1 = InfoNCE_formula A S P N s2.
Proof.
  intros H. unfold InfoNCE_formula, Rmean. rewrite !length_map. f_equal.
  apply Rsum_map_ext_in. intros i Hi. apply in_seq in Hi. f_equal.
  assert (forall M k, In k (filter M (seq 0 (length S))) -> (k < length S)%nat)
    as Hin.
  { intros M k Hk. apply filter_In in Hk as [Hk _]. apply in_seq in Hk. lia. }
  apply Rsum_map_ext_in. intros j Hj. apply Hin in Hj.
  rewrite (H i j) by lia. do 2 f_equal.
  apply Rsum_map_ext_in. intros k Hk. apply Hin in Hk.
  now rewrite (H i k) by lia.
Qed.

(** C3, amended: for masks of shape [n_a, n_s] that share no entry, with a
    positive and a negative in every row, and embedding rows of Euclidean
    norm at least 1e-12, [InfoNCE.compute] returns the mean over anchor
    rows of -(1/|P_row|) times the sum over positive columns j of
    [sim(i,j) - log(sum over columns k, positive or negative, of
    exp(sim(i,k)))], with sim the dot product of the unit-normalized rows
    divided by tau. *)
Theorem InfoNCE_compute_formula :
  forall (tau : R) (n_a n_s d : nat) (A S : list (list R)) (P N : list (list bool)),
    has_shape n_a d A -> has_shape n_s d S ->
    has_shape n_a n_s P -> has_shape n_a n_s N ->
    every_row_has_one P = true -> every_row_has_one N = true ->
    disjoint_masks P N = true ->
    Forall (fun r => F.eps <= F.norm2 r) A ->
    Forall (fun r => F.eps <= F.norm2 r) S ->
    InfoNCE.compute tau
      (mkContrastInstance (Mat d A) (Mat d S)
         (VTensor (mask_tensor n_s P)) (VTensor (mask_tensor n_s N)))
    = Ok (VTensor (Scalar (InfoNCE_formula A S P N (unit_sim A S tau)))).
Proof.
  intros tau n_a n_s d A S P N HA HS HP HN _ _ Hdisj HnA HnS.
  rewrite (InfoNCE_compute_normalized tau n_a n_s d A S P N) by assumption.
  do 3 f_equal. apply InfoNCE_formula_ext.
  intros i j Hi Hj. now apply normalized_sim_unit.
Qed.

Lemma norm2_singleton (x : R) : F.norm2 [x] = Rabs x.
Proof.
  unfold F.norm2. cbn [map Rsum fold_right].
  rewrite Rplus_0_r. apply sqrt_Rsqr_abs.
Qed.

Lemma norm2_one_hot_01 : F.norm2 [0; 1] = 1.
Proof.
  unfold F.norm2. cbn [map Rsum fold_right].
  replace (0 * 0 + (1 * 1 + 0)) with 1 by ring. apply sqrt_1.
Qed.

Lemma norm2_one_hot_10 : F.norm2 [1; 0] = 1.
Proof.
  unfold F.norm2. cbn [map Rsum fold_right].
  replace (1 * 1 + (0 * 0 + 0)) with 1 by ring. apply sqrt_1.
Qed.

Lemma eps_le_1 : F.eps <= 1.
Proof. unfold F.eps. lra. Qed.

Lemma shape_2x2 {X : Type} (a b c d : X) : has_shape 2 2 [[a; b]; [c; d]].
Proof. split; [reflexivity | repeat constructor]. Qed.

Lemma unit_rows_2x2 : Forall (fun r => F.eps <= F.norm2 r) one_hot_rows.
Proof.
  apply Forall_cons; [| apply Forall_cons; [| apply Forall_nil]].
  - rewrite norm2_one_hot_01. apply eps_le_1.
  - rewrite norm2_one_hot_10. apply eps_le_1.
Qed.

Lemma InfoNCE_compute_formula_witness :
  InfoNCE.compute (1 / 2)
    (mkContrastInstance (Mat 2 one_hot_rows) (Mat 2 one_hot_rows)
       (VTensor (mask_tensor 2 identity_mask))
       (VTensor (mask_tensor 2 off_diagonal_mask)))
  = Ok (VTensor (Scalar
      (InfoNCE_formula one_hot_rows one_hot_rows identity_mask off_diagonal_mask
         (unit_sim one_hot_rows one_hot_rows (1 / 2))))).
Proof.
  apply (InfoNCE_compute_formula (1 / 2) 2 2 2 one_hot_rows one_hot_rows
           identity_mask off_diagonal_mask);
    first [ apply shape_2x2 | apply unit_rows_2x2 | reflexivity ].
Defined.

Lemma log_sum_exp2 (a b : R) :
  a - ln (Rtrigo_def.exp a + Rtrigo_def.exp b) = - ln (1 + Rtrigo_def.exp (b - a)).
Proof.
  replace (Rtrigo_def.exp a + Rtrigo_def.exp b)
    with (Rtrigo_def.exp a * (1 + Rtrigo_def.exp (b - a))).
  - rewrite ln_mult, ln_exp.
    + lra.
    + apply exp_pos.
    + pose proof (exp_pos (b - a)). lra.
  - rewrite Rmult_plus_distr_l, <- exp_plus. f_equal; [lra | f_equal; lra].
Qed.

Lemma ln_2_pos : 0 < ln 2.
Proof. pose proof ln_lt_2. lra. Qed.

(** With one anchor, one sample and both masks set on that pair, the code
    returns log 2 where the formula gives 0. *)
Lemma InfoNCE_overlapping_masks :
  InfoNCE.compute 1
    (mkContrastInstance (Mat 1 single_row) (Mat 1 single_row)
       (VTensor (mask_tensor 1 single_mask)) (VTensor (mask_tensor 1 single_mask)))
  = Ok (VTensor (Scalar (ln 2)))
  /\ InfoNCE_formula single_row single_row single_mask single_mask
       (unit_sim single_row single_row 1) = 0.
Proof.
  set (A := single_row). set (P := single_mask). unfold single_row in A.
  unfold single_mask in P. split.
  - change (mask_tensor 1 P) with (Mat 1 (tab 1 1 (fun _ _ => 1))).
    pose proof (InfoNCE_compute_tab 1 1 A A (fun _ _ => 1) (fun _ _ => 1)) as E.
    cbv zeta in E. cbn [length A] in E. rewrite E. clear E.
    cbn [map seq Rsum fold_right INR]. do 3 f_equal.
    rewrite !Rplus_0_r, ln_mult, ln_exp by (try apply exp_pos; lra).
    replace (1 + 1) with 2 by ring. field.
  - unfold InfoNCE_formula, Rmean, columns, columns_either, entry.
    cbn [length seq filter nth orb map Rsum fold_right INR A P].
    rewrite !Rplus_0_r, ln_exp. field.
Qed.

(** With an anchor row of norm 1e-13, [F.normalize] divides by 1e-12 and
    leaves a row of norm 1/10, so the similarities are 1/10 and -1/10
    where the unit-normalized rows give 1 and -1. *)
Lemma InfoNCE_short_row :
  InfoNCE.compute 1
    (mkContrastInstance (Mat 1 short_row) (Mat 1 two_samples)
       (VTensor (mask_tensor 2 first_column)) (VTensor (mask_tensor 2 second_column)))
  = Ok (VTensor (Scalar (ln (1 + Rtrigo_def.exp (- (2 / 10))))))
  /\ InfoNCE_formula short_row two_samples first_column second_column
       (unit_sim short_row two_samples 1)
     = ln (1 + Rtrigo_def.exp (- 2)).
Proof.
  set (A := short_row). set (S := two_samples).
  set (P := first_column). set (N := second_column).
  unfold short_row in A. unfold two_samples in S.
  unfold first_column in P. unfold second_column in N.
  assert (F.norm2 [1e-13] = 1e-13) as Ha
    by (rewrite norm2_singleton; apply Rabs_pos_eq; lra).
  assert (F.norm2 [1] = 1) as H1
    by (rewrite norm2_singleton; apply Rabs_pos_eq; lra).
  assert (F.norm2 [-1] = 1) as Hm1
    by (rewrite norm2_singleton; unfold Rabs; destruct (Rcase_abs (-1)); lra).
  split.
  - rewrite (InfoNCE_compute_normalized 1 1 2 1 A S P N);
      try reflexivity; try (split; [reflexivity | repeat constructor]).
    do 3 f_equal.
    unfold InfoNCE_formula, Rmean, columns, columns_either, entry.
    cbn [length seq filter nth orb map Rsum fold_right INR A S P N].
    assert (normalized_sim A S 1 0 0 = 1 / 10) as ->.
    { unfold normalized_sim, F.normalize_row, dot.
      cbn [nth A S map map2 Rsum fold_right]. rewrite Ha, H1.
      rewrite (Rmax_right 1e-13), (Rmax_left 1) by (unfold F.eps; lra).
      unfold F.eps. lra. }
    assert (normalized_sim A S 1 0 1 = - (1 / 10)) as ->.
    { unfold normalized_sim, F.normalize_row, dot.
      cbn [nth A S map map2 Rsum fold_right]. rewrite Ha, Hm1.
      rewrite (Rmax_right 1e-13), (Rmax_left 1) by (unfold F.eps; lra).
      unfold F.eps. lra. }
    rewrite !Rplus_0_r.
    match goal with
    | |- - (1 / 1) * ?x / 1 = _ => replace (- (1 / 1) * x / 1) with (- x) by field
    end.
    rewrite log_sum_exp2, Ropp_involutive. do 3 f_equal. lra.
  - unfold InfoNCE_formula, Rmean, columns, columns_either, entry.
    cbn [length seq filter nth orb map Rsum fold_right INR A S P N].
    assert (unit_sim A S 1 0 0 = 1) as ->.
    { unfold unit_sim, unit_row, dot.
      cbn [nth A S map map2 Rsum fold_right]. rewrite Ha, H1. lra. }
    assert (unit_sim A S 1 0 1 = - 1) as ->.
    { unfold unit_sim, unit_row, dot.
      cbn [nth A S map map2 Rsum fold_right]. rewrite Ha, Hm1. lra. }
    rewrite !Rplus_0_r.
    match goal with
    | |- - (1 / 1) * ?x / 1 = _ => replace (- (1 / 1) * x / 1) with (- x) by field
    end.
    rewrite log_sum_exp2, Ropp_involutive. do 3 f_equal. lra.
Qed.

(** Without the two conditions on masks and norms the formula fails, on
    inputs with a positive and a negative in every row: one where the
    masks overlap, because the code weighs a column by [P + N], and one
    with a row shorter than the eps of [F.normalize]. *)
Lemma InfoNCE_formula_counterexample :
  (has_shape 1 1 single_row /\ has_shape 1 1 single_mask
   /\ every_row_has_one single_mask = true
   /\ InfoNCE.compute 1
        (mkContrastInstance (Mat 1 single_row) (Mat 1 single_row)
           (VTensor (mask_tensor 1 single_mask))
           (VTensor (mask_tensor 1 single_mask)))
      <> Ok (VTensor (Scalar
              (InfoNCE_formula single_row single_row single_mask single_mask
                 (unit_sim single_row single_row 1)))))
  /\
  (has_shape 1 1 short_row /\ has_shape 2 1 two_samples
   /\ has_shape 1 2 first_column /\ has_shape 1 2 second_column
   /\ every_row_has_one first_column = true
   /\ every_row_has_one second_column = true
   /\ disjoint_masks first_column second_column = true
   /\ InfoNCE.compute 1
        (mkContrastInstance (Mat 1 short_row) (Mat 1 two_samples)
           (VTensor (mask_tensor 2 first_column))
           (VTensor (mask_tensor 2 second_column)))
      <> Ok (VTensor (Scalar
              (InfoNCE_formula short_row two_samples first_column second_column
                 (unit_sim short_row two_samples 1))))).
Proof.
  split.
  - destruct InfoNCE_overlapping_masks as [Hcode Hformula].
    repeat split; try reflexivity; try (repeat constructor).
    rewrite Hcode, Hformula. intros H. injection H as H.
    pose proof ln_2_pos. lra.
  - destruct InfoNCE_short_row as [Hcode Hformula].
    repeat split; try reflexivity; try (repeat constructor).
    rewrite Hcode, Hformula. intros H. injection H as H.
    apply ln_inv in H;
      [| pose proof (exp_pos (- (2 / 10))); lra | pose proof (exp_pos (- 2)); lra].
    apply Rplus_eq_reg_l, exp_inv in H. lra.
Qed.

(** *** The default positive pairing *)

Lemma map_tensor_vec (g : R -> R) (a : nat -> R) (l : list nat) :
  Torch.map_tensor g (Vec (map a l)) = Vec (map (fun i => g (a i)) l).
Proof. unfold Torch.map_tensor. now rewrite map_map. Qed.

(** What [InfoNCE.compute_default_positive] evaluates to on two matrices
    with the same number of rows. *)
Lemma InfoNCE_default_positive_tab (tau : R) (n d : nat) (A S : list (list R)) :
  length A = n -> length S = n ->
  let e := fun i j => Rtrigo_def.exp (normalized_sim A S tau i j) in
  let row_sum := fun i => Rsum (map (e i) (seq 0 n)) in
  InfoNCE.compute_default_positive tau
    (mkContrastInstance (Mat d A) (Mat d S) VNone VNone)
  = Ok (VTensor (Scalar
      (Rsum (map (fun i => - ln (e i i / (e i i + (row_sum i - e i i)))) (seq 0 n))
       / INR n))).
Proof.
  intros HA HS e row_sum.
  unfold InfoNCE.compute_default_positive. cbn [anchor sample].
  rewrite similarity_tab, HA, HS. cbn [bind].
  unfold Torch.div at 1. cbn [Torch.binop]. rewrite map_tensor_tab. cbn [bind].
  unfold Torch.exp. rewrite map_tensor_tab.
  rewrite diag_tab, sum_dim1_tab. cbn [bind].
  unfold Torch.sub, Torch.add, Torch.div.
  rewrite binop_vec. cbn [bind]. rewrite binop_vec. cbn [bind].
  rewrite binop_vec. cbn [bind].
  unfold Torch.log, Torch.neg. rewrite !map_tensor_vec, mean_vec.
  reflexivity.
Qed.

Lemma Rsum_pick (y : nat -> R) (i a n : nat) :
  (a <= i < a + n)%nat ->
  Rsum (map (fun j => y j * b2r (i =? j)%nat) (seq a n)) = y i.
Proof.
  revert a. induction n as [|n IH]; intros a Hi; [lia |].
  cbn [seq map Rsum fold_right].
  fold (Rsum (map (fun j => y j * b2r (i =? j)%nat) (seq (S a) n))).
  destruct (Nat.eqb_spec i a) as [-> | Hne].
  - rewrite (Rsum_map_ext_in _ (fun _ => 0)).
    + assert (forall l : list nat, Rsum (map (fun _ => 0) l) = 0) as Hz
        by (induction l; simpl; [reflexivity | unfold Rsum in *; lra]).
      rewrite Hz. simpl. lra.
    + intros j Hj. apply in_seq in Hj.
      destruct (Nat.eqb_spec a j); [lia | simpl; lra].
  - rewrite IH by lia. simpl. lra.
Qed.

Lemma Rsum_exp_pos {X : Type} (f : X -> R) (l : list X) :
  l <> [] -> 0 < Rsum (map (fun k => Rtrigo_def.exp (f k)) l).
Proof.
  destruct l as [|x l]; [congruence | intros _].
  revert x. induction l as [|y l IH]; intros x.
  - simpl. pose proof (exp_pos (f x)). lra.
  - specialize (IH y). cbn [map Rsum fold_right] in *.
    pose proof (exp_pos (f x)). unfold Rsum in *. lra.
Qed.

(** C4: on two embedding matrices with the same number of rows,
    [InfoNCE.compute_default_positive] without masks returns what
    [InfoNCE.compute] returns with the identity matrix as positive mask
    and ones minus identity as negative mask. *)
Theorem InfoNCE_default_positive_is_identity_mask :
  forall (tau : R) (n d : nat) (A S : list (list R)),
    (2 <= n)%nat ->
    has_shape n d A -> has_shape n d S ->
    InfoNCE.compute_default_positive tau
      (mkContrastInstance (Mat d A) (Mat d S) VNone VNone)
    = InfoNCE.compute tau
        (mkContrastInstance (Mat d A) (Mat d S)
           (VTensor (Torch.eye n)) (VTensor (ones_minus_eye n))).
Proof.
  intros tau n d A S _ [HA _] [HS _].
  rewrite (InfoNCE_default_positive_tab tau n d A S HA HS).
  pose proof (InfoNCE_compute_tab tau d A S
                (fun i j => b2r (i =? j)%nat)
                (fun i j => 1 - b2r (i =? j)%nat)) as E.
  cbv zeta in E. rewrite HA, HS in E.
  change (Mat n (tab n n (fun i j => b2r (i =? j)%nat))) with (Torch.eye n) in E.
  change (Mat n (tab n n (fun i j => 1 - b2r (i =? j)%nat)))
    with (ones_minus_eye n) in E.
  rewrite E. clear E. do 3 f_equal.
  rewrite <- Rdiv_opp_l. f_equal. rewrite <- Rsum_map_opp.
  apply Rsum_map_ext_in. intros i Hi. apply in_seq in Hi.
  rewrite Rsum_pick by lia.
  rewrite (Rsum_map_ext_in (fun j => b2r (i =? j)%nat)
             (fun j => 1 * b2r (i =? j)%nat)) by (intros; lra).
  rewrite (Rsum_pick (fun _ => 1)) by lia.
  rewrite (Rsum_map_ext_in
             (fun k => Rtrigo_def.exp (normalized_sim A S tau i k)
                       * (b2r (i =? k)%nat + (1 - b2r (i =? k)%nat)))
             (fun k => Rtrigo_def.exp (normalized_sim A S tau i k)))
    by (intros; ring).
  set (rs := Rsum (map _ (seq 0 n))).
  assert (0 < rs) as Hrs.
  { apply Rsum_exp_pos. destruct n; [lia | discriminate]. }
  set (s := normalized_sim A S tau i i).
  replace (Rtrigo_def.exp s + (rs - Rtrigo_def.exp s)) with rs by ring.
  unfold Rdiv at 1.
  rewrite ln_mult, ln_Rinv, ln_exp;
    [field | assumption | apply exp_pos | now apply Rinv_0_lt_compat].
Qed.

Lemma InfoNCE_default_positive_is_identity_mask_witness :
  InfoNCE.compute_default_positive (1 / 2)
    (mkContrastInstance (Mat 2 one_hot_rows) (Mat 2 one_hot_rows) VNone VNone)
  = InfoNCE.compute (1 / 2)
      (mkContrastInstance (Mat 2 one_hot_rows) (Mat 2 one_hot_rows)
         (VTensor (Torch.eye 2)) (VTensor (ones_minus_eye 2))).
Proof.
  apply (InfoNCE_default_positive_is_identity_mask (1 / 2) 2 2
           one_hot_rows one_hot_rows);
    [lia | apply shape_2x2 | apply shape_2x2].
Defined.

(** ** JSD *)

Lemma Rtrunc_b2r (b : bool) : IZR (Rtrunc (b2r b)) = b2r b.
Proof.
  unfold Rtrunc. destruct b; cbn [b2r].
  - destruct (Rle_dec 0 1) as [_ | H]; [| lra].
    change 1 with (INR 1). now rewrite Int_part_INR.
  - destruct (Rle_dec 0 0) as [_ | H]; [| lra].
    change 0 with (INR 0). now rewrite Int_part_INR.
Qed.

Lemma softplus1_0 : F.softplus1 0 = ln 2.
Proof.
  unfold F.softplus1. destruct (Rlt_dec 20 0) as [H | _]; [lra |].
  rewrite exp_0. now replace (1 + 1) with 2 by lra.
Qed.

Lemma default_discriminator_tab (d : nat) (A S : list (list R)) :
  JSD.default_discriminator (Mat d A) (Mat d S)
  = Ok (Mat (length S) (tab (length A) (length S) (raw_sim A S))).
Proof.
  unfold JSD.default_discriminator, Torch.matmul_t.
  rewrite Nat.eqb_refl. do 2 f_equal.
  rewrite (map_nth_seq _ A []). unfold tab.
  apply map_ext. intros i.
  apply (map_nth_seq (fun v => dot (nth i A []) v) S []).
Qed.

Lemma mask_int_tab (n m : nat) (M : list (list bool)) :
  has_shape n m M ->
  mask_int (VTensor (mask_tensor m M))
  = Ok (Mat m (tab n m (fun i j => b2r (entry M i j)))).
Proof.
  intros H. unfold mask_int, Torch.int.
  rewrite (mask_tensor_tab n m M H), map_tensor_tab. do 2 f_equal.
  apply tab_ext. intros i j _ _. apply Rtrunc_b2r.
Qed.

Lemma Rsum_flat_map {X Y : Type} (g : Y -> R) (f : X -> list Y) (l : list X) :
  Rsum (map g (flat_map f l)) = Rsum (map (fun i => Rsum (map g (f i))) l).
Proof.
  induction l as [|x l IH]; [reflexivity |].
  cbn [flat_map map Rsum fold_right]. rewrite map_app.
  assert (forall u v, Rsum (u ++ v) = Rsum u + Rsum v) as Happ.
  { induction u as [|a u IHu]; intros v; simpl; [lra |].
    unfold Rsum in *. rewrite IHu. lra. }
  rewrite Happ. fold (Rsum (map (fun i => Rsum (map g (f i))) l)).
  now rewrite IH.
Qed.

Lemma Rsum_pairs (A S : list (list R)) (M : list (list bool))
  (g : nat -> nat -> R) :
  Rsum (map (fun i => Rsum (map (fun j => g i j * b2r (entry M i j))
                              (seq 0 (length S))))
          (seq 0 (length A)))
  = Rsum (map (fun '(i, j) => g i j) (pairs A S M)).
Proof.
  unfold pairs. rewrite Rsum_flat_map.
  apply Rsum_map_ext_in. intros i _.
  rewrite map_map, Rsum_mask. reflexivity.
Qed.

Lemma count_pairs (A S : list (list R)) (M : list (list bool)) :
  Rsum (map (fun i => Rsum (map (fun j => b2r (entry M i j)) (seq 0 (length S))))
          (seq 0 (length A)))
  = INR (length (pairs A S M)).
Proof.
  rewrite <- (filter_true (pairs A S M)), <- Rsum_count.
  rewrite (Rsum_map_ext_in _ (fun '(i, j) => 1))
    by (intros [i j] _; reflexivity).
  rewrite <- Rsum_pairs. apply Rsum_map_ext_in. intros i _.
  apply Rsum_map_ext_in. intros j _. lra.
Qed.

Lemma binop_scalar_l (f : R -> R -> R) (x : R) (t : tensor) :
  Torch.binop f (Scalar x) t = Ok (Torch.map_tensor (f x) t).
Proof. reflexivity. Qed.

Lemma binop_scalar_r (f : R -> R -> R) (t : tensor) (y : R) :
  Torch.binop f t (Scalar y) = Ok (Torch.map_tensor (fun x => f x y) t).
Proof. destruct t; reflexivity. Qed.

Lemma map_tensor_scalar (g : R -> R) (x : R) :
  Torch.map_tensor g (Scalar x) = Scalar (g x).
Proof. reflexivity. Qed.

(** One step of evaluating a loss on tabulated tensors *)
Ltac tensor_step :=
  first [ rewrite binop_tab | rewrite binop_tab_column | rewrite binop_vec
        | rewrite map_tensor_tab | rewrite map_tensor_column
        | rewrite map_tensor_vec | rewrite map_tensor_scalar
        | rewrite sum_tab | rewrite sum_dim1_tab | rewrite sum_dim1_keepdim_tab
        | rewrite binop_scalar_r | rewrite binop_scalar_l ];
  cbn [bind].

(** What [JSD.compute] evaluates to with the default discriminator, entry
    by entry. *)
Lemma JSD_compute_tab (n_a n_s d : nat) (A S : list (list R)) (P N : list (list bool)) :
  has_shape n_a d A -> has_shape n_s d S ->
  has_shape n_a n_s P -> has_shape n_a n_s N ->
  let p := fun i j => b2r (entry P i j) in
  let q := fun i j => b2r (entry N i j) in
  let total := fun (f : nat -> nat -> R) =>
    Rsum (map (fun i => Rsum (map (f i) (seq 0 n_s))) (seq 0 n_a)) in
  JSD.compute JSD.default_discriminator
    (mkContrastInstance (Mat d A) (Mat d S)
       (VTensor (mask_tensor n_s P)) (VTensor (mask_tensor n_s N)))
  = Ok (VTensor (Scalar
      (total (fun i j => F.softplus1 (- (raw_sim A S i j * q i j))
                         + raw_sim A S i j * q i j - ln 2)
       / total q
       - total (fun i j => ln 2 - F.softplus1 (- raw_sim A S i j * p i j))
         / total p))).
Proof.
  intros [HA _] [HS _] HP HN p q total.
  unfold JSD.compute, unpack. cbn [anchor sample pos_mask neg_mask].
  rewrite (mask_int_tab n_a n_s N HN), (mask_int_tab n_a n_s P HP). cbn [bind].
  rewrite default_discriminator_tab, HA, HS. cbn [bind as_tensor].
  rewrite (mask_tensor_tab n_a n_s P HP), (mask_tensor_tab n_a n_s N HN).
  unfold Torch.neg, F.softplus, Torch.mul, Torch.add, Torch.sub, Torch.div.
  repeat tensor_step.
  reflexivity.
Qed.

Lemma Rsum_rows_ext (n m : nat) (f g : nat -> nat -> R) :
  (forall i j, f i j = g i j) ->
  Rsum (map (fun i => Rsum (map (f i) (seq 0 m))) (seq 0 n))
  = Rsum (map (fun i => Rsum (map (g i) (seq 0 m))) (seq 0 n)).
Proof.
  intros H. apply Rsum_map_ext_in. intros i _.
  apply Rsum_map_ext_in. intros j _. apply H.
Qed.

(** C6: with the default dot-product discriminator and masks that each
    hold a 1, [JSD.compute] returns E_neg - E_pos, where E_pos is the mean
    over the positive pairs of [log 2 - softplus(-sim)] and E_neg the mean
    over the negative pairs of [softplus(-sim) + sim - log 2], sim being
    the raw dot product; an entry outside a mask adds nothing to its term. *)
Theorem JSD_compute_formula :
  forall (n_a n_s d : nat) (A S : list (list R)) (P N : list (list bool)),
    has_shape n_a d A -> has_shape n_s d S ->
    has_shape n_a n_s P -> has_shape n_a n_s N ->
    mask_has_one P = true -> mask_has_one N = true ->
    JSD.compute JSD.default_discriminator
      (mkContrastInstance (Mat d A) (Mat d S)
         (VTensor (mask_tensor n_s P)) (VTensor (mask_tensor n_s N)))
    = Ok (VTensor (Scalar (JSD_formula A S P N))).
Proof.
  intros n_a n_s d A S P N HA HS HP HN _ _.
  rewrite (JSD_compute_tab n_a n_s d A S P N HA HS HP HN).
  destruct HA as [HA _], HS as [HS _]. subst n_a n_s.
  do 3 f_equal. unfold JSD_formula, Rmean. rewrite !length_map.
  rewrite !count_pairs. f_equal; f_equal.
  - rewrite <- Rsum_pairs. apply Rsum_rows_ext. intros i j.
    destruct (entry N i j); cbn [b2r].
    + rewrite !Rmult_1_r. reflexivity.
    + rewrite !Rmult_0_r, Ropp_0, softplus1_0. ring.
  - rewrite <- Rsum_pairs. apply Rsum_rows_ext. intros i j.
    destruct (entry P i j); cbn [b2r].
    + rewrite !Rmult_1_r. reflexivity.
    + rewrite !Rmult_0_r, softplus1_0. ring.
Qed.

Lemma JSD_compute_formula_witness :
  JSD.compute JSD.default_discriminator
    (mkContrastInstance (Mat 2 one_hot_rows) (Mat 2 one_hot_rows)
       (VTensor (mask_tensor 2 identity_mask))
       (VTensor (mask_tensor 2 off_diagonal_mask)))
  = Ok (VTensor (Scalar
      (JSD_formula one_hot_rows one_hot_rows identity_mask off_diagonal_mask))).
Proof.
  apply (JSD_compute_formula 2 2 2 one_hot_rows one_hot_rows
           identity_mask off_diagonal_mask);
    first [ apply shape_2x2 | reflexivity ].
Defined.

(** ** DebiasedInfoNCE *)

(** On matrices of matching shapes [DebiasedInfoNCE.compute] gets as far as
    line 84, where [pos + ng] has rank 1 and [sum(dim=1, keepdim=True)]
    raises. *)
Lemma DebiasedInfoNCE_compute_raises (tau tau_plus : R) (n_a n_s d : nat)
  (A S : list (list R)) (P N : list (list bool)) :
  has_shape n_a d A -> has_shape n_s d S ->
  has_shape n_a n_s P -> has_shape n_a n_s N ->
  DebiasedInfoNCE.compute tau tau_plus
    (mkContrastInstance (Mat d A) (Mat d S)
       (VTensor (mask_tensor n_s P)) (VTensor (mask_tensor n_s N)))
  = Raise (IndexError "Dimension out of range").
Proof.
  intros [HA _] [HS _] HP HN.
  unfold DebiasedInfoNCE.compute, DebiasedInfoNCE.log_prob, unpack.
  cbn [anchor sample pos_mask neg_mask].
  rewrite (mask_int_tab n_a n_s N HN), (mask_int_tab n_a n_s P HP). cbn [bind].
  rewrite similarity_tab, HA, HS. cbn [bind as_tensor].
  rewrite (mask_tensor_tab n_a n_s P HP), (mask_tensor_tab n_a n_s N HN).
  unfold Torch.neg, Torch.exp, Torch.mul, Torch.add, Torch.sub, Torch.div,
    Torch.clamp_min.
  repeat tensor_step.
  reflexivity.
Qed.

(** Lines 85 to 87 return the mean over rows of the mean of [log_prob]
    over the positive columns as it is, where [InfoNCE.compute] returns
    its opposite. *)
Lemma DebiasedInfoNCE_masked_mean_sign (n m : nat) (lp : nat -> nat -> R)
  (P : list (list bool)) :
  has_shape n m P ->
  let row_mean := fun i =>
    Rsum (map (lp i) (filter (entry P i) (seq 0 m)))
    / INR (length (filter (entry P i) (seq 0 m))) in
  DebiasedInfoNCE.masked_mean (Mat m (tab n m lp)) (VTensor (mask_tensor m P))
  = Ok (VTensor (Scalar (Rsum (map row_mean (seq 0 n)) / INR n))).
Proof.
  intros HP row_mean.
  unfold DebiasedInfoNCE.masked_mean. cbn [as_tensor bind].
  rewrite (mask_tensor_tab n m P HP).
  unfold Torch.mul, Torch.div.
  repeat tensor_step.
  rewrite mean_vec. do 4 f_equal.
  apply Rsum_map_ext_in. intros i _. unfold row_mean.
  now rewrite Rsum_mask, Rsum_count.
Qed.

(** C1: on the two one-hot rows with the identity pairing, temperature 1/2
    and tau_plus 1/10, [DebiasedInfoNCE.compute] raises an IndexError and
    returns no loss. *)
Theorem DebiasedInfoNCE_compute_fails :
  DebiasedInfoNCE.compute (1 / 2) (1 / 10)
    (mkContrastInstance (Mat 2 one_hot_rows) (Mat 2 one_hot_rows)
       (VTensor (mask_tensor 2 identity_mask))
       (VTensor (mask_tensor 2 off_diagonal_mask)))
  = Raise (IndexError "Dimension out of range").
Proof.
  apply (DebiasedInfoNCE_compute_raises (1 / 2) (1 / 10) 2 2 2
           one_hot_rows one_hot_rows identity_mask off_diagonal_mask);
    apply shape_2x2.
Qed.

(** ** get_split: sizes and partition in general *)

Lemma py_int_nonneg (q : Q) : (0 <= q)%Q -> py_int q = Qfloor q.
Proof.
  intros H. destruct q as [n d]. unfold py_int, Qfloor. cbn [Qnum Qden].
  apply Z.quot_div_nonneg; [| lia].
  unfold Qle in H. cbn in H. lia.
Qed.

Lemma not_inf (x : Q) : (0 <= x)%Q -> (x <= 2 ^ 53)%Q -> is_inf x = false.
Proof.
  intros H0 H. unfold is_inf.
  destruct (Qle_bool (2 ^ 1024) (Qabs x)) eqn:E; [| reflexivity].
  apply Qle_bool_iff in E. rewrite Qabs_pos in E by exact H0.
  pose proof (pow2_lt 53 1024 ltac:(lia)). exfalso. Lqa.lra.
Qed.

(** An int below 2^53 becomes the float of the same value. *)
Lemma py_float_exact (n : Z) :
  (0 <= n < 2 ^ 53)%Z -> py_float n = Ok (inject_Z n).
Proof.
  intros Hn. pose proof (double_Z n Hn) as Hd.
  assert (double (inject_Z n) = inject_Z n) as Heq.
  { unfold double in *. destruct (Qeq_bool (inject_Z n) 0) eqn:E.
    - apply Qeq_bool_iff in E. unfold Qeq in E. cbn in E.
      replace n with 0%Z by lia. reflexivity.
    - rewrite Qred_correct in Hd. apply Qred_complete in Hd. rewrite Hd.
      unfold inject_Z, Qred.
      pose proof (Z.ggcd_gcd n 1) as Hg.
      pose proof (Z.ggcd_correct_divisors n 1) as Hdiv.
      destruct (Z.ggcd n 1) as (c, (u, v)). cbn [fst snd] in *.
      rewrite Z.gcd_1_r in Hg. subst c. destruct Hdiv as [Hu Hv].
      replace u with n by lia. replace v with 1%Z by lia. reflexivity. }
  unfold py_float. cbv zeta. rewrite Heq, not_inf; [reflexivity | |].
  - change 0%Q with (inject_Z 0). rewrite <- Zle_Qle. lia.
  - rewrite <- pow2_Z, <- Zle_Qle by lia. lia.
Qed.

(** The two sizes for a number of samples below 2^53 and ratios that are
    not negative and pass the assertion: they are computed, neither is
    negative, and together they do not exceed the number of samples. *)
Lemma split_sizes_bounds (n : Z) (tr te : Q) :
  (0 <= n < 2 ^ 53)%Z ->
  (0 <= tr)%Q -> (0 <= te)%Q -> (double (tr + te) < 1)%Q ->
  let a := py_int (double (inject_Z n * tr)) in
  let b := py_int (double (inject_Z n * te)) in
  split_sizes n tr te = Ok (a, b)
  /\ (0 <= a /\ 0 <= b /\ a + b <= n)%Z.
Proof.
  intros Hn Htr Hte Hsum a b.
  apply double_lt_1 in Hsum.
  assert (0 <= inject_Z n)%Q as Hn0.
  { change 0%Q with (inject_Z 0). rewrite <- Zle_Qle. lia. }
  assert (inject_Z n <= 2 ^ 53)%Q as Hn53.
  { rewrite <- pow2_Z, <- Zle_Qle by lia. lia. }
  assert (forall r, (0 <= r)%Q -> (r < 1)%Q ->
            (0 <= inject_Z n * r)%Q /\ (inject_Z n * r <= 2 ^ 53)%Q) as Hprod.
  { intros r Hr0 Hr1. split; [now apply Qmult_le_0_compat |]. Lqa.nra. }
  assert (forall r, (0 <= r)%Q -> (r < 1)%Q ->
            int_of_float (double (inject_Z n * r))
            = Ok (Qfloor (double (inject_Z n * r)))) as Hint.
  { intros r Hr0 Hr1. destruct (Hprod r Hr0 Hr1) as [Hp0 Hp1].
    unfold int_of_float. rewrite not_inf.
    - now rewrite py_int_nonneg by now apply double_nonneg.
    - now apply double_nonneg.
    - apply double_le_pow2; [lia | exact Hp1]. }
  assert (tr < 1)%Q as Htr1 by Lqa.lra.
  assert (te < 1)%Q as Hte1 by Lqa.lra.
  destruct (Hprod tr Htr Htr1) as [Hu0 _], (Hprod te Hte Hte1) as [Hv0 _].
  subst a b. rewrite !py_int_nonneg by now apply double_nonneg.
  split.
  - unfold split_sizes, int_mul_float. rewrite (py_float_exact n Hn).
    cbn [bind]. rewrite (Hint tr Htr Htr1). cbn [bind].
    rewrite (Hint te Hte Hte1). reflexivity.
  - pose proof (double_nonneg _ Hu0) as Hdu. pose proof (double_nonneg _ Hv0) as Hdv.
    repeat split.
    + change 0%Z with (Qfloor 0). now apply Qfloor_resp_le.
    + change 0%Z with (Qfloor 0). now apply Qfloor_resp_le.
    + pose proof (double_floor_upper _ Hu0) as Hu.
      pose proof (double_floor_upper _ Hv0) as Hv.
      pose proof (pow2_pos (-53)) as Hp.
      assert (inject_Z n * 2 ^ (-53) <= 1)%Q as Hn1.
      { apply Qle_trans with (2 ^ 53 * 2 ^ (-53))%Q.
        - apply Qmult_le_compat_r; [exact Hn53 | Lqa.lra].
        - rewrite <- pow2_plus. apply Qle_refl. }
      assert (Qfloor (double (inject_Z n * tr)) + Qfloor (double (inject_Z n * te))
              < n + 1)%Z; [| lia].
      rewrite Zlt_Qlt, !inject_Z_plus. change (inject_Z 1) with 1%Q.
      Lqa.nra.
Qed.

Lemma slice_bound_inside (n : nat) (i : Z) :
  (0 <= i <= Z.of_nat n)%Z -> slice_bound n i = Z.to_nat i.
Proof.
  intros H. unfold slice_bound.
  destruct (Z.ltb_spec i 0); [lia |]. f_equal. lia.
Qed.

Lemma slices_partition {X : Type} (l : list X) (a b : Z) :
  (0 <= a)%Z -> (0 <= b)%Z -> (a + b <= Z.of_nat (length l))%Z ->
  py_slice l None (Some a) ++ py_slice l (Some a) (Some (b + a)%Z)
    ++ py_slice l (Some (b + a)%Z) None = l
  /\ length (py_slice l None (Some a)) = Z.to_nat a
  /\ length (py_slice l (Some a) (Some (b + a)%Z)) = Z.to_nat b
  /\ length (py_slice l (Some (b + a)%Z) None)
     = (length l - Z.to_nat a - Z.to_nat b)%nat.
Proof.
  intros Ha Hb Hab. unfold py_slice.
  rewrite !slice_bound_inside by lia.
  replace (Z.to_nat (b + a) - Z.to_nat a)%nat with (Z.to_nat b) by lia.
  replace (Z.to_nat (b + a)) with (Z.to_nat b + Z.to_nat a)%nat by lia.
  rewrite Nat.sub_0_r. cbn [skipn].
  rewrite (firstn_all2 (n := length l - (Z.to_nat b + Z.to_nat a)))
    by (rewrite length_skipn; lia).
  rewrite <- (skipn_skipn (Z.to_nat b) (Z.to_nat a) l).
  rewrite firstn_skipn, firstn_skipn.
  rewrite !length_firstn, !length_skipn.
  repeat split; lia.
Qed.

Lemma ratios_pass_assert (train_ratio test_ratio : Q) :
  (double (train_ratio + test_ratio) < 1)%Q ->
  Qle_bool 1 (double (train_ratio + test_ratio)) = false.
Proof.
  intros H. destruct (Qle_bool 1 _) eqn:E; [| reflexivity].
  apply Qle_bool_iff in E. exfalso. apply (Qlt_not_le _ _ H E).
Qed.

Lemma split_loop_partitions (G : Generator) (n : nat) (train_size test_size : Z)
  (k : nat) :
  (0 <= train_size)%Z -> (0 <= test_size)%Z ->
  (train_size + test_size <= Z.of_nat n)%Z ->
  forall (out : list split_dict) (g : gen_state G),
    Forall (partitions n (Z.to_nat train_size) (Z.to_nat test_size)) out ->
    exists out' g',
      split_loop G k (Z.of_nat n) train_size test_size out g = (Ok out', g')
      /\ Forall (partitions n (Z.to_nat train_size) (Z.to_nat test_size)) out'
      /\ length out' = (length out + k)%nat.
Proof.
  intros Ha Hb Hab.
  induction k as [|k IH]; intros out g Hout.
  - exists out, g. cbn. repeat split; [assumption | lia].
  - cbn [split_loop]. unfold torch_randperm.
    destruct (Z.ltb_spec (Z.of_nat n) 0) as [Hneg | _]; [lia |].
    rewrite Nat2Z.id.
    pose proof (randperm_perm G n g) as Hperm.
    destruct (randperm G n g) as [p g1]. cbn [fst] in Hperm.
    pose proof (Permutation_length Hperm) as Hlen. rewrite length_seq in Hlen.
    destruct (slices_partition p train_size test_size) as (Hcat & Ht & Hv & Hs);
      try lia.
    match goal with
    | |- context [split_loop G k _ _ _ (out ++ [?d]) g1] =>
        destruct (IH (out ++ [d]) g1) as (out' & g' & Heq & Hall & Hlen')
    end.
    + apply Forall_app. split; [assumption |]. constructor; [| constructor].
      do 3 eexists. split; [reflexivity |].
      rewrite Hcat, Ht, Hv, Hs, Hlen. repeat split. exact Hperm.
    + exists out', g'. rewrite Heq. repeat split; [assumption |].
      rewrite Hlen', length_app. cbn. lia.
Qed.

(** For fewer than 2^53 samples, ratios that are not negative and whose
    rounded sum is below 1, and one split (the default), [get_split]
    returns one mapping with the keys 'train', 'valid' and 'test'; its
    three lists hold every index of 0, ..., n-1 once, 'train' has
    [int(n * train_ratio)] of them, 'valid' has [int(n * test_ratio)] and
    'test' has the rest, the products being rounded to a double before
    they are truncated. *)
Theorem get_split_one_partitions :
  forall (G : Generator) (n : nat) (train_ratio test_ratio : Q) (g : gen_state G),
    (Z.of_nat n < 2 ^ 53)%Z ->
    (0 <= train_ratio)%Q -> (0 <= test_ratio)%Q ->
    (double (train_ratio + test_ratio) < 1)%Q ->
    exists d g',
      get_split G (Z.of_nat n) 1 train_ratio test_ratio g = (Ok (OneSplit d), g')
      /\ partitions n
           (Z.to_nat (py_int (double (inject_Z (Z.of_nat n) * train_ratio))))
           (Z.to_nat (py_int (double (inject_Z (Z.of_nat n) * test_ratio)))) d.
Proof.
  intros G n tr te g Hn Htr Hte Hsum. unfold get_split.
  rewrite (ratios_pass_assert tr te Hsum). cbn [negb].
  destruct (split_sizes_bounds (Z.of_nat n) tr te ltac:(lia) Htr Hte Hsum)
    as (Hsizes & Ha & Hb & Hab).
  rewrite Hsizes.
  destruct (split_loop_partitions G n _ _ (Z.to_nat 1) Ha Hb Hab [] g
              (Forall_nil _)) as (out & g' & Heq & Hall & Hlen).
  rewrite Heq. change (1 <? 1)%Z with false. cbv iota.
  destruct out as [|d out]; [discriminate Hlen |].
  exists d, g'. split; [reflexivity |]. now inversion Hall.
Qed.

Lemma get_split_one_partitions_witness :
  exists d g',
    get_split identity_generator (Z.of_nat 10) 1 (double (1 # 10)) (double (7 # 10)) tt
    = (Ok (OneSplit d), g')
    /\ partitions 10 1 7 d.
Proof.
  apply (get_split_one_partitions identity_generator 10
           (double (1 # 10)) (double (7 # 10)) tt);
    vm_compute; first [reflexivity | discriminate].
Defined.

(** With two splits or more, under the same conditions, [get_split]
    returns a list of exactly [num_splits] such mappings. *)
Theorem get_split_many_partitions :
  forall (G : Generator) (n : nat) (num_splits : Z) (train_ratio test_ratio : Q)
         (g : gen_state G),
    (2 <= num_splits)%Z ->
    (Z.of_nat n < 2 ^ 53)%Z ->
    (0 <= train_ratio)%Q -> (0 <= test_ratio)%Q ->
    (double (train_ratio + test_ratio) < 1)%Q ->
    exists out g',
      get_split G (Z.of_nat n) num_splits train_ratio test_ratio g
      = (Ok (ManySplits out), g')
      /\ Z.of_nat (length out) = num_splits
      /\ Forall (partitions n
                   (Z.to_nat (py_int (double (inject_Z (Z.of_nat n) * train_ratio))))
                   (Z.to_nat (py_int (double (inject_Z (Z.of_nat n) * test_ratio)))))
           out.
Proof.
  intros G n k tr te g Hk Hn Htr Hte Hsum. unfold get_split.
  rewrite (ratios_pass_assert tr te Hsum). cbn [negb].
  destruct (split_sizes_bounds (Z.of_nat n) tr te ltac:(lia) Htr Hte Hsum)
    as (Hsizes & Ha & Hb & Hab).
  rewrite Hsizes.
  destruct (split_loop_partitions G n _ _ (Z.to_nat k) Ha Hb Hab [] g
              (Forall_nil _)) as (out & g' & Heq & Hall & Hlen).
  rewrite Heq. destruct (Z.ltb_spec 1 k) as [_ | H]; [| lia].
  exists out, g'. repeat split; [| assumption]. cbn in Hlen. lia.
Qed.

Lemma get_split_many_partitions_witness :
  exists out g',
    get_split identity_generator (Z.of_nat 100) 3 (double (29 # 100)) (double (1 # 2)) tt
    = (Ok (ManySplits out), g')
    /\ Z.of_nat (length out) = 3%Z
    /\ Forall (partitions 100 28 50) out.
Proof.
  apply (get_split_many_partitions identity_generator 100 3
           (double (29 # 100)) (double (1 # 2)) tt);
    vm_compute; first [reflexivity | discriminate].
Defined.

(** With [num_splits] 0 or negative, a number of samples from 0 to below
    2^53 and ratios that are not negative and pass the assertion, the loop
    does not run and [out[0]] raises an IndexError; no permutation is
    drawn. *)
Theorem get_split_without_splits :
  forall (G : Generator) (num_samples num_splits : Z) (train_ratio test_ratio : Q)
         (g : gen_state G),
    (num_splits <= 0)%Z ->
    (0 <= num_samples < 2 ^ 53)%Z ->
    (0 <= train_ratio)%Q -> (0 <= test_ratio)%Q ->
    (double (train_ratio + test_ratio) < 1)%Q ->
    get_split G num_samples num_splits train_ratio test_ratio g
    = (Raise (IndexError "list index out of range"), g).
Proof.
  intros G n k tr te g Hk Hn Htr Hte Hsum. unfold get_split.
  rewrite (ratios_pass_assert tr te Hsum). cbn [negb].
  destruct (split_sizes_bounds n tr te Hn Htr Hte Hsum) as (Hsizes & _).
  rewrite Hsizes.
  replace (Z.to_nat k) with 0%nat by lia. cbn [split_loop].
  destruct (Z.ltb_spec 1 k) as [H | _]; [lia | reflexivity].
Qed.

Lemma get_split_without_splits_witness :
  get_split identity_generator 10 0 (double (1 # 10)) (double (7 # 10)) tt
  = (Raise (IndexError "list index out of range"), tt).
Proof.
  apply (get_split_without_splits identity_generator 10 0
           (double (1 # 10)) (double (7 # 10)) tt);
    vm_compute; repeat split; first [reflexivity | intro; discriminate].
Defined.

(** The assertion compares the rounded sum: the doubles 0.7 and 0.3 sum
    to less than 1, their float sum is 1.0, and the call is refused. *)
Lemma get_split_rounded_sum :
  forall (G : Generator) (num_samples num_splits : Z) (g : gen_state G),
    (double (7 # 10) + double (3 # 10) < 1)%Q
    /\ get_split G num_samples num_splits (double (7 # 10)) (double (3 # 10)) g
       = (Raise AssertionError, g).
Proof.
  intros G n k g. split; [vm_compute; reflexivity |].
  unfold get_split.
  replace (Qle_bool 1 (double (double (7 # 10) + double (3 # 10)))) with true
    by (vm_compute; reflexivity).
  reflexivity.
Qed.

(** ** Contrast models: configuration errors and exchange of branches *)

Lemma bdim_sym (a b : nat) : Torch.bdim a b = Torch.bdim b a.
Proof.
  unfold Torch.bdim. rewrite (Nat.eqb_sym b a).
  destruct (Nat.eqb_spec a b) as [-> | Hne]; [reflexivity |].
  destruct (Nat.eqb_spec a 1) as [Ha | Ha], (Nat.eqb_spec b 1) as [Hb | Hb];
    try reflexivity; congruence.
Qed.

Lemma map2_comm {X Y : Type} (f : X -> X -> Y) (la lb : list X) :
  (forall x y, f x y = f y x) -> map2 f la lb = map2 f lb la.
Proof.
  intros Hf. revert lb. induction la as [|a la IH]; intros [|b lb]; cbn;
    try reflexivity.
  now rewrite Hf, IH.
Qed.

Lemma bzip_comm {X : Type} (f : X -> X -> X) (la lb : list X) :
  (forall x y, f x y = f y x) -> Torch.bzip f la lb = Torch.bzip f lb la.
Proof.
  intros Hf. unfold Torch.bzip. rewrite (Nat.eqb_sym (length lb)).
  destruct (Nat.eqb_spec (length la) (length lb)) as [_ | Hne];
    [now apply map2_comm |].
  assert (forall x l, map (f x) l = map (fun y => f y x) l) as Hmap
    by (intros; apply map_ext; intros; apply Hf).
  destruct la as [|a [|a' la]], lb as [|b [|b' lb]]; cbn [length] in Hne;
    try congruence; cbv beta iota; try reflexivity;
    first [ apply Hmap | symmetry; apply Hmap ].
Qed.

Lemma binop_comm (f : R -> R -> R) (t1 t2 : tensor) :
  (forall x y, f x y = f y x) -> Torch.binop f t1 t2 = Torch.binop f t2 t1.
Proof.
  intros Hf.
  assert (forall x l, map (f x) l = map (fun y => f y x) l) as Hmap
    by (intros; apply map_ext; intros; apply Hf).
  destruct t1 as [x | u | c1 a], t2 as [y | v | c2 b]; cbn [Torch.binop Torch.map_tensor].
  - now rewrite Hf.
  - now rewrite Hmap.
  - do 2 f_equal. apply map_ext. intros r. apply Hmap.
  - now rewrite Hmap.
  - rewrite (bdim_sym (length u)), (bzip_comm f u v Hf). reflexivity.
  - rewrite (bdim_sym (length u)). destruct (Torch.bdim c2 (length u)); cbn [bind];
      [| reflexivity].
    do 2 f_equal. apply map_ext. intros r. now apply bzip_comm.
  - do 2 f_equal. apply map_ext. intros r. symmetry. apply Hmap.
  - rewrite (bdim_sym c1). destruct (Torch.bdim (length v) c1); cbn [bind];
      [| reflexivity].
    do 2 f_equal. apply map_ext. intros r. now apply bzip_comm.
  - rewrite (bdim_sym c1), (bdim_sym (length a)).
    destruct (Torch.bdim c2 c1); cbn [bind]; [| reflexivity].
    destruct (Torch.bdim (length b) (length a)); cbn [bind]; [| reflexivity].
    do 2 f_equal. apply bzip_comm. intros r r'. now apply bzip_comm.
Qed.

Lemma average_comm (l1 l2 : value) :
  DualBranchContrast.average l1 l2 = DualBranchContrast.average l2 l1.
Proof.
  unfold DualBranchContrast.average, py_add.
  destruct l1 as [|t1], l2 as [|t2]; try reflexivity.
  cbn [as_tensor bind]. unfold Torch.add.
  rewrite (binop_comm Rplus t1 t2 Rplus_comm). reflexivity.
Qed.

(** A model whose sampler is the default sampler refuses extra masks: in
    every mode and for every other input [forward] raises the RuntimeError
    of its sanity check as soon as one of the two extra masks is given. *)
Theorem DualBranchContrast_default_sampler_rejects_extra_masks :
  forall (K : Type) (self : DualBranchContrast.model K)
         (x : DualBranchContrast.inputs),
    is_DefaultSampler (DualBranchContrast.sampler self) = true ->
    DualBranchContrast.extra_pos_mask x <> VNone
    \/ DualBranchContrast.extra_neg_mask x <> VNone ->
    DualBranchContrast.forward self x
    = Raise (RuntimeError
        "Default sampler does not support additional positive and negative samples").
Proof.
  intros K self x Hdef Hextra.
  unfold DualBranchContrast.forward, DualBranchContrast.direction_losses,
    DualBranchContrast.instances.
  rewrite Hdef.
  destruct (DualBranchContrast.extra_pos_mask x),
    (DualBranchContrast.extra_neg_mask x); try reflexivity.
  destruct Hextra as [H | H]; now elim H.
Qed.

Lemma DualBranchContrast_default_sampler_rejects_extra_masks_witness :
  DualBranchContrast.forward L2L_InfoNCE_model inputs_with_extra_mask
  = Raise (RuntimeError
      "Default sampler does not support additional positive and negative samples").
Proof.
  apply (DualBranchContrast_default_sampler_rejects_extra_masks unit
           L2L_InfoNCE_model inputs_with_extra_mask);
    [reflexivity | left; discriminate].
Defined.

(** A model built without a sampler, in L2L or G2G mode and without
    intra-view negatives, gets the default sampler. *)
Lemma DualBranchContrast_init_default (K : Type)
  (get_dense_sampler : string -> bool -> result Sampler)
  (loss : ContrastInstance -> K -> result value) (mode : string) (kwargs : K) :
  mode = "L2L"%string \/ mode = "G2G"%string ->
  DualBranchContrast__init__ get_dense_sampler loss mode false None kwargs
  = Ok (DualBranchContrast.mkModel loss mode DefaultSampler kwargs).
Proof. intros [-> | ->]; reflexivity. Qed.

Lemma forallb_swap_pairs (p : value -> bool) (a b c d e f : value) :
  forallb p [b; a; d; c; f; e] = forallb p [a; b; c; d; e; f].
Proof. cbn. destruct (p a), (p b), (p c), (p d), (p e), (p f); reflexivity. Qed.

(** Exchanging the two branches exchanges the two contrast instances. *)
Lemma DualBranchContrast_instances_swap (K : Type)
  (self : DualBranchContrast.model K) (x : DualBranchContrast.inputs)
  (ci1 ci2 : ContrastInstance) :
  DualBranchContrast.instances self x = Ok (ci1, ci2) ->
  DualBranchContrast.instances self (swap_branches x) = Ok (ci2, ci1).
Proof.
  unfold DualBranchContrast.instances, swap_branches.
  cbn [DualBranchContrast.h1 DualBranchContrast.h2 DualBranchContrast.g1
       DualBranchContrast.g2 DualBranchContrast.h3 DualBranchContrast.h4
       DualBranchContrast.batch DualBranchContrast.extra_pos_mask
       DualBranchContrast.extra_neg_mask DualBranchContrast.pos_mask1
       DualBranchContrast.pos_mask2 DualBranchContrast.neg_mask1
       DualBranchContrast.neg_mask2].
  destruct (is_DefaultSampler _ && _); [discriminate |].
  assert (forall (c1 c2 : sampler_call),
             (a <- sample_pairs (DualBranchContrast.sampler self) c1 ;;
              b <- sample_pairs (DualBranchContrast.sampler self) c2 ;;
              Ok (a, b)) = Ok (ci1, ci2) ->
             (a <- sample_pairs (DualBranchContrast.sampler self) c2 ;;
              b <- sample_pairs (DualBranchContrast.sampler self) c1 ;;
              Ok (a, b)) = Ok (ci2, ci1)) as Hcalls.
  { intros c1 c2.
    destruct (sample_pairs _ c1) as [a | e]; [| discriminate].
    destruct (sample_pairs _ c2) as [b | e]; [| discriminate].
    cbn [bind]. intros H. inversion H. reflexivity. }
  destruct (DualBranchContrast.mode self =? "L2L")%string.
  { rewrite (andb_comm (negb (is_none (DualBranchContrast.h2 x)))).
    destruct (py_assert _); [| discriminate]. cbn [bind]. apply Hcalls. }
  destruct (DualBranchContrast.mode self =? "G2G")%string.
  { rewrite (andb_comm (negb (is_none (DualBranchContrast.g2 x)))).
    destruct (py_assert _); [| discriminate]. cbn [bind]. apply Hcalls. }
  destruct (match DualBranchContrast.batch x with
            | Some b => _
            | None => _
            end) as [single | e]; [| discriminate].
  cbn [bind]. destruct single.
  - rewrite forallb_swap_pairs.
    destruct (py_assert _); [| discriminate]. cbn [bind]. apply Hcalls.
  - match goal with
    | |- context [py_assert (forallb ?p [?b; ?a; ?d; ?c] && ?r)] =>
        replace (forallb p [b; a; d; c]) with (forallb p [a; b; c; d])
          by (cbn; destruct (p a), (p b), (p c), (p d); reflexivity)
    end.
    destruct (py_assert _); [| discriminate]. cbn [bind]. apply Hcalls.
Qed.

(** When both direction losses are computed, exchanging the two branches
    (h1 with h2, g1 with g2, h3 with h4, the masks of direction 1 with
    those of direction 2) exchanges the two losses and leaves the value of
    [forward] as it is, in every mode. *)
Theorem DualBranchContrast_exchange_branches :
  forall (K : Type) (self : DualBranchContrast.model K)
         (x : DualBranchContrast.inputs) (l1 l2 : value),
    DualBranchContrast.direction_losses self x = Ok (l1, l2) ->
    DualBranchContrast.direction_losses self (swap_branches x) = Ok (l2, l1)
    /\ DualBranchContrast.forward self (swap_branches x)
       = DualBranchContrast.forward self x.
Proof.
  intros K self x l1 l2 Hl.
  assert (DualBranchContrast.direction_losses self (swap_branches x) = Ok (l2, l1))
    as Hswap.
  { unfold DualBranchContrast.direction_losses in *.
    destruct (DualBranchContrast.instances self x) as [[ci1 ci2] | e] eqn:Hci;
      [| discriminate].
    rewrite (DualBranchContrast_instances_swap K self x ci1 ci2 Hci).
    cbn [bind] in *.
    destruct (DualBranchContrast.loss self ci1 _) as [a | e]; [| discriminate].
    destruct (DualBranchContrast.loss self ci2 _) as [b | e]; [| discriminate].
    cbn [bind] in *. inversion Hl. reflexivity. }
  split; [exact Hswap |].
  unfold DualBranchContrast.forward. rewrite Hl, Hswap. cbn [bind].
  apply average_comm.
Qed.

Lemma DualBranchContrast_exchange_branches_witness :
  exists l1 l2 : value,
    DualBranchContrast.direction_losses L2L_InfoNCE_model two_view_inputs
    = Ok (l1, l2)
    /\ DualBranchContrast.direction_losses L2L_InfoNCE_model
         (swap_branches two_view_inputs) = Ok (l2, l1)
    /\ DualBranchContrast.forward L2L_InfoNCE_model (swap_branches two_view_inputs)
       = DualBranchContrast.forward L2L_InfoNCE_model two_view_inputs.
Proof.
  eexists. eexists. split; [reflexivity |].
  apply (DualBranchContrast_exchange_branches unit L2L_InfoNCE_model two_view_inputs).
  reflexivity.
Defined.

Lemma max_item_bound (b : list Z) (m : Z) :
  Forall (fun z => (z <= 0)%Z) b -> max_item b = Ok m -> (m <= 0)%Z.
Proof.
  destruct b as [|x b]; [discriminate |]. cbn [max_item].
  intros Hall H. inversion H as [Hm]. clear H Hm.
  inversion Hall as [|? ? Hx Hb]; subst. clear Hall.
  revert x Hx. induction b as [|y b IH]; intros x Hx; cbn [fold_left]; [assumption |].
  inversion Hb as [|? ? Hy Hb']; subst. apply IH; [assumption | lia].
Qed.

(** In G2L mode a batch vector that names one graph only (no entry above
    0) is handled as the single-graph case: without [h3] or [h4] the call
    raises an AssertionError although a batch vector was given. *)
Theorem DualBranchContrast_G2L_one_graph_batch :
  forall (K : Type) (self : DualBranchContrast.model K)
         (x : DualBranchContrast.inputs) (b : list Z),
    (DualBranchContrast.mode self =? "L2L")%string = false ->
    (DualBranchContrast.mode self =? "G2G")%string = false ->
    is_DefaultSampler (DualBranchContrast.sampler self) = false ->
    DualBranchContrast.batch x = Some b ->
    b <> [] -> Forall (fun z => (z <= 0)%Z) b ->
    DualBranchContrast.h3 x = VNone \/ DualBranchContrast.h4 x = VNone ->
    DualBranchContrast.forward self x = Raise AssertionError.
Proof.
  intros K self x b HL HG Hdef Hb Hne Hall Hmissing.
  unfold DualBranchContrast.forward, DualBranchContrast.direction_losses,
    DualBranchContrast.instances.
  rewrite Hdef, HL, HG, Hb. cbn [andb].
  destruct (max_item b) as [m | e] eqn:Hm; [| destruct b; [congruence | discriminate]].
  pose proof (max_item_bound b m Hall Hm) as Hle.
  cbn [bind]. destruct (Z.leb_spec (m + 1) 1) as [_ | H]; [| lia].
  assert (forallb (fun v => negb (is_none v))
            [DualBranchContrast.h1 x; DualBranchContrast.h2 x;
             DualBranchContrast.g1 x; DualBranchContrast.g2 x;
             DualBranchContrast.h3 x; DualBranchContrast.h4 x] = false) as ->.
  { cbn [forallb]. destruct Hmissing as [-> | ->]; cbn;
      rewrite ?andb_false_r; reflexivity. }
  reflexivity.
Qed.

Lemma DualBranchContrast_G2L_one_graph_batch_witness :
  DualBranchContrast.forward G2L_model one_graph_inputs = Raise AssertionError.
Proof.
  apply (DualBranchContrast_G2L_one_graph_batch unit G2L_model one_graph_inputs
           [0; 0]%Z); try reflexivity.
  - discriminate.
  - repeat constructor; lia.
  - left. reflexivity.
Defined.

(** [SingleBranchContrast] can only be built in mode 'G2L': any other mode
    raises an AssertionError before a sampler is asked for. *)
Lemma SingleBranchContrast_init_mode (K : Type)
  (get_dense_sampler : string -> bool -> result Sampler)
  (loss : ContrastInstance -> K -> result value) (mode : string)
  (intraview_negs : bool) (kwargs : K) :
  mode <> "G2L"%string ->
  SingleBranchContrast.__init__ get_dense_sampler loss mode intraview_negs kwargs
  = Raise AssertionError.
Proof.
  intros Hmode. unfold SingleBranchContrast.__init__.
  destruct (String.eqb_spec mode "G2L"); [contradiction | reflexivity].
Qed.

(** In G2L mode a dual-branch contrast is the average of two single-branch
    contrasts with the same loss and sampler: the graph embedding of one
    branch against the node embeddings of the other, [h4] and [h3] being
    the negative samples on a single graph.  When the two single-branch
    calls return the scalars [a] and [b], the dual-branch call returns
    [(a + b) * 0.5].  This holds when no extra masks are given and the
    batch vector is absent or names more than one graph. *)
Theorem DualBranchContrast_G2L_is_two_single_branches :
  forall (K : Type) (loss : ContrastInstance -> K -> result value)
         (sampler : Sampler) (kwargs : K) (h1 h2 g1 g2 : tensor)
         (batch : option (list Z)) (h3 h4 pm1 pm2 nm1 nm2 : value) (a b : R),
    let single := SingleBranchContrast.mkModel loss "G2L" sampler kwargs in
    let dual := DualBranchContrast.mkModel loss "G2L" sampler kwargs in
    plain_batch batch ->
    SingleBranchContrast.forward single (VTensor h2) (VTensor g1) batch h4 VNone VNone
    = Ok (VTensor (Scalar a)) ->
    SingleBranchContrast.forward single (VTensor h1) (VTensor g2) batch h3 VNone VNone
    = Ok (VTensor (Scalar b)) ->
    DualBranchContrast.forward dual
      (DualBranchContrast.mkInputs (VTensor h1) (VTensor h2) (VTensor g1) (VTensor g2)
         batch h3 h4 VNone VNone pm1 pm2 nm1 nm2)
    = Ok (VTensor (Scalar ((a + b) * 0.5))).
Proof.
  intros K loss sampler kwargs h1 h2 g1 g2 batch h3 h4 pm1 pm2 nm1 nm2 la lb
    single dual Hbatch H1 H2.
  unfold SingleBranchContrast.forward in H1, H2.
  unfold DualBranchContrast.forward, DualBranchContrast.direction_losses,
    DualBranchContrast.instances.
  cbn [single dual SingleBranchContrast.sampler SingleBranchContrast.loss
       SingleBranchContrast.kwargs DualBranchContrast.sampler
       DualBranchContrast.loss DualBranchContrast.kwargs DualBranchContrast.mode
       DualBranchContrast.h1 DualBranchContrast.h2 DualBranchContrast.g1
       DualBranchContrast.g2 DualBranchContrast.h3 DualBranchContrast.h4
       DualBranchContrast.batch DualBranchContrast.extra_pos_mask
       DualBranchContrast.extra_neg_mask is_none andb negb] in *.
  rewrite andb_false_r.
  change ("G2L" =? "L2L")%string with false.
  change ("G2L" =? "G2G")%string with false. cbv iota.
  destruct batch as [b |].
  - destruct Hbatch as (m & Hm & Hgt). rewrite Hm. cbn [bind].
    destruct (Z.leb_spec (m + 1) 1) as [Hle | _]; [lia |].
    cbn [forallb is_none negb andb py_assert bind].
    destruct (sample_pairs sampler _) as [ci1 | e] in H1 |- *; [| discriminate H1].
    destruct (sample_pairs sampler _) as [ci2 | e] in H2 |- *; [| discriminate H2].
    cbn [bind] in *. rewrite H1, H2. apply average_scalars.
  - cbn [bind].
    destruct h4 as [|t4]; [discriminate H1 |].
    destruct h3 as [|t3]; [discriminate H2 |].
    cbn [forallb is_none negb andb py_assert bind] in *.
    destruct (sample_pairs sampler _) as [ci1 | e] in H1 |- *; [| discriminate H1].
    destruct (sample_pairs sampler _) as [ci2 | e] in H2 |- *; [| discriminate H2].
    cbn [bind] in *. rewrite H1, H2. apply average_scalars.
Qed.

Lemma DualBranchContrast_G2L_is_two_single_branches_witness :
  exists a b : R,
    SingleBranchContrast.forward G2L_single_model
      (VTensor (Mat 2 one_hot_rows)) (VTensor (Mat 2 one_hot_rows)) None
      (VTensor (Mat 2 one_hot_rows)) VNone VNone = Ok (VTensor (Scalar a))
    /\ SingleBranchContrast.forward G2L_single_model
         (VTensor (Mat 2 one_hot_rows)) (VTensor (Mat 2 one_hot_rows)) None
         (VTensor (Mat 2 one_hot_rows)) VNone VNone = Ok (VTensor (Scalar b))
    /\ DualBranchContrast.forward G2L_model
         (DualBranchContrast.mkInputs
            (VTensor (Mat 2 one_hot_rows)) (VTensor (Mat 2 one_hot_rows))
            (VTensor (Mat 2 one_hot_rows)) (VTensor (Mat 2 one_hot_rows))
            None (VTensor (Mat 2 one_hot_rows)) (VTensor (Mat 2 one_hot_rows))
            VNone VNone VNone VNone VNone VNone)
       = Ok (VTensor (Scalar ((a + b) * 0.5))).
Proof.
  do 2 eexists. split; [reflexivity |]. split; [reflexivity |].
  apply (DualBranchContrast_G2L_is_two_single_branches unit
           (fun ci _ => InfoNCE.compute (1 / 2) ci)
           (mkSampler false DefaultSampler_call) tt
           (Mat 2 one_hot_rows) (Mat 2 one_hot_rows) (Mat 2 one_hot_rows)
           (Mat 2 one_hot_rows) None
           (VTensor (Mat 2 one_hot_rows)) (VTensor (Mat 2 one_hot_rows))
           VNone VNone VNone VNone);
    [exact I | reflexivity | reflexivity].
Defined.

Lemma BootstrapContrast_instances_swap (self : BootstrapContrast.model)
  (x : BootstrapContrast.inputs) (ci1 ci2 : ContrastInstance) :
  BootstrapContrast.instances self x = Ok (ci1, ci2) ->
  BootstrapContrast.instances self (BootstrapContrast.swap_views x) = Ok (ci2, ci1).
Proof.
  unfold BootstrapContrast.instances, BootstrapContrast.swap_views.
  cbn [BootstrapContrast.h1_pred BootstrapContrast.h2_pred
       BootstrapContrast.h1_target BootstrapContrast.h2_target
       BootstrapContrast.g1_pred BootstrapContrast.g2_pred
       BootstrapContrast.g1_target BootstrapContrast.g2_target
       BootstrapContrast.batch BootstrapContrast.extra_pos_mask].
  assert (forall (r1 r2 : result ContrastInstance),
             (a <- r1 ;; b <- r2 ;; Ok (a, b)) = Ok (ci1, ci2) ->
             (a <- r2 ;; b <- r1 ;; Ok (a, b)) = Ok (ci2, ci1)) as Hcalls.
  { intros [a | e] [b | e']; try discriminate.
    cbn [bind]. intros H. inversion H. reflexivity. }
  assert (forall a b c d : value,
             BootstrapContrast.all_given [b; a; d; c]
             = BootstrapContrast.all_given [a; b; c; d]) as Hperm.
  { intros a b c d. unfold BootstrapContrast.all_given. cbn.
    destruct (is_none a), (is_none b), (is_none c), (is_none d); reflexivity. }
  destruct (BootstrapContrast.mode self =? "L2L")%string.
  { rewrite Hperm. destruct (py_assert _); [| discriminate]. cbn [bind].
    apply Hcalls. }
  destruct (BootstrapContrast.mode self =? "G2G")%string.
  { rewrite Hperm. destruct (py_assert _); [| discriminate]. cbn [bind].
    apply Hcalls. }
  rewrite Hperm. destruct (py_assert _); [| discriminate]. cbn [bind].
  destruct (BootstrapContrast.batch x) as [b |]; [| apply Hcalls].
  destruct (max_item b) as [m | e]; [| discriminate]. cbn [bind].
  destruct (m + 1 <=? 1)%Z; apply Hcalls.
Qed.

(** When the loss gives the scalars [a] and [b] on the two contrast
    instances, [BootstrapContrast.forward] returns [(a + b) * 0.5], and
    exchanging the two views (every argument with index 1 with its partner
    with index 2) leaves that value as it is, in every mode. *)
Theorem BootstrapContrast_exchange_views :
  forall (self : BootstrapContrast.model) (x : BootstrapContrast.inputs)
         (ci1 ci2 : ContrastInstance) (a b : R),
    BootstrapContrast.instances self x = Ok (ci1, ci2) ->
    BootstrapContrast.loss self ci1 = Ok (VTensor (Scalar a)) ->
    BootstrapContrast.loss self ci2 = Ok (VTensor (Scalar b)) ->
    BootstrapContrast.forward self x = Ok (VTensor (Scalar ((a + b) * 0.5)))
    /\ BootstrapContrast.forward self (BootstrapContrast.swap_views x)
       = BootstrapContrast.forward self x.
Proof.
  intros self x ci1 ci2 a b Hci H1 H2.
  unfold BootstrapContrast.forward.
  rewrite (BootstrapContrast_instances_swap self x ci1 ci2 Hci), Hci.
  cbn [bind]. rewrite H1, H2. cbn [bind].
  split; [apply average_scalars | apply average_comm].
Qed.

(** When both losses are computed, [WithinEmbedContrast.forward] gives the
    same value for (h1, h2) and for (h2, h1). *)
Theorem WithinEmbedContrast_symmetric :
  forall (loss : ContrastInstance -> result value) (h1 h2 : tensor) (l1 l2 : value),
    loss (mkContrastInstance h1 h2 VNone VNone) = Ok l1 ->
    loss (mkContrastInstance h2 h1 VNone VNone) = Ok l2 ->
    WithinEmbedContrast.forward loss h1 h2 = WithinEmbedContrast.forward loss h2 h1.
Proof.
  intros loss h1 h2 l1 l2 H1 H2. unfold WithinEmbedContrast.forward.
  rewrite H1, H2. cbn [bind]. apply average_comm.
Qed.

Lemma BootstrapContrast_exchange_views_witness :
  exists (ci1 ci2 : ContrastInstance) (a b : R),
    BootstrapContrast.instances bootstrap_model bootstrap_inputs = Ok (ci1, ci2)
    /\ BootstrapContrast.loss bootstrap_model ci1 = Ok (VTensor (Scalar a))
    /\ BootstrapContrast.loss bootstrap_model ci2 = Ok (VTensor (Scalar b))
    /\ BootstrapContrast.forward bootstrap_model bootstrap_inputs
       = Ok (VTensor (Scalar ((a + b) * 0.5)))
    /\ BootstrapContrast.forward bootstrap_model
         (BootstrapContrast.swap_views bootstrap_inputs)
       = BootstrapContrast.forward bootstrap_model bootstrap_inputs.
Proof.
  do 4 eexists.
  split; [reflexivity |]. split; [reflexivity |]. split; [reflexivity |].
  eapply (BootstrapContrast_exchange_views bootstrap_model bootstrap_inputs);
    reflexivity.
Defined.

Lemma WithinEmbedContrast_symmetric_witness :
  exists l1 l2 : value,
    InfoNCE.compute_default_positive (1 / 2)
      (mkContrastInstance (Mat 2 one_hot_rows) (Mat 2 [[1; 0]; [1; 0]]) VNone VNone)
    = Ok l1
    /\ InfoNCE.compute_default_positive (1 / 2)
         (mkContrastInstance (Mat 2 [[1; 0]; [1; 0]]) (Mat 2 one_hot_rows) VNone VNone)
       = Ok l2
    /\ WithinEmbedContrast.forward (InfoNCE.compute_default_positive (1 / 2))
         (Mat 2 one_hot_rows) (Mat 2 [[1; 0]; [1; 0]])
       = WithinEmbedContrast.forward (InfoNCE.compute_default_positive (1 / 2))
           (Mat 2 [[1; 0]; [1; 0]]) (Mat 2 one_hot_rows).
Proof.
  do 2 eexists.
  split; [reflexivity |]. split; [reflexivity |].
  eapply (WithinEmbedContrast_symmetric (InfoNCE.compute_default_positive (1 / 2))
            (Mat 2 one_hot_rows) (Mat 2 [[1; 0]; [1; 0]])); reflexivity.
Defined.

(** ** Losses: errors, bounds and relations between the variants *)

(** [HardnessInfoNCE.compute] stops where [DebiasedInfoNCE.compute] does:
    for a temperature above 0, on matrices and 0/1 masks of matching
    shapes, [pos + ng] has rank 1 at line 114 and
    [sum(dim=1, keepdim=True)] raises an IndexError.  (For a temperature
    of 0 or below, [np.e ** (-1. / self.tau)] on line 112 is arithmetic on
    Python floats and may raise before that.) *)
Theorem HardnessInfoNCE_compute_raises :
  forall (tau tau_plus beta : R) (n_a n_s d : nat) (A S : list (list R))
         (P N : list (list bool)),
    0 < tau ->
    has_shape n_a d A -> has_shape n_s d S ->
    has_shape n_a n_s P -> has_shape n_a n_s N ->
    HardnessInfoNCE_compute tau tau_plus beta
      (mkContrastInstance (Mat d A) (Mat d S)
         (VTensor (mask_tensor n_s P)) (VTensor (mask_tensor n_s N)))
    = Raise (IndexError "Dimension out of range").
Proof.
  intros tau tau_plus beta n_a n_s d A S P N _ [HA _] [HS _] HP HN.
  unfold HardnessInfoNCE_compute, unpack.
  cbn [anchor sample pos_mask neg_mask].
  rewrite (mask_int_tab n_a n_s N HN), (mask_int_tab n_a n_s P HP). cbn [bind].
  rewrite similarity_tab, HA, HS. cbn [bind as_tensor].
  rewrite (mask_tensor_tab n_a n_s P HP), (mask_tensor_tab n_a n_s N HN).
  unfold Torch.neg, Torch.exp, Torch.mul, Torch.add, Torch.sub, Torch.div,
    Torch.clamp_min.
  repeat tensor_step.
  unfold torch_mean_dim1, tab. rewrite map_map. cbn [bind].
  repeat tensor_step.
  reflexivity.
Qed.

Lemma HardnessInfoNCE_compute_raises_witness :
  HardnessInfoNCE_compute (1 / 2) (1 / 10) 1
    (mkContrastInstance (Mat 2 one_hot_rows) (Mat 2 one_hot_rows)
       (VTensor (mask_tensor 2 identity_mask))
       (VTensor (mask_tensor 2 off_diagonal_mask)))
  = Raise (IndexError "Dimension out of range").
Proof.
  apply (HardnessInfoNCE_compute_raises (1 / 2) (1 / 10) 1 2 2 2
           one_hot_rows one_hot_rows identity_mask off_diagonal_mask);
    first [ apply shape_2x2 | lra ].
Defined.

Lemma ln_le_compat (x y : R) : 0 < x -> x <= y -> ln x <= ln y.
Proof.
  intros Hx [Hlt | ->]; [| lra]. left. now apply ln_increasing.
Qed.

Lemma Rsum_nonneg {X : Type} (f : X -> R) (l : list X) :
  (forall x, In x l -> 0 <= f x) -> 0 <= Rsum (map f l).
Proof.
  induction l as [|x l IH]; intros H; cbn; [lra |].
  pose proof (H x (or_introl eq_refl)).
  assert (0 <= Rsum (map f l)) by (apply IH; intros; apply H; now right).
  unfold Rsum in *. lra.
Qed.

Lemma Rsum_ge_term {X : Type} (f : X -> R) (l : list X) (j : X) :
  (forall x, In x l -> 0 <= f x) -> In j l -> f j <= Rsum (map f l).
Proof.
  induction l as [|x l IH]; intros H Hj; [contradiction |].
  cbn [map Rsum fold_right]. fold (Rsum (map f l)).
  destruct Hj as [-> | Hj].
  - assert (0 <= Rsum (map f l))
      by (apply Rsum_nonneg; intros; apply H; now right).
    lra.
  - pose proof (H x (or_introl eq_refl)).
    assert (f j <= Rsum (map f l)) by (apply IH; [intros; apply H; now right | assumption]).
    lra.
Qed.

Lemma Rsum_nonpos {X : Type} (f : X -> R) (l : list X) :
  (forall x, In x l -> f x <= 0) -> Rsum (map f l) <= 0.
Proof.
  intros H. apply Ropp_le_cancel. rewrite Ropp_0, <- Rsum_map_opp.
  apply Rsum_nonneg. intros x Hx. specialize (H x Hx). lra.
Qed.

Lemma div_nonpos (s y : R) : s <= 0 -> 0 < y -> s / y <= 0.
Proof.
  intros Hs Hy. pose proof (Rinv_0_lt_compat y Hy). unfold Rdiv. nra.
Qed.

Lemma row_has_positive (n m : nat) (P : list (list bool)) (i : nat) :
  has_shape n m P -> every_row_has_one P = true -> (i < n)%nat ->
  0 < INR (length (filter (entry P i) (seq 0 m))).
Proof.
  intros [Hn Hm] Hall Hi. unfold every_row_has_one in Hall.
  rewrite forallb_forall in Hall.
  assert (In (nth i P []) P) as Hin by (apply nth_In; lia).
  specialize (Hall _ Hin). apply existsb_exists in Hall as (b & Hb & Htrue).
  subst b. apply (In_nth _ _ false) in Hb as (j & Hj & Hnth).
  rewrite Forall_forall in Hm. rewrite (Hm _ Hin) in Hj.
  assert (In j (filter (entry P i) (seq 0 m))) as Hfil.
  { apply filter_In. split; [apply in_seq; lia | exact Hnth]. }
  destruct (filter (entry P i) (seq 0 m)); [contradiction |].
  cbn [length]. rewrite S_INR. pose proof (pos_INR (length l)). lra.
Qed.

(** With 0/1 masks of matching shapes (overlapping or not), at least one
    anchor row and a positive in every row, [InfoNCE.compute] returns a
    loss that is not negative. *)
Theorem InfoNCE_compute_nonnegative :
  forall (tau : R) (n_a n_s d : nat) (A S : list (list R)) (P N : list (list bool)),
    (1 <= n_a)%nat ->
    has_shape n_a d A -> has_shape n_s d S ->
    has_shape n_a n_s P -> has_shape n_a n_s N ->
    every_row_has_one P = true ->
    exists x : R,
      InfoNCE.compute tau
        (mkContrastInstance (Mat d A) (Mat d S)
           (VTensor (mask_tensor n_s P)) (VTensor (mask_tensor n_s N)))
      = Ok (VTensor (Scalar x))
      /\ 0 <= x.
Proof.
  intros tau n_a n_s d A S P N Hn [HA _] [HS _] HP HN Hone.
  rewrite (mask_tensor_tab n_a n_s P HP), (mask_tensor_tab n_a n_s N HN).
  subst n_a n_s. rewrite InfoNCE_compute_tab.
  eexists. split; [reflexivity |].
  set (sim := normalized_sim A S tau).
  assert (0 < INR (length A)) as Hpos by (apply lt_0_INR; lia).
  apply Ropp_0_ge_le_contravar, Rle_ge, div_nonpos; [| assumption].
  apply Rsum_nonpos. intros i Hi. apply in_seq in Hi.
  rewrite Rsum_count.
  pose proof (row_has_positive _ _ P i HP Hone ltac:(lia)) as Hcount.
  apply div_nonpos; [| assumption].
  apply Rsum_nonpos. intros j Hj.
  destruct (entry P i j) eqn:Hp; cbn [b2r]; [| lra].
  rewrite Rmult_1_r.
  set (D := Rsum (map _ (seq 0 (length S)))).
  assert (Rtrigo_def.exp (sim i j) <= D) as HD.
  { apply Rle_trans
      with (Rtrigo_def.exp (sim i j) * (b2r (entry P i j) + b2r (entry N i j))).
    - rewrite Hp. cbn [b2r]. pose proof (exp_pos (sim i j)).
      destruct (entry N i j); cbn [b2r]; nra.
    - apply (Rsum_ge_term
               (fun k => Rtrigo_def.exp (sim i k)
                         * (b2r (entry P i k) + b2r (entry N i k))));
        [| assumption].
      intros k _. pose proof (exp_pos (sim i k)).
      destruct (entry P i k), (entry N i k); cbn [b2r]; nra. }
  pose proof (ln_le_compat _ _ (exp_pos (sim i j)) HD) as Hln.
  rewrite ln_exp in Hln. lra.
Qed.

Lemma InfoNCE_compute_nonnegative_witness :
  exists x : R,
    InfoNCE.compute (1 / 2)
      (mkContrastInstance (Mat 2 one_hot_rows) (Mat 2 one_hot_rows)
         (VTensor (mask_tensor 2 identity_mask))
         (VTensor (mask_tensor 2 off_diagonal_mask)))
    = Ok (VTensor (Scalar x))
    /\ 0 <= x.
Proof.
  apply (InfoNCE_compute_nonnegative (1 / 2) 2 2 2 one_hot_rows one_hot_rows
           identity_mask off_diagonal_mask);
    first [ lia | apply shape_2x2 | reflexivity ].
Defined.

(** On two embedding matrices with the same number of rows, at least one,
    [InfoNCE.compute_default_positive] returns a loss that is not
    negative. *)
Theorem InfoNCE_default_positive_nonnegative :
  forall (tau : R) (n d : nat) (A S : list (list R)),
    (1 <= n)%nat ->
    has_shape n d A -> has_shape n d S ->
    exists x : R,
      InfoNCE.compute_default_positive tau
        (mkContrastInstance (Mat d A) (Mat d S) VNone VNone)
      = Ok (VTensor (Scalar x))
      /\ 0 <= x.
Proof.
  intros tau n d A S Hn [HA _] [HS _].
  rewrite (InfoNCE_default_positive_tab tau n d A S HA HS).
  eexists. split; [reflexivity |].
  assert (0 < INR n) as Hpos by (apply lt_0_INR; lia).
  apply Rmult_le_pos; [| left; now apply Rinv_0_lt_compat].
  apply Rsum_nonneg. intros i Hi.
  set (e := fun j => Rtrigo_def.exp (normalized_sim A S tau i j)).
  set (rs := Rsum (map _ (seq 0 n))).
  change (0 <= - ln (e i / (e i + (rs - e i)))).
  replace (e i + (rs - e i)) with rs by ring.
  assert (e i <= rs) as Hle.
  { apply (Rsum_ge_term e); [| assumption].
    intros k _. left. apply exp_pos. }
  assert (0 < e i) as He by apply exp_pos.
  assert (0 < e i / rs) as Hratio by (apply Rdiv_lt_0_compat; lra).
  assert (e i / rs <= 1) as Hone.
  { apply (Rmult_le_reg_r rs); [lra |]. unfold Rdiv.
    rewrite Rmult_assoc, Rinv_l by lra. lra. }
  pose proof (ln_le_compat _ _ Hratio Hone) as Hln. rewrite ln_1 in Hln. lra.
Qed.

Lemma InfoNCE_default_positive_nonnegative_witness :
  exists x : R,
    InfoNCE.compute_default_positive (1 / 2)
      (mkContrastInstance (Mat 2 one_hot_rows) (Mat 2 one_hot_rows) VNone VNone)
    = Ok (VTensor (Scalar x))
    /\ 0 <= x.
Proof.
  apply (InfoNCE_default_positive_nonnegative (1 / 2) 2 2 one_hot_rows one_hot_rows);
    first [ lia | apply shape_2x2 ].
Defined.

(** When anchor and sample embeddings have different widths, the matrix
    product in [similarity] raises a RuntimeError: [InfoNCE.compute] and
    [InfoNCE.compute_default_positive] return no loss, whatever the masks
    are. *)
Theorem InfoNCE_width_mismatch :
  forall (tau : R) (d1 d2 : nat) (A S : list (list R)) (pm nm : value),
    d1 <> d2 ->
    InfoNCE.compute tau (mkContrastInstance (Mat d1 A) (Mat d2 S) pm nm)
    = Raise Torch.shapes_cannot_be_multiplied
    /\ InfoNCE.compute_default_positive tau
         (mkContrastInstance (Mat d1 A) (Mat d2 S) pm nm)
       = Raise Torch.shapes_cannot_be_multiplied.
Proof.
  intros tau d1 d2 A S pm nm Hd.
  unfold InfoNCE.compute, InfoNCE.compute_default_positive, unpack, similarity.
  cbn [anchor sample F.normalize bind Torch.matmul_t].
  destruct (Nat.eqb_spec d1 d2); [contradiction |]. split; reflexivity.
Qed.

Lemma InfoNCE_width_mismatch_witness :
  InfoNCE.compute (1 / 2)
    (mkContrastInstance (Mat 2 one_hot_rows) (Mat 1 single_row) VNone VNone)
  = Raise Torch.shapes_cannot_be_multiplied
  /\ InfoNCE.compute_default_positive (1 / 2)
       (mkContrastInstance (Mat 2 one_hot_rows) (Mat 1 single_row) VNone VNone)
     = Raise Torch.shapes_cannot_be_multiplied.
Proof.
  apply (InfoNCE_width_mismatch (1 / 2) 2 1 one_hot_rows single_row VNone VNone).
  discriminate.
Defined.

(** On a contrast instance without masks the mask-based methods raise:
    [InfoNCE.compute] a TypeError once the similarity is computed (for
    embedding matrices of the same width), [JSD.compute] and
    [DebiasedInfoNCE.compute] an AttributeError at their first line, for
    every anchor and sample. *)
Theorem compute_without_masks_raises :
  forall (tau tau_plus : R) (d : nat) (A S : list (list R)) (a s : tensor)
         (discriminator : tensor -> tensor -> result tensor),
    InfoNCE.compute tau (mkContrastInstance (Mat d A) (Mat d S) VNone VNone)
    = Raise (TypeError "unsupported operand type: NoneType")
    /\ JSD.compute discriminator (mkContrastInstance a s VNone VNone)
       = Raise (AttributeError "'NoneType' object has no attribute 'int'")
    /\ DebiasedInfoNCE.compute tau tau_plus (mkContrastInstance a s VNone VNone)
       = Raise (AttributeError "'NoneType' object has no attribute 'int'").
Proof.
  intros tau tau_plus d A S a s disc. repeat split.
  unfold InfoNCE.compute, unpack. cbn [anchor sample pos_mask neg_mask].
  rewrite similarity_tab. cbn [bind].
  unfold Torch.div. rewrite binop_scalar_r. reflexivity.
Qed.

Lemma ones_minus_eye_sub (n : nat) :
  Torch.sub (Scalar 1) (Torch.eye n) = Ok (ones_minus_eye n).
Proof.
  unfold Torch.sub, Torch.eye, ones_minus_eye. rewrite binop_scalar_l.
  cbn [Torch.map_tensor]. do 2 f_equal.
  rewrite map_map. apply map_ext. intros i. now rewrite map_map.
Qed.

(** [JSD.compute_default_positive] pays no attention to the masks of the
    instance: for an anchor with n rows it returns what [JSD.compute]
    returns on the same embeddings with the identity matrix of size n as
    positive mask and ones minus identity as negative mask, whatever the
    discriminator is. *)
Theorem JSD_default_positive_is_identity_mask :
  forall (discriminator : tensor -> tensor -> result tensor)
         (c : nat) (A : list (list R)) (s : tensor) (pm nm : value),
    JSD_compute_default_positive discriminator
      (mkContrastInstance (Mat c A) s pm nm)
    = JSD.compute discriminator
        (mkContrastInstance (Mat c A) s
           (VTensor (Torch.eye (length A)))
           (VTensor (ones_minus_eye (length A)))).
Proof.
  intros disc c A s pm nm.
  unfold JSD_compute_default_positive, JSD.compute, unpack.
  cbn [anchor sample pos_mask neg_mask size0 bind mask_int as_tensor].
  rewrite ones_minus_eye_sub. reflexivity.
Qed.

(** With [tau_plus = 0] the debiased loss is the plain one: on embedding
    matrices and masks of matching shapes [DebiasedJSD.compute] returns
    what [JSD.compute] returns (default discriminator). *)
Theorem DebiasedJSD_without_bias_is_JSD :
  forall (n_a n_s d : nat) (A S P N : list (list R)),
    has_shape n_a d A -> has_shape n_s d S ->
    has_shape n_a n_s P -> has_shape n_a n_s N ->
    DebiasedJSD.compute JSD.default_discriminator 0
      (mkContrastInstance (Mat d A) (Mat d S) (real_mask n_s P) (real_mask n_s N))
    = JSD.compute JSD.default_discriminator
        (mkContrastInstance (Mat d A) (Mat d S) (real_mask n_s P) (real_mask n_s N)).
Proof.
  intros n_a n_s d A S P N [HA _] [HS _] HP HN.
  unfold real_mask.
  rewrite (tab_of_matrix 0 n_a n_s P HP), (tab_of_matrix 0 n_a n_s N HN).
  set (p := fun i j => nth j (nth i P []) 0).
  set (q := fun i j => nth j (nth i N []) 0).
  unfold DebiasedJSD.compute, JSD.compute, unpack.
  cbn [anchor sample pos_mask neg_mask mask_int].
  unfold Torch.int. rewrite !map_tensor_tab. cbn [bind].
  rewrite default_discriminator_tab, HA, HS. cbn [bind as_tensor].
  unfold Torch.neg, F.softplus, Torch.mul, Torch.add, Torch.sub, Torch.div.
  repeat tensor_step.
  do 3 f_equal. f_equal; f_equal.
  - apply Rsum_rows_ext. intros i j. unfold Rdiv. rewrite Rminus_0_r, Rinv_1. ring.
  - apply Rsum_rows_ext. intros i j. unfold Rdiv.
    rewrite Rminus_0_r, Rinv_1, Rmult_0_l, Rmult_0_l, Rminus_0_r.
    f_equal. f_equal. ring.
Qed.

Lemma DebiasedJSD_without_bias_is_JSD_witness :
  DebiasedJSD.compute JSD.default_discriminator 0
    (mkContrastInstance (Mat 2 one_hot_rows) (Mat 2 one_hot_rows)
       (real_mask 2 [[1; 0]; [0; 1]]) (real_mask 2 [[0; 1]; [1; 0]]))
  = JSD.compute JSD.default_discriminator
      (mkContrastInstance (Mat 2 one_hot_rows) (Mat 2 one_hot_rows)
         (real_mask 2 [[1; 0]; [0; 1]]) (real_mask 2 [[0; 1]; [1; 0]])).
Proof.
  apply (DebiasedJSD_without_bias_is_JSD 2 2 2 one_hot_rows one_hot_rows
           [[1; 0]; [0; 1]] [[0; 1]; [1; 0]]); apply shape_2x2.
Defined.

(** *** ReweightedInfoNCE *)

Lemma nth_tab {X : Type} (n m : nat) (a : nat -> nat -> X) (i j : nat) (d : X) :
  (i < n)%nat -> (j < m)%nat -> nth j (nth i (tab n m a) []) d = a i j.
Proof.
  intros Hi Hj. unfold tab.
  rewrite (nth_indep _ [] (map (a 0%nat) (seq 0 m)))
    by (rewrite length_map, length_seq; lia).
  rewrite (map_nth (fun i => map (a i) (seq 0 m))), seq_nth by lia.
  rewrite (nth_indep _ d (a (0 + i)%nat 0%nat))
    by (rewrite length_map, length_seq; lia).
  rewrite (map_nth (a (0 + i)%nat)), seq_nth by lia. reflexivity.
Qed.

Lemma torch_T_tab (n m : nat) (a : nat -> nat -> R) :
  torch_T (Mat m (tab n m a)) = Mat n (tab m n (fun j i => a i j)).
Proof.
  unfold torch_T. rewrite length_tab. f_equal. unfold tab at 2.
  apply map_seq_ext. intros j Hj. unfold tab at 1. rewrite map_map.
  apply map_seq_ext. intros i Hi.
  rewrite (nth_indep _ 0 (a i 0%nat)) by (rewrite length_map, length_seq; lia).
  rewrite (map_nth (a i)), seq_nth by lia. reflexivity.
Qed.

Lemma binop_vec_tab (f : R -> R -> R) (n m : nat) (v : nat -> R)
  (a : nat -> nat -> R) :
  Torch.binop f (Vec (map v (seq 0 m))) (Mat m (tab n m a))
  = Ok (Mat m (tab n m (fun i j => f (v j) (a i j)))).
Proof.
  unfold Torch.binop. rewrite length_map, length_seq, bdim_same. cbn [bind].
  unfold tab. rewrite map_map. do 2 f_equal.
  apply map_ext. intros i. apply bzip_map.
Qed.

Lemma mean_tab (n m : nat) (a : nat -> nat -> R) :
  Torch.mean (Mat m (tab n m a))
  = Scalar (Rsum (map (fun i => Rsum (map (a i) (seq 0 m))) (seq 0 n))
            / INR (n * m)).
Proof.
  unfold Torch.mean. rewrite sum_tab. cbn [Torch.numel]. now rewrite length_tab.
Qed.

(** On n >= 1 anchors and n samples, with a negative in every row of the
    negative mask, [ReweightedInfoNCE.compute] returns the
    mean over all n * n pairs (i, j) of
    [-log(e(j,j) / (e(j,j) + (n / |N_i|) * N[i,j] * e(i,j)))],
    where e is exp(sim) and |N_i| the number of negatives of row i: the
    diagonal term that enters pair (i, j) is the one of column j, and a
    pair that is not a negative contributes [-log 1 = 0].  The positive
    mask is not used. *)
Theorem ReweightedInfoNCE_compute_formula :
  forall (tau : R) (n d : nat) (A S : list (list R)) (pm : value)
         (N : list (list bool)),
    (1 <= n)%nat ->
    has_shape n d A -> has_shape n d S -> has_shape n n N ->
    every_row_has_one N = true ->
    let e := fun i j => Rtrigo_def.exp (normalized_sim A S tau i j) in
    let count := fun i => INR (length (filter (entry N i) (seq 0 n))) in
    ReweightedInfoNCE_compute tau
      (mkContrastInstance (Mat d A) (Mat d S) pm (VTensor (mask_tensor n N)))
    = Ok (VTensor (Scalar
        (Rsum (map (fun i =>
                 Rsum (map (fun j =>
                         - ln (e j j
                               / (e j j
                                  + INR n / count i * (b2r (entry N i j) * e i j))))
                         (seq 0 n)))
                 (seq 0 n))
         / INR (n * n)))).
Proof.
  intros tau n d A S pm N _ [HA _] [HS _] HN _ e count.
  unfold ReweightedInfoNCE_compute, unpack.
  cbn [anchor sample pos_mask neg_mask].
  rewrite similarity_tab, HA, HS. cbn [bind].
  unfold Torch.div at 1. rewrite binop_scalar_r, map_tensor_tab. cbn [bind].
  unfold Torch.exp. rewrite map_tensor_tab. cbn [size0 as_tensor bind].
  rewrite HA, (mask_tensor_tab n n N HN).
  rewrite sum_dim1_tab. cbn [bind].
  unfold Torch.div at 1. rewrite binop_scalar_l, map_tensor_vec. cbn [bind].
  rewrite diag_tab. cbn [bind].
  unfold Torch.mul. rewrite binop_tab. cbn [bind].
  rewrite torch_T_tab, binop_vec_tab. cbn [bind].
  rewrite torch_T_tab.
  unfold Torch.add, Torch.div. rewrite binop_vec_tab. cbn [bind].
  rewrite binop_vec_tab. cbn [bind].
  unfold Torch.log, Torch.neg. rewrite !map_tensor_tab, mean_tab.
  do 4 f_equal.
  apply Rsum_rows_ext. intros i j. unfold count. rewrite <- Rsum_count.
  reflexivity.
Qed.

Lemma ReweightedInfoNCE_compute_formula_witness :
  exists x : R,
    ReweightedInfoNCE_compute (1 / 2)
      (mkContrastInstance (Mat 2 one_hot_rows) (Mat 2 one_hot_rows)
         (VTensor (mask_tensor 2 identity_mask))
         (VTensor (mask_tensor 2 off_diagonal_mask)))
    = Ok (VTensor (Scalar x)).
Proof.
  eexists.
  apply (ReweightedInfoNCE_compute_formula (1 / 2) 2 2 one_hot_rows one_hot_rows
           (VTensor (mask_tensor 2 identity_mask)) off_diagonal_mask);
    first [ apply shape_2x2 | reflexivity | lia ].
Defined.

(** ** from_PyG_split *)

Lemma filter_seq_sorted (p : nat -> bool) (a n : nat) :
  StronglySorted lt (filter p (seq a n)).
Proof.
  revert a. induction n as [|n IH]; intros a; cbn [seq filter]; [constructor |].
  destruct (p a); [| apply IH].
  constructor; [apply IH |].
  apply Forall_forall. intros x Hx. apply filter_In in Hx as [Hx _].
  apply in_seq in Hx. lia.
Qed.

Lemma select_marks (n : nat) (l : list bool) :
  length l = n ->
  exists idx, select n (BVec l) = Ok idx /\ marks l idx.
Proof.
  intros Hlen. unfold select. rewrite Hlen, Nat.eqb_refl.
  eexists. split; [reflexivity |]. split; [apply filter_seq_sorted |].
  intros i. rewrite filter_In, in_seq. split.
  - intros [Hi Hnth].
    rewrite (nth_error_nth' l false) by lia. now rewrite Hnth.
  - intros Hnth.
    assert (i < length l)%nat as Hi
      by (apply nth_error_Some; rewrite Hnth; discriminate).
    split; [lia |]. now apply nth_error_nth.
Qed.

(** When the three masks have rank 1 and the length of the node count,
    [from_PyG_split] returns one mapping with the keys 'train', 'valid' and
    'test'; each list holds, in increasing order, exactly the positions at
    which its mask is set. *)
Theorem from_PyG_split_rank1 :
  forall (n : nat) (tr va te : list bool),
    length tr = n -> length va = n -> length te = n ->
    exists train valid test : list nat,
      from_PyG_split (mkData (Some (BVec tr)) (Some (BVec va)) (Some (BVec te)) n)
      = Ok (OneSplit [("train", train); ("valid", valid); ("test", test)]%string)
      /\ marks tr train /\ marks va valid /\ marks te test.
Proof.
  intros n tr va te Htr Hva Hte.
  destruct (select_marks n tr Htr) as (a & Ha & Hma).
  destruct (select_marks n va Hva) as (v & Hv & Hmv).
  destruct (select_marks n te Hte) as (t & Ht & Hmt).
  exists a, v, t. unfold from_PyG_split, getattr.
  cbn [data_item String.eqb Ascii.eqb Bool.eqb train_mask val_mask test_mask
       num_nodes bind].
  rewrite Ha, Hv, Ht. cbn [bind].
  split; [reflexivity | split; [exact Hma | split; [exact Hmv | exact Hmt]]].
Qed.

Lemma from_PyG_split_rank1_witness :
  exists train valid test : list nat,
    from_PyG_split
      (mkData (Some (BVec [true; false; false])) (Some (BVec [false; true; false]))
         (Some (BVec [false; false; true])) 3)
    = Ok (OneSplit [("train", train); ("valid", valid); ("test", test)]%string)
    /\ marks [true; false; false] train /\ marks [false; true; false] valid
    /\ marks [false; false; true] test.
Proof.
  apply (from_PyG_split_rank1 3); reflexivity.
Defined.

Lemma entry_marks (data : Data) (c k : nat) (m : bool_tensor) :
  mask_fits (num_nodes data) c m -> (k < c)%nat ->
  exists idx,
    match m with
    | BVec _ => select (num_nodes data) m
    | BMat _ _ => col <- column m k ;; select (num_nodes data) col
    end = Ok idx
    /\ marks (view m k) idx.
Proof.
  intros Hfit Hk. destruct m as [l | c' rows]; cbn [mask_fits view] in *.
  - now apply select_marks.
  - destruct Hfit as [Hc Hrows]. cbn [column].
    destruct (Nat.ltb_spec k c') as [_ | H]; [| lia]. cbn [bind].
    apply select_marks. now rewrite length_map.
Qed.

(** When the train mask has rank 2 with [c] columns, and the validation
    and test masks have rank 1 or at least [c] columns, [from_PyG_split]
    returns a list of [c] mappings.  Mapping [k] has the keys 'train',
    'val' and 'test' (there is no key 'valid'), and each list holds, in
    increasing order, the positions at which column [k] of its mask is set,
    or the mask itself when it has rank 1. *)
Theorem from_PyG_split_rank2 :
  forall (n c : nat) (rows : list (list bool)) (va te : bool_tensor),
    length rows = n -> mask_fits n c va -> mask_fits n c te ->
    exists out : list split_dict,
      from_PyG_split (mkData (Some (BMat c rows)) (Some va) (Some te) n)
      = Ok (ManySplits out)
      /\ length out = c
      /\ forall k, (k < c)%nat ->
           exists train val test : list nat,
             nth_error out k
             = Some [("train", train); ("val", val); ("test", test)]%string
             /\ marks (view (BMat c rows) k) train
             /\ marks (view va k) val
             /\ marks (view te k) test
             /\ lookup [("train", train); ("val", val); ("test", test)]%string
                  "valid" = None.
Proof.
  intros n c rows va te Hrows Hva Hte.
  set (data := mkData (Some (BMat c rows)) (Some va) (Some te) n).
  assert (forall ks, Forall (fun k => (k < c)%nat) ks ->
            exists out,
              split_columns data ks = Ok out
              /\ length out = length ks
              /\ forall j k, nth_error ks j = Some k ->
                   exists train val test : list nat,
                     nth_error out j
                     = Some [("train", train); ("val", val); ("test", test)]%string
                     /\ marks (view (BMat c rows) k) train
                     /\ marks (view va k) val
                     /\ marks (view te k) test) as Hloop.
  { induction ks as [|k ks IH]; intros Hall.
    - exists []. repeat split. intros [|j] k H; discriminate H.
    - apply Forall_cons_iff in Hall as [Hk Hks].
      destruct (IH Hks) as (out & Hout & Hlen & Hnth).
      destruct (entry_marks data c k (BMat c rows)) as (a & Ha & Hma);
        [split; [lia | exact Hrows] | exact Hk |].
      destruct (entry_marks data c k va Hva Hk) as (v & Hv & Hmv).
      destruct (entry_marks data c k te Hte Hk) as (t & Ht & Hmt).
      exists ([("train", a); ("val", v); ("test", t)]%string :: out).
      split.
      + cbn [split_columns split_entries data_item String.eqb Ascii.eqb Bool.eqb
               data train_mask val_mask test_mask num_nodes].
        cbn [data num_nodes] in Ha, Hv, Ht.
        rewrite Ha. cbn [bind]. rewrite Hv. cbn [bind]. rewrite Ht. cbn [bind].
        rewrite Hout. reflexivity.
      + split; [cbn; now rewrite Hlen |].
        intros [|j] k' Hj; cbn [nth_error] in *.
        * injection Hj as <-. exists a, v, t.
          split; [reflexivity | split; [exact Hma | split; [exact Hmv | exact Hmt]]].
        * now apply Hnth. }
  destruct (Hloop (seq 0 c)) as (out & Hout & Hlen & Hnth).
  { apply Forall_forall. intros k Hk. apply in_seq in Hk. lia. }
  exists out. unfold from_PyG_split, getattr.
  cbn [data data_item String.eqb Ascii.eqb Bool.eqb train_mask val_mask test_mask
       num_nodes bind]. fold data.
  rewrite Hout. cbn [bind]. split; [reflexivity |].
  split; [now rewrite Hlen, length_seq |].
  intros k Hk.
  destruct (Hnth k k) as (a & v & t & Hk' & Hma & Hmv & Hmt).
  { rewrite nth_error_nth' with (d := 0%nat) by (rewrite length_seq; lia).
    now rewrite seq_nth. }
  exists a, v, t.
  split; [exact Hk' |].
  split; [exact Hma | split; [exact Hmv | split; [exact Hmt | reflexivity]]].
Qed.

Lemma from_PyG_split_rank2_witness :
  exists out : list split_dict,
    from_PyG_split
      (mkData (Some (BMat 2 [[true; false]; [false; true]]))
         (Some (BMat 2 [[false; true]; [false; false]]))
         (Some (BVec [false; false])) 2)
    = Ok (ManySplits out)
    /\ length out = 2%nat
    /\ forall k, (k < 2)%nat ->
         exists train val test : list nat,
           nth_error out k
           = Some [("train", train); ("val", val); ("test", test)]%string
           /\ marks (view (BMat 2 [[true; false]; [false; true]]) k) train
           /\ marks (view (BMat 2 [[false; true]; [false; false]]) k) val
           /\ marks (view (BVec [false; false]) k) test
           /\ lookup [("train", train); ("val", val); ("test", test)]%string
                "valid" = None.
Proof.
  apply (from_PyG_split_rank2 2 2 [[true; false]; [false; true]]
           (BMat 2 [[false; true]; [false; false]]) (BVec [false; false]));
    [reflexivity | split; [lia | reflexivity] | reflexivity].
Defined.

Lemma select_not_ValueError (n : nat) (m : bool_tensor) :
  select n m <> Raise ValueError.
Proof.
  unfold select. destruct m as [l | c rows]; [| discriminate].
  destruct (length l =? n)%nat; discriminate.
Qed.

Lemma split_entries_not_ValueError (data : Data) (i : nat) (names : list string) :
  split_entries data i names <> Raise ValueError.
Proof.
  induction names as [|name names IH]; cbn [split_entries]; [discriminate |].
  destruct (data_item data name) as [m |]; [| discriminate].
  destruct m as [l | c rows].
  - pose proof (select_not_ValueError (num_nodes data) (BVec l)) as Hs.
    destruct (select _ _) as [idx | e]; cbn [bind]; [| congruence].
    destruct (split_entries data i names) as [d | e]; cbn [bind];
      [discriminate | congruence].
  - unfold column. destruct (i <? c)%nat; cbn [bind]; [| discriminate].
    pose proof (select_not_ValueError (num_nodes data)
                  (BVec (map (fun r => nth i r false) rows))) as Hs.
    destruct (select _ _) as [idx | e]; cbn [bind]; [| congruence].
    destruct (split_entries data i names) as [d | e]; cbn [bind];
      [discriminate | congruence].
Qed.

Lemma split_columns_not_ValueError (data : Data) (columns : list nat) :
  split_columns data columns <> Raise ValueError.
Proof.
  induction columns as [|i columns IH]; cbn [split_columns]; [discriminate |].
  pose proof (split_entries_not_ValueError data i
                ["train_mask"; "val_mask"; "test_mask"]%string) as He.
  destruct (split_entries _ _ _) as [d | e]; cbn [bind]; [| congruence].
  destruct (split_columns data columns) as [ds | e]; cbn [bind];
    [discriminate | congruence].
Qed.

(** A data object that lacks one of the three masks is refused with the
    AttributeError of the first read that fails; the masks are read in the
    order train, test, val.  The ValueError that the docstring announces
    is never raised, for no data object. *)
Theorem from_PyG_split_missing_mask :
  forall data : Data,
    (train_mask data = None ->
     from_PyG_split data = Raise (no_attribute "train_mask"))
    /\ (train_mask data <> None -> test_mask data = None ->
        from_PyG_split data = Raise (no_attribute "test_mask"))
    /\ (train_mask data <> None -> test_mask data <> None -> val_mask data = None ->
        from_PyG_split data = Raise (no_attribute "val_mask"))
    /\ from_PyG_split data <> Raise ValueError.
Proof.
  intros [tr va te n]. unfold from_PyG_split, getattr.
  cbn [data_item String.eqb Ascii.eqb Bool.eqb train_mask val_mask test_mask
       num_nodes].
  destruct tr as [tr |], te as [te |], va as [va |]; cbn [bind];
    repeat split; intros; try congruence; try discriminate.
  destruct tr as [l | c rows].
  - pose proof (select_not_ValueError n (BVec l)) as H1.
    pose proof (select_not_ValueError n va) as H2.
    pose proof (select_not_ValueError n te) as H3.
    destruct (select n (BVec l)); cbn [bind]; [| congruence].
    destruct (select n va); cbn [bind]; [| congruence].
    destruct (select n te); cbn [bind]; [discriminate | congruence].
  - match goal with
    | |- context [split_columns ?d ?ks] =>
        pose proof (split_columns_not_ValueError d ks) as H1;
        destruct (split_columns d ks); cbn [bind]; [discriminate | congruence]
    end.
Qed.

Lemma from_PyG_split_missing_mask_witness :
  from_PyG_split (mkData (Some (BVec [true])) None (Some (BVec [false])) 1)
  = Raise (no_attribute "val_mask").
Proof.
  apply (from_PyG_split_missing_mask
           (mkData (Some (BVec [true])) None (Some (BVec [false])) 1));
    [discriminate | discriminate | reflexivity].
Defined.


(** ** BaseEvaluator.__init__ *)

(** Without a cross-validator and without a stop metric, the stop metric
    is the first metric: the callable itself when [metric] is one
    callable, the first item when it is a list, and an IndexError when the
    list is empty.  The attribute [metric] keeps what was passed, a single
    callable is not wrapped into a list there. *)
Theorem BaseEvaluator_default_stop_metric :
  forall (split : pyobj) (name : string) (items : list pyobj),
    BaseEvaluator.__init__ split (PCallable name) StopNone PNone
    = Ok (BaseEvaluator.mkAttributes PNone split (PCallable name) (PCallable name))
    /\ BaseEvaluator.__init__ split (PList items) StopNone PNone
       = match items with
         | first :: _ =>
             Ok (BaseEvaluator.mkAttributes PNone split (PList items) first)
         | [] => Raise (IndexError "list index out of range")
         end.
Proof.
  intros split name items. split; [reflexivity |].
  destruct items; reflexivity.
Qed.

Lemma py_index_in_range {X : Type} (l : list X) (k : Z) (d : X) :
  (- Z.of_nat (length l) <= k < Z.of_nat (length l))%Z ->
  py_index l k = Ok (nth (Z.to_nat (k mod Z.of_nat (length l))) l d).
Proof.
  intros Hk. unfold py_index.
  set (n := Z.of_nat (length l)) in *.
  destruct (Z.ltb_spec k 0) as [Hneg | Hpos].
  - destruct (Z.ltb_spec (k + n) 0) as [H | _]; [lia |].
    replace (k mod n)%Z with (k + n)%Z
      by (apply Z.mod_unique with (q := (-1)%Z); lia).
    rewrite (nth_error_nth' l d) by (subst n; lia). reflexivity.
  - destruct (Z.ltb_spec k 0) as [H | _]; [lia |].
    rewrite Z.mod_small by lia.
    rewrite (nth_error_nth' l d) by (subst n; lia). reflexivity.
Qed.

Lemma py_index_out_of_range {X : Type} (l : list X) (k : Z) :
  (k < - Z.of_nat (length l) \/ Z.of_nat (length l) <= k)%Z ->
  py_index l k = Raise (IndexError "list index out of range").
Proof.
  intros Hk. unfold py_index.
  destruct (Z.ltb_spec k 0) as [Hneg | Hpos].
  - destruct (Z.ltb_spec (k + Z.of_nat (length l)) 0) as [_ | H]; [reflexivity | lia].
  - destruct (Z.ltb_spec k 0) as [H | _]; [lia |].
    destruct (nth_error l (Z.to_nat k)) eqn:E; [| reflexivity].
    assert (Z.to_nat k < length l)%nat by (apply nth_error_Some; congruence). lia.
Qed.

(** An integer stop metric indexes the list of metrics the way Python
    indexes a list: for [-len <= k < len] the stop metric is the item at
    [k mod len], so a negative index counts from the end; any other
    integer raises an IndexError.  This holds with and without a
    cross-validator. *)
Theorem BaseEvaluator_integer_stop_metric :
  forall (split cv : pyobj) (items : list pyobj) (k : Z),
    let len := Z.of_nat (length items) in
    ((- len <= k < len)%Z ->
     BaseEvaluator.__init__ split (PList items) (StopInt k) cv
     = Ok (BaseEvaluator.mkAttributes cv split (PList items)
             (nth (Z.to_nat (k mod len)) items PNone)))
    /\ ((k < - len \/ len <= k)%Z ->
        BaseEvaluator.__init__ split (PList items) (StopInt k) cv
        = Raise (IndexError "list index out of range")).
Proof.
  intros split cv items k len. unfold BaseEvaluator.__init__.
  assert (match cv with
          | PNone => StopInt k
          | _ => StopInt k
          end = StopInt k) as -> by (destruct cv; reflexivity).
  cbn [as_int callable]. split; intros Hk.
  - now rewrite (py_index_in_range items k PNone Hk).
  - now rewrite (py_index_out_of_range items k Hk).
Qed.

Lemma BaseEvaluator_integer_stop_metric_witness :
  BaseEvaluator.__init__ (PInstance "split") (PList [PCallable "acc"; PCallable "f1"])
    (StopInt (-1)) PNone
  = Ok (BaseEvaluator.mkAttributes PNone (PInstance "split")
          (PList [PCallable "acc"; PCallable "f1"]) (PCallable "f1")).
Proof.
  apply (BaseEvaluator_integer_stop_metric (PInstance "split") PNone
           [PCallable "acc"; PCallable "f1"] (-1)).
  cbn. lia.
Defined.

(** ** set_differ and set_intersect *)

Lemma insert_sorted_In (x y : Z) (l : list Z) :
  In y (insert_sorted x l) <-> y = x \/ In y l.
Proof.
  induction l as [|z l IH]; cbn.
  - intuition.
  - destruct (x <=? z)%Z; cbn; rewrite ?IH; intuition.
Qed.

Lemma sort_ascending_In (y : Z) (l : list Z) :
  In y (sort_ascending l) <-> In y l.
Proof.
  induction l as [|x l IH]; cbn; [tauto |].
  rewrite insert_sorted_In, IH. intuition.
Qed.

Lemma insert_sorted_sorted (x : Z) (l : list Z) :
  StronglySorted Z.le l -> StronglySorted Z.le (insert_sorted x l).
Proof.
  induction l as [|z l IH]; intros Hs; cbn.
  - repeat constructor.
  - inversion Hs as [|? ? Hl Hz]; subst.
    destruct (Z.leb_spec x z) as [Hle | Hgt].
    + constructor; [assumption |]. constructor; [assumption |].
      eapply Forall_impl; [| exact Hz]. cbn. intros; lia.
    + constructor; [now apply IH |].
      apply Forall_forall. intros y Hy. apply insert_sorted_In in Hy as [-> | Hy];
        [lia |]. rewrite Forall_forall in Hz. now apply Hz.
Qed.

Lemma sort_ascending_sorted (l : list Z) : StronglySorted Z.le (sort_ascending l).
Proof.
  induction l as [|x l IH]; cbn; [constructor | now apply insert_sorted_sorted].
Qed.

Lemma drop_repeats_In (y : Z) (l : list Z) :
  In y (drop_repeats l) <-> In y l.
Proof.
  induction l as [|x l IH]; [reflexivity |].
  cbn [drop_repeats]. destruct l as [|z l]; [reflexivity |].
  destruct (Z.eqb_spec x z) as [-> | Hne].
  - rewrite IH. cbn. intuition.
  - cbn [In] in *. rewrite IH. reflexivity.
Qed.

Lemma drop_repeats_sorted (l : list Z) :
  StronglySorted Z.le l -> StronglySorted Z.lt (drop_repeats l).
Proof.
  induction l as [|x l IH]; intros Hs; [constructor |].
  inversion Hs as [|? ? Hl Hx]; subst.
  cbn [drop_repeats]. destruct l as [|z l]; [repeat constructor |].
  destruct (Z.eqb_spec x z) as [-> | Hne]; [now apply IH |].
  constructor; [now apply IH |].
  apply Forall_forall. intros y Hy. apply (proj1 (drop_repeats_In _ _)) in Hy.
  rewrite Forall_forall in Hx. pose proof (Hx y Hy) as Hxy.
  destruct Hy as [<- | Hy]; [lia |].
  inversion Hl as [|? ? _ Hz]; subst. rewrite Forall_forall in Hz.
  pose proof (Hz y Hy). pose proof (Hx z (or_introl eq_refl)). lia.
Qed.

Lemma masked_filter {X : Type} (c : X -> nat) (q : nat -> bool) (l : list X) :
  masked l (map q (map c l)) = filter (fun x => q (c x)) l.
Proof.
  unfold masked. induction l as [|x l IH]; [reflexivity |].
  cbn [map combine filter snd]. destruct (q (c x)); cbn [map fst]; now rewrite IH.
Qed.

Lemma StronglySorted_filter (p : Z -> bool) (l : list Z) :
  StronglySorted Z.lt l -> StronglySorted Z.lt (filter p l).
Proof.
  induction l as [|x l IH]; intros Hs; [constructor |].
  inversion Hs as [|? ? Hl Hx]; subst. cbn [filter].
  destruct (p x); [| now apply IH].
  constructor; [now apply IH |].
  apply Forall_forall. intros y Hy. apply filter_In in Hy as [Hy _].
  rewrite Forall_forall in Hx. now apply Hx.
Qed.

(** Both results are in strictly ascending order.  An entry is in
    [set_differ s1 s2] exactly when it occurs once in [s1] and [s2] taken
    together, and in [set_intersect s1 s2] exactly when it occurs twice or
    more: an entry that [s1] alone holds twice counts as common, and every
    entry of [s1] or [s2] is in exactly one of the two results. *)
Theorem set_differ_intersect_by_count :
  forall (s1 s2 : list Z),
    StronglySorted Z.lt (set_differ s1 s2)
    /\ StronglySorted Z.lt (set_intersect s1 s2)
    /\ (forall x, In x (set_differ s1 s2) <-> count_occ Z.eq_dec (s1 ++ s2) x = 1%nat)
    /\ (forall x, In x (set_intersect s1 s2)
                  <-> (2 <= count_occ Z.eq_dec (s1 ++ s2) x)%nat).
Proof.
  intros s1 s2. unfold set_differ, set_intersect, unique_with_counts.
  cbv zeta. rewrite !masked_filter.
  pose proof (drop_repeats_sorted _ (sort_ascending_sorted (s1 ++ s2))) as Hsorted.
  repeat split.
  - now apply StronglySorted_filter.
  - now apply StronglySorted_filter.
  - intros Hx. apply filter_In in Hx as [_ Hx]. now apply Nat.eqb_eq.
  - intros Hx. apply filter_In. split; [| now apply Nat.eqb_eq].
    apply drop_repeats_In, sort_ascending_In, (count_occ_In Z.eq_dec). lia.
  - intros Hx. apply filter_In in Hx as [_ Hx]. apply Nat.ltb_lt in Hx. lia.
  - intros Hx. apply filter_In. split; [| apply Nat.ltb_lt; lia].
    apply drop_repeats_In, sort_ascending_In, (count_occ_In Z.eq_dec). lia.
Qed.

Lemma count_occ_NoDup_app (s1 s2 : list Z) (x : Z) :
  NoDup s1 -> NoDup s2 ->
  count_occ Z.eq_dec (s1 ++ s2) x
  = ((if in_dec Z.eq_dec x s1 then 1 else 0)
     + (if in_dec Z.eq_dec x s2 then 1 else 0))%nat.
Proof.
  intros H1 H2. rewrite count_occ_app.
  assert (forall s, NoDup s ->
            count_occ Z.eq_dec s x = if in_dec Z.eq_dec x s then 1%nat else 0%nat)
    as Hone.
  { intros s Hs. destruct (in_dec Z.eq_dec x s) as [Hin | Hout].
    - apply NoDup_count_occ' with (decA := Z.eq_dec); assumption.
    - now apply count_occ_not_In. }
  now rewrite (Hone s1 H1), (Hone s2 H2).
Qed.

(** On tensors without repeated entries, [set_intersect] holds exactly the
    entries common to both, and [set_differ] exactly the entries of one
    that are not in the other: the symmetric difference, not [s1] without
    [s2]. *)
Theorem set_differ_intersect_without_repeats :
  forall (s1 s2 : list Z),
    NoDup s1 -> NoDup s2 ->
    (forall x, In x (set_intersect s1 s2) <-> In x s1 /\ In x s2)
    /\ (forall x, In x (set_differ s1 s2)
                  <-> (In x s1 /\ ~ In x s2) \/ (In x s2 /\ ~ In x s1)).
Proof.
  intros s1 s2 H1 H2.
  destruct (set_differ_intersect_by_count s1 s2) as (_ & _ & Hd & Hi).
  split; intros x.
  - rewrite Hi, (count_occ_NoDup_app s1 s2 x H1 H2).
    destruct (in_dec Z.eq_dec x s1), (in_dec Z.eq_dec x s2); intuition lia.
  - rewrite Hd, (count_occ_NoDup_app s1 s2 x H1 H2).
    destruct (in_dec Z.eq_dec x s1), (in_dec Z.eq_dec x s2); intuition lia.
Qed.

Lemma set_differ_intersect_without_repeats_witness :
  (forall x, In x (set_intersect [3; 1; 2] [2; 5; 3])%Z
             <-> In x [3; 1; 2]%Z /\ In x [2; 5; 3]%Z)
  /\ (forall x, In x (set_differ [3; 1; 2] [2; 5; 3])%Z
                <-> (In x [3; 1; 2]%Z /\ ~ In x [2; 5; 3]%Z)
                    \/ (In x [2; 5; 3]%Z /\ ~ In x [3; 1; 2]%Z)).
Proof.
  apply (set_differ_intersect_without_repeats [3; 1; 2]%Z [2; 5; 3]%Z);
    repeat constructor; cbn; intuition lia.
Defined.

(** ** get_activation and the augmentors *)

Lemma getitem_spec {V : Type} (d : list (string * V)) (key : string) :
  (In key (map fst d) -> exists v, Utils.getitem d key = Utils.Returned v /\ In (key, v) d)
  /\ (~ In key (map fst d) -> Utils.getitem d key = Utils.Raised (Utils.KeyError key)).
Proof.
  unfold Utils.getitem. induction d as [|[k v] d IH]; cbn [map fst find In].
  - split; [contradiction | reflexivity].
  - destruct (String.eqb_spec k key) as [-> | Hne]; cbn [snd].
    + split; [| intros H; elim H; now left].
      intros _. exists v. split; [reflexivity | now left].
    + destruct IH as [IH1 IH2]. split.
      * intros [H | H]; [contradiction |].
        destruct (IH1 H) as (w & Hw & Hin). exists w. split; [assumption | now right].
      * intros H. apply IH2. intros Hin. apply H. now right.
Qed.

(** [get_activation] returns a class for the six lower-case names 'relu',
    'hardtanh', 'elu', 'leakyrelu', 'prelu' and 'rrelu', a different one
    for each, and raises a KeyError carrying the name for every other
    string. *)
Theorem get_activation_names :
  forall name : string,
    (In name ["relu"; "hardtanh"; "elu"; "leakyrelu"; "prelu"; "rrelu"]%string ->
     exists a, Utils.get_activation name = Utils.Returned a)
    /\ (~ In name ["relu"; "hardtanh"; "elu"; "leakyrelu"; "prelu"; "rrelu"]%string ->
        Utils.get_activation name = Utils.Raised (Utils.KeyError name))
    /\ (forall other a,
          Utils.get_activation name = Utils.Returned a ->
          Utils.get_activation other = Utils.Returned a -> name = other).
Proof.
  intros name. unfold Utils.get_activation.
  destruct (getitem_spec Utils.activations name) as [Hin Hout].
  split; [| split].
  - intros H. destruct (Hin H) as (a & Ha & _). now exists a.
  - exact Hout.
  - intros other a Hname Hother.
    assert (forall n b, Utils.getitem Utils.activations n = Utils.Returned b ->
                        In (n, b) Utils.activations) as Hitem.
    { intros n b Hn. destruct (getitem_spec Utils.activations n) as [H1 H2].
      destruct (in_dec string_dec n (map fst Utils.activations)) as [Hi | Hi].
      - destruct (H1 Hi) as (w & Hw & Hin'). rewrite Hn in Hw.
        inversion Hw. now subst.
      - rewrite (H2 Hi) in Hn. discriminate Hn. }
    apply Hitem in Hname. apply Hitem in Hother.
    cbn in Hname, Hother.
    repeat match goal with
           | H : _ \/ _ |- _ => destruct H as [H | H]
           | H : False |- _ => contradiction
           | H : (_, _) = (_, _) |- _ => inversion H; clear H; subst
           end; try reflexivity; try discriminate.
Qed.

Lemma get_activation_names_witness :
  exists a, Utils.get_activation "elu" = Utils.Returned a.
Proof.
  apply (get_activation_names "elu"). cbn. tauto.
Defined.

Lemma and_then_getitem_not_unsupported {V A : Type} (param : list (string * V))
  (key msg : string) (k : V -> Utils.outcome A) :
  (forall v, k v <> Utils.Raised (Utils.NotImplementedError msg)) ->
  Utils.and_then (Utils.getitem param key) k
  <> Utils.Raised (Utils.NotImplementedError msg).
Proof.
  intros Hk. unfold Utils.getitem.
  destruct (find _ param); cbn [Utils.and_then]; [apply Hk | discriminate].
Qed.


Lemma split_plus_whole (s : string) :
  Utils.has_plus s = false -> Utils.split_plus s = [s].
Proof.
  induction s as [|c s IH]; cbn [Utils.has_plus Utils.split_plus]; [reflexivity |].
  intros H. apply orb_false_iff in H as [Hc Hs]. rewrite Hc, (IH Hs). reflexivity.
Qed.

Lemma split_plus_first (x rest : string) :
  Utils.has_plus x = false ->
  Utils.split_plus (x ++ "+" ++ rest) = x :: Utils.split_plus rest.
Proof.
  induction x as [|c x IH]; cbn [Utils.has_plus]; intros H.
  - reflexivity.
  - apply orb_false_iff in H as [Hc Hx].
    change (String c x ++ "+" ++ rest)%string with (String c (x ++ "+" ++ rest)).
    cbn [Utils.split_plus]. rewrite Hc, (IH Hx). reflexivity.
Qed.

(** Splitting at '+' undoes joining with '+', for names that hold no '+'. *)
Lemma split_plus_join_plus (names : list string) :
  names <> [] -> Forall (fun x => Utils.has_plus x = false) names ->
  Utils.split_plus (Utils.join_plus names) = names.
Proof.
  induction names as [|x names IH]; [congruence |]. intros _ Hall.
  apply Forall_cons_iff in Hall as [Hx Hrest].
  destruct names as [|y names].
  - cbn [Utils.join_plus]. now apply split_plus_whole.
  - change (Utils.join_plus (x :: y :: names))
      with (x ++ "+" ++ Utils.join_plus (y :: names))%string.
    rewrite (split_plus_first x _ Hx), IH; [reflexivity | discriminate | assumption].
Qed.



(** [load_node_dataset] refuses a name outside its list with an
    AssertionError; of the twelve names of the list it builds a dataset
    for ten, and for 'Karate' and 'ogbg-code' it returns [None] without an
    error, whatever the path and the flags are. *)
Theorem load_node_dataset_names :
  forall (home : string) (join : string -> string -> string)
         (path name : string) (to_sparse_tensor to_dense : bool),
    let r := Utils.load_node_dataset home join path name to_sparse_tensor to_dense in
    (~ In name Utils.node_dataset_names -> r = Utils.Raised Utils.AssertionError)
    /\ (name = "Karate"%string \/ name = "ogbg-code"%string ->
        r = Utils.Returned None)
    /\ (In name Utils.node_dataset_names ->
        name <> "Karate"%string -> name <> "ogbg-code"%string ->
        exists d, r = Utils.Returned (Some d)).
Proof.
  intros home join path name sp de r. subst r. split; [| split].
  - intros Hout. unfold Utils.load_node_dataset.
    destruct (Utils.mem name Utils.node_dataset_names) eqn:E; [| reflexivity].
    exfalso. apply Hout. unfold Utils.mem in E.
    apply existsb_exists in E as (x & Hx & Heq).
    apply String.eqb_eq in Heq. now subst.
  - intros [-> | ->]; reflexivity.
  - intros Hin HK HO. cbn in Hin.
    repeat match goal with
           | H : _ \/ _ |- _ => destruct H as [H | H]
           end; try contradiction; subst name; try congruence;
      eexists; reflexivity.
Qed.

Lemma load_node_dataset_names_witness :
  Utils.load_node_dataset "/home/user" (fun a b => (a ++ "/" ++ b)%string)
    "data" "Karate" true false
  = Utils.Returned None.
Proof.
  apply (load_node_dataset_names "/home/user" (fun a b => (a ++ "/" ++ b)%string)
           "data" "Karate" true false).
  left. reflexivity.
Defined.
